(** * LogiSketch: geometry core of the warehouse sketcher

    A shallow embedding of the layout geometry found in
    [src/components/WarehouseCanvas.tsx] (current renderer and interaction
    controller), [src/WarehouseCanvas.tsx] (legacy renderer) and
    [src/components/IndustrialApp.tsx] (owner of the object collection),
    together with the properties stated about them.

    Numbers.  A JavaScript [number] that carries a measure (meters, pixels,
    a scale) is a rational [Q]; comparison of results is [Qeq] ([==]).
    Counters that only ever hold integers ([i++] loop indices) are [Z].
    The inputs (props, state, events) are finite numbers and arithmetic on
    them is exact: binary64 rounding and overflow are not modelled.  Every
    division whose divisor the source guards is written with [/]; a division
    whose divisor may be zero returns an [option].  One such division feeds a
    result that leaves the component: the pixel-to-meter mapping of the
    mouse-move handlers, whose quotient by a zero scale, an infinity or
    [NaN], is snapped, clamped and passed to the move callback.  That path
    is modelled with [JS.Num], which adds the infinities and [NaN] to the
    rationals. *)

From Stdlib Require Import QArith Qround Qminmax ZArith List String Bool Lia Lqa.
From Stdlib Require Import DecimalString.
From Stdlib Require Permutation Sorted.
Import ListNotations.

Local Open Scope Q_scope.

(** ** JavaScript number helpers *)

Module JS.

(** [a < b] on numbers. *)
Definition Qlt_bool (a b : Q) : bool := negb (Qle_bool b a).

(** [x || d] on a number: [0] is falsy. *)
Definition or_default (x d : Q) : Q := if Qeq_bool x 0 then d else x.

(** A number used as a condition ([if (obj.height) ...]). *)
Definition truthy (x : Q) : bool := negb (Qeq_bool x 0).

Definition Math_min : Q -> Q -> Q := Qmin.
Definition Math_max : Q -> Q -> Q := Qmax.
Definition Math_floor (x : Q) : Z := Qfloor x.

(** [Math.round] rounds to the nearest integer, ties towards +infinity. *)
Definition Math_round (x : Q) : Z := Qfloor (x + (1 # 2)).

(** [for (let i = start; i < bound; i += step) ...]: the successive values
    of the integer counter [i].  [fuel] bounds the number of trips. *)
Fixpoint for_lt (fuel : nat) (i step : Z) (bound : Q) : list Z :=
  match fuel with
  | O => []
  | S fuel' =>
      if Qlt_bool (inject_Z i) bound
      then i :: for_lt fuel' (i + step) step bound
      else []
  end.

(** Number of trips of that loop when [step > 0]. *)
Definition trips (i step : Z) (bound : Q) : nat :=
  Z.to_nat (Qceiling ((bound - inject_Z i) / inject_Z step)).

Definition for_loop (start step : Z) (bound : Q) : list Z :=
  for_lt (trips start step bound) start step bound.

(** [a / b] where [b] may be zero: JavaScript then yields [NaN] or an
    infinity, which is no rational. *)
Definition div (a b : Q) : option Q :=
  if Qeq_bool b 0 then None else Some (a / b).

(** *** Numbers that need not be finite

    What a division by zero yields, and what [Math.round], [Math.min] and
    [Math.max] make of it. *)
Inductive Num :=
| Fin (q : Q)
| PosInf        (* Infinity *)
| NegInf        (* -Infinity *)
| NaN.

(** The sign bit of a number of value [q]; [negzero] tells, for a zero,
    whether it is [-0]. *)
Definition signbit (q : Q) (negzero : bool) : bool :=
  if Qeq_bool q 0 then negzero else Qlt_bool q 0.

(** [a / z] for a divisor [z] that is zero, [negzero] telling whether it is
    [-0]: [NaN] when [a] is zero too, otherwise the infinity whose sign is
    the product of the signs. *)
Definition div_by_zero (a : Q) (negzero : bool) : Num :=
  if Qeq_bool a 0 then NaN
  else if xorb (Qlt_bool a 0) negzero then NegInf else PosInf.

(** [Math.round(n / k) * k] for a constant [k > 0]: an infinity and [NaN]
    pass through the division, the rounding and the product. *)
Definition snap_num (k : Q) (n : Num) : Num :=
  match n with
  | Fin q => Fin (inject_Z (Math_round (q / k)) * k)
  | PosInf => PosInf
  | NegInf => NegInf
  | NaN => NaN
  end.

(** [Math.min(n, b)] and [Math.max(a, n)] with [a], [b] finite: [NaN] if
    [n] is [NaN]. *)
Definition Math_min_num (n : Num) (b : Q) : Num :=
  match n with
  | Fin q => Fin (Math_min q b)
  | PosInf => Fin b
  | NegInf => NegInf
  | NaN => NaN
  end.

Definition Math_max_num (a : Q) (n : Num) : Num :=
  match n with
  | Fin q => Fin (Math_max a q)
  | PosInf => PosInf
  | NegInf => Fin a
  | NaN => NaN
  end.

End JS.

(** ** types.ts *)

Inductive LightingOrientation := Longitudinal | Transversal.
Inductive LightingMode := Quantity | Distance.

Record LightingConfig := mkLighting {
  isActive : bool;
  orientation : LightingOrientation;
  mode : LightingMode;
  value : Q;
  offset : Q;
  fixtureQty : Q;
  fixturesPerProfile : Q
}.

Inductive ObjectType := RACK | MEZZANINE.
Inductive SportsObjectType := POST | COVERING.

(** [RackBlock] and [SportsObject] have the same fields and differ in the
    type of their [type] tag. *)
Record Placed (T : Type) := mkPlaced {
  id : string;
  type : T;
  x : Q;
  y : Q;
  width : Q;
  depth : Q;
  height : Q;
  elevation : Q;
  label : string
}.
Arguments mkPlaced {T}.
Arguments id {T}.
Arguments type {T}.
Arguments x {T}.
Arguments y {T}.
Arguments width {T}.
Arguments depth {T}.
Arguments height {T}.
Arguments elevation {T}.
Arguments label {T}.

Definition RackBlock := Placed ObjectType.
Definition SportsObject := Placed SportsObjectType.

Record StorageConfig := mkStorage {
  storageActive : bool;
  racks : list RackBlock
}.

Record ProjectData := mkProject {
  projectName : string;
  pWidth : Q;
  pLength : Q;
  ceilingHeight : Q;
  lighting : LightingConfig;
  storage : StorageConfig;
  luxRequired : Q;
  observations : string
}.

Definition DEFAULT_PROJECT : ProjectData :=
  {| projectName := "Novo Projeto";
     pWidth := 0;
     pLength := 0;
     ceilingHeight := 0;
     lighting := {| isActive := true;
                    orientation := Longitudinal;
                    mode := Distance;
                    value := 5;
                    offset := 2;
                    fixtureQty := 0;
                    fixturesPerProfile := 0 |};
     storage := {| storageActive := false; racks := [] |};
     luxRequired := 300;
     observations := "" |}.

Record SportsProjectData := mkSports {
  sWidth : Q;
  sLength : Q;
  objects : list SportsObject;
  sObservations : string
}.

Definition DEFAULT_SPORTS_PROJECT : SportsProjectData :=
  {| sWidth := 40; sLength := 20; objects := []; sObservations := "" |}.

(** ** Lighting layout: profile positions *)

(** The block of [drawScene2D] that fills [profilePositions], in the current
    renderer (src/components/WarehouseCanvas.tsx). *)
Module Current.

Definition distance_positions (axisLimit value offset : Q) : list Q :=
  if JS.Qlt_bool 0.01 value then
    let available := axisLimit - (offset * 2) in
    if Qle_bool 0 available then
      let intervals := JS.Math_floor (available / value) in
      let count := (intervals + 1)%Z in
      if (0 <? count)%Z then
        let span := inject_Z intervals * value in
        let start := offset + ((available - span) / 2) in
        map (fun i => start + (inject_Z i * value))
            (JS.for_loop 0 1 (inject_Z count))
      else []
    else []
  else [].

Definition quantity_positions (axisLimit value offset : Q) : list Q :=
  if Qle_bool 1 value then
    if Qeq_bool value 1 then [axisLimit / 2]
    else
      let availableSpace := axisLimit - (offset * 2) in
      let step := availableSpace / (value - 1) in
      map (fun i => offset + (inject_Z i * step)) (JS.for_loop 0 1 value)
  else [].

Definition profilePositions (axisLimit : Q) (l : LightingConfig) : list Q :=
  match mode l with
  | Quantity => quantity_positions axisLimit (value l) (offset l)
  | Distance => distance_positions axisLimit (value l) (offset l)
  end.

Definition isLongitudinal (l : LightingConfig) : bool :=
  match orientation l with Longitudinal => true | Transversal => false end.

(** [axisLimit] and [profilePositions] as [drawScene2D] computes them from
    the project. *)
Definition axisLimit (d : ProjectData) : Q :=
  if isLongitudinal (lighting d) then pWidth d else pLength d.

Definition sceneProfilePositions (d : ProjectData) : list Q :=
  profilePositions (axisLimit d) (lighting d).

End Current.

(** The same block in the legacy renderer (src/WarehouseCanvas.tsx). *)
Module Legacy.

(** [while (currentPos < axisLimit && iterations < 5000)]; [left] is
    [5000 - iterations]. *)
Fixpoint stepping (left : nat) (currentPos axisLimit value : Q) : list Q :=
  match left with
  | O => []
  | S left' =>
      if JS.Qlt_bool currentPos axisLimit
      then currentPos :: stepping left' (currentPos + value) axisLimit value
      else []
  end.

Definition distance_positions (axisLimit value offset : Q) : list Q :=
  if JS.Qlt_bool 0.01 value then stepping 5000 offset axisLimit value
  else [].

Definition quantity_positions (axisLimit value offset : Q) : list Q :=
  if Qle_bool 1 value then
    if Qeq_bool value 1 then [axisLimit / 2]
    else
      let availableSpace := axisLimit - (offset * 2) in
      let step := availableSpace / (value - 1) in
      map (fun i => offset + (inject_Z i * step)) (JS.for_loop 0 1 value)
  else [].

Definition profilePositions (axisLimit : Q) (l : LightingConfig) : list Q :=
  match mode l with
  | Quantity => quantity_positions axisLimit (value l) (offset l)
  | Distance => distance_positions axisLimit (value l) (offset l)
  end.

Definition isLongitudinal (l : LightingConfig) : bool :=
  match orientation l with Longitudinal => true | Transversal => false end.

(** [axisLimit] and [profilePositions] as [drawScene2D] computes them from
    the project. *)
Definition axisLimit (d : ProjectData) : Q :=
  if isLongitudinal (lighting d) then pWidth d else pLength d.

Definition sceneProfilePositions (d : ProjectData) : list Q :=
  profilePositions (axisLimit d) (lighting d).

End Legacy.


(** ** The canvas component (src/components/WarehouseCanvas.tsx) *)

(** The canvas receives either a [ProjectData] or a [SportsProjectData];
    the [mode] prop says which, so the model ties the two together. *)
Inductive CanvasData :=
| IndustrialData (d : ProjectData)
| SportsData (d : SportsProjectData).

Inductive CanvasMode := INDUSTRIAL | SPORTS.
Inductive ViewMode := View2D | View3D.

Inductive AnyType :=
| OfIndustrial (t : ObjectType)
| OfSports (t : SportsObjectType).

Definition CanvasObject := Placed AnyType.

Definition retag {A B : Type} (f : A -> B) (o : Placed A) : Placed B :=
  mkPlaced (id o) (f (type o)) (x o) (y o) (width o) (depth o)
           (height o) (elevation o) (label o).

Definition mode_of (data : CanvasData) : CanvasMode :=
  match data with IndustrialData _ => INDUSTRIAL | SportsData _ => SPORTS end.

Definition dataWidth (data : CanvasData) : Q :=
  match data with IndustrialData d => pWidth d | SportsData d => sWidth d end.

Definition dataLength (data : CanvasData) : Q :=
  match data with IndustrialData d => pLength d | SportsData d => sLength d end.

Definition getObjects (data : CanvasData) : list CanvasObject :=
  match data with
  | IndustrialData d => map (retag OfIndustrial) (racks (storage d))
  | SportsData d => map (retag OfSports) (objects d)
  end.

Record Transform := mkTransform { tScale : Q; tX : Q; tY : Q }.

Record DragTarget := mkDrag { dragId : string; offsetX : Q; offsetY : Q }.

Record Metrics := mkMetrics {
  originX : Q;
  originY : Q;
  scale : Q;
  drawWidth : Q;
  drawLength : Q
}.

Definition padding : Q := 60.

(** The "Metrics" prologue of [drawScene2D]. *)
Definition sceneMetrics (data : CanvasData) (width height : Q)
    (currentTransform : Transform) : Metrics :=
  let availableWidth := width - padding * 2 in
  let availableHeight := height - padding * 2 in
  let baseScaleX := availableWidth / JS.or_default (dataWidth data) 1 in
  let baseScaleY := availableHeight / JS.or_default (dataLength data) 1 in
  let baseScale := JS.Math_min baseScaleX baseScaleY in
  let finalScale := baseScale * tScale currentTransform in
  let drawWidth := dataWidth data * finalScale in
  let drawLength := dataLength data * finalScale in
  let originX := ((width - drawWidth) / 2) + tX currentTransform in
  let originY := ((height - drawLength) / 2) + tY currentTransform in
  mkMetrics originX originY finalScale drawWidth drawLength.

(** [toPx], [getX], [getY] of [drawScene2D]: meters to pixels. *)
Definition toPx (m : Metrics) (meters : Q) : Q := meters * scale m.
Definition getX (m : Metrics) (meters : Q) : Q := originX m + toPx m meters.
Definition getY (m : Metrics) (meters : Q) : Q := originY m + toPx m meters.

(** *** Nearest neighbours of the dragged object *)

(** [None] in a [dist] field is the initial [Infinity]; [None] in a
    [closest] field is [null]. *)
Record Nearest := mkNearest {
  closestLeft : option CanvasObject;
  closestRight : option CanvasObject;
  closestTop : option CanvasObject;
  closestBottom : option CanvasObject;
  distLeft : option Q;
  distRight : option Q;
  distTop : option Q;
  distBottom : option Q
}.

Definition nearest_init : Nearest :=
  mkNearest None None None None None None None None.

(** [gap < dist] where [dist] may still be [Infinity]. *)
Definition lt_dist (gap : Q) (dist : option Q) : bool :=
  match dist with None => true | Some d => JS.Qlt_bool gap d end.

Definition EPSILON : Q := 0.05.

Definition vertOverlap (obj other : CanvasObject) : Q :=
  JS.Math_max 0
    (JS.Math_min (y obj + depth obj) (y other + depth other)
     - JS.Math_max (y obj) (y other) + EPSILON).

Definition horzOverlap (obj other : CanvasObject) : Q :=
  JS.Math_max 0
    (JS.Math_min (x obj + width obj) (x other + width other)
     - JS.Math_max (x obj) (x other) + EPSILON).

Definition set_right (n : Nearest) (gap : Q) (o : CanvasObject) : Nearest :=
  mkNearest (closestLeft n) (Some o) (closestTop n) (closestBottom n)
            (distLeft n) (Some gap) (distTop n) (distBottom n).
Definition set_left (n : Nearest) (gap : Q) (o : CanvasObject) : Nearest :=
  mkNearest (Some o) (closestRight n) (closestTop n) (closestBottom n)
            (Some gap) (distRight n) (distTop n) (distBottom n).
Definition set_bottom (n : Nearest) (gap : Q) (o : CanvasObject) : Nearest :=
  mkNearest (closestLeft n) (closestRight n) (closestTop n) (Some o)
            (distLeft n) (distRight n) (distTop n) (Some gap).
Definition set_top (n : Nearest) (gap : Q) (o : CanvasObject) : Nearest :=
  mkNearest (closestLeft n) (closestRight n) (Some o) (closestBottom n)
            (distLeft n) (distRight n) (Some gap) (distBottom n).

(** Body of [otherObjects.forEach(other => ...)]. *)
Definition visit_other (obj : CanvasObject) (n : Nearest)
    (other : CanvasObject) : Nearest :=
  let n :=
    if JS.Qlt_bool 0 (vertOverlap obj other) then
      let n :=
        if Qle_bool (x obj + width obj) (x other) then
          let gap := x other - (x obj + width obj) in
          if lt_dist gap (distRight n) then set_right n gap other else n
        else n in
      if Qle_bool (x other + width other) (x obj) then
        let gap := x obj - (x other + width other) in
        if lt_dist gap (distLeft n) then set_left n gap other else n
      else n
    else n in
  if JS.Qlt_bool 0 (horzOverlap obj other) then
    let n :=
      if Qle_bool (y obj + depth obj) (y other) then
        let gap := y other - (y obj + depth obj) in
        if lt_dist gap (distBottom n) then set_bottom n gap other else n
      else n in
    if Qle_bool (y other + depth other) (y obj) then
      let gap := y obj - (y other + depth other) in
      if lt_dist gap (distTop n) then set_top n gap other else n
    else n
  else n.

Definition nearestNeighbors (objects : list CanvasObject)
    (obj : CanvasObject) : Nearest :=
  let otherObjects :=
    filter (fun o => negb (String.eqb (id o) (id obj))) objects in
  fold_left (visit_other obj) otherObjects nearest_init.

(** *** Drawing calls

    The trace of a render lists, in order, the calls made on the 2D context
    that build or paint geometry and text.  Assignments to style properties
    ([fillStyle], [font], [lineWidth], shadows, [setLineDash]) paint nothing
    and are not recorded. *)

Inductive Text :=
| Lit (s : string)
| Raw (s : string)          (* an object's own label *)
| Meters (q : Q)            (* `${q}m` *)
| Fixed2m (q : Q)           (* `${q.toFixed(2)}m` *)
| HeightTag (q : Q)         (* `H:${q}m` *)
| ElevTag (q : Q).          (* `E:${q}m` *)

Inductive Call :=
| fillRect (x y w h : Q)
| strokeRect (x y w h : Q)
| beginPath
| moveTo (x y : Q)
| lineTo (x y : Q)
| arc (cx cy radius : Q)    (* always a full circle, 0 to 2*PI *)
| stroke
| fill
| fillText (t : Text) (x y : Q)
| save
| restore
| translate (x y : Q)
| rotateQuarterBack.        (* rotate(-Math.PI/2) *)

(** Stable sort by a numeric key, as [Array.prototype.sort] with the
    comparator [(a, b) => key(a) - key(b)]. *)
Fixpoint insert_by {A : Type} (key : A -> Q) (a : A) (l : list A) : list A :=
  match l with
  | [] => [a]
  | b :: l' =>
      if JS.Qlt_bool (key a) (key b) then a :: b :: l'
      else b :: insert_by key a l'
  end.

Definition sort_by {A : Type} (key : A -> Q) (l : list A) : list A :=
  fold_left (fun acc a => insert_by key a acc) l [].

Definition isMezzanine (o : CanvasObject) : bool :=
  match type o with OfIndustrial MEZZANINE => true | _ => false end.
Definition isCovering (o : CanvasObject) : bool :=
  match type o with OfSports COVERING => true | _ => false end.
Definition isPost (o : CanvasObject) : bool :=
  match type o with OfSports POST => true | _ => false end.

Section Scene2D.

(** [ctx.measureText(text).width] under the dimension-label font; supplied
    by the browser. *)
Variable textWidth : Text -> Q.

Variable data : CanvasData.
Variable dragTarget : option DragTarget.

Section WithMetrics.

Variable m : Metrics.

Definition drawDimensionLine (x1 y1 x2 y2 : Q) (text : Text) : list Call :=
  let tm := textWidth text in
  let cx := (x1 + x2) / 2 in
  let cy := (y1 + y2) / 2 in
  [ beginPath; moveTo x1 y1; lineTo x2 y2; stroke;
    fillRect (cx - tm / 2 - 4) (cy - 8) (tm + 8) 16;
    fillText text cx cy ].

Definition drawProjection (x1 y1 x2 y2 : Q) : list Call :=
  [ beginPath; moveTo x1 y1; lineTo x2 y2; stroke ].

Definition drawFixture (xMeters yMeters : Q) : list Call :=
  let cx := getX m xMeters in
  let cy := getY m yMeters in
  let radius := JS.Math_max 3 (JS.Math_min 8 (3 * (scale m / 1))) in
  [ beginPath; arc cx cy radius; fill ].

(** Floor, grid and walls. *)
Definition floor_calls : list Call :=
  match mode_of data with
  | SPORTS =>
      [ fillRect (originX m) (originY m) (drawWidth m) (drawLength m);
        strokeRect (originX m) (originY m) (drawWidth m) (drawLength m);
        beginPath;
        moveTo (originX m + drawWidth m / 2) (originY m);
        lineTo (originX m + drawWidth m / 2) (originY m + drawLength m);
        stroke;
        beginPath;
        arc (originX m + drawWidth m / 2) (originY m + drawLength m / 2)
            (toPx m 2);
        stroke ]
  | INDUSTRIAL =>
      let gridStep : Z := if JS.Qlt_bool (scale m) 5 then 10%Z else 5%Z in
      [ fillRect (originX m) (originY m) (drawWidth m) (drawLength m);
        beginPath ]
      ++ flat_map (fun i =>
             [ moveTo (getX m (inject_Z i)) (getY m 0);
               lineTo (getX m (inject_Z i)) (getY m (dataLength data)) ])
           (JS.for_loop gridStep gridStep (dataWidth data))
      ++ flat_map (fun i =>
             [ moveTo (getX m 0) (getY m (inject_Z i));
               lineTo (getX m (dataWidth data)) (getY m (inject_Z i)) ])
           (JS.for_loop gridStep gridStep (dataLength data))
      ++ [ stroke;
           strokeRect (originX m) (originY m) (drawWidth m) (drawLength m) ]
  end.

Definition GLOBAL_DIM_OFFSET : Q := 30.

(** Global dimensions. *)
Definition global_dimension_calls : list Call :=
  match mode_of data with
  | SPORTS =>
      [ fillText (Meters (dataWidth data))
                 (originX m + drawWidth m / 2) (originY m + 40);
        save;
        translate (originX m + 40) (originY m + drawLength m / 2);
        rotateQuarterBack;
        fillText (Meters (dataLength data)) 0 0;
        restore ]
  | INDUSTRIAL =>
      [ beginPath;
        moveTo (originX m) (originY m - GLOBAL_DIM_OFFSET);
        lineTo (originX m + drawWidth m) (originY m - GLOBAL_DIM_OFFSET);
        stroke;
        fillText (Meters (dataWidth data))
                 (originX m + drawWidth m / 2)
                 (originY m - GLOBAL_DIM_OFFSET - 5);
        beginPath;
        moveTo (originX m - GLOBAL_DIM_OFFSET) (originY m);
        lineTo (originX m - GLOBAL_DIM_OFFSET) (originY m + drawLength m);
        stroke;
        save;
        translate (originX m - GLOBAL_DIM_OFFSET - 10)
                  (originY m + drawLength m / 2);
        rotateQuarterBack;
        fillText (Meters (dataLength data)) 0 0;
        restore ]
  end.

(** Lighting (industrial only). *)
Definition lighting_calls : list Call :=
  match data with
  | SportsData _ => []
  | IndustrialData d =>
      if isActive (lighting d) then
        let l := lighting d in
        let isLongitudinal := Current.isLongitudinal l in
        let axisLimit := Current.axisLimit d in
        let profilePositions := Current.sceneProfilePositions d in
        let profileLength :=
          if isLongitudinal then pLength d else pWidth d in
        [ beginPath ]
        ++ flat_map (fun pos =>
               if JS.Qlt_bool axisLimit pos then []
               else if isLongitudinal then
                 [ moveTo (getX m pos) (getY m 0);
                   lineTo (getX m pos) (getY m (pLength d)) ]
               else
                 [ moveTo (getX m 0) (getY m pos);
                   lineTo (getX m (pWidth d)) (getY m pos) ])
             profilePositions
        ++ [ stroke ]
        ++ (if JS.Qlt_bool 0 (fixturesPerProfile l)
               && negb (Nat.eqb (List.length profilePositions) 0) then
              let margin := 1 in
              let usableLen := profileLength - (margin * 2) in
              flat_map (fun pos =>
                  let step :=
                    if JS.Qlt_bool 1 (fixturesPerProfile l)
                    then usableLen / (fixturesPerProfile l - 1)
                    else 0 in
                  flat_map (fun i =>
                      let distAlong :=
                        if Qeq_bool (fixturesPerProfile l) 1
                        then profileLength / 2
                        else margin + (inject_Z i * step) in
                      if isLongitudinal then drawFixture pos distAlong
                      else drawFixture distAlong pos)
                    (JS.for_loop 0 1 (fixturesPerProfile l)))
                profilePositions
            else [])
      else []
  end.

(** One placed object: shape, labels and, for the dragged industrial
    object, its wall and neighbour dimensions; for a sports covering, its
    center dimensions.  Body of [sortedForDrawing.forEach]. *)
Definition object_calls (objects : list CanvasObject)
    (obj : CanvasObject) : list Call :=
  let isDragged :=
    match dragTarget with
    | Some t => String.eqb (dragId t) (id obj)
    | None => false
    end in
  let pxX := getX m (x obj) in
  let pxY := getY m (y obj) in
  let pxW := toPx m (width obj) in
  let pxH := toPx m (depth obj) in
  (if isPost obj then
     let radius := pxW / 2 in
     let cx := pxX + radius in
     let cy := pxY + radius in
     [ beginPath; arc cx cy radius; fill; stroke ]
   else
     [ fillRect pxX pxY pxW pxH; strokeRect pxX pxY pxW pxH ])
  ++
  (let fontSize := JS.Math_max 10 (JS.Math_min 16 (11 * (scale m / 1))) in
   [ fillText (Raw (label obj)) (pxX + pxW / 2) (pxY + pxH / 2) ]
   ++
   (if isPost obj || JS.truthy (height obj) || JS.truthy (elevation obj)
    then
      let hText :=
        if isPost obj then HeightTag (height obj)
        else if JS.truthy (elevation obj) then ElevTag (elevation obj)
        else HeightTag (height obj) in
      if isPost obj
      then [ fillText hText (pxX + pxW / 2) (pxY + pxH + fontSize) ]
      else [ fillText hText (pxX + pxW / 2) (pxY + pxH / 2 + fontSize) ]
    else []))
  ++
  (match mode_of data with
   | INDUSTRIAL =>
       if isDragged then
         let OFFSET := 35 in
         let wallDimY := pxY + pxH + OFFSET in
         let wallDimX := pxX + pxW + OFFSET in
         let n := nearestNeighbors objects obj in
         let cy := pxY + pxH / 2 in
         let cx := pxX + pxW / 2 in
         drawProjection (originX m) (pxY + pxH) (originX m) wallDimY
         ++ drawProjection pxX (pxY + pxH) pxX wallDimY
         ++ drawDimensionLine (originX m) wallDimY pxX wallDimY
              (Fixed2m (x obj))
         ++ drawProjection (pxX + pxW) (originY m) wallDimX (originY m)
         ++ drawProjection (pxX + pxW) pxY wallDimX pxY
         ++ drawDimensionLine wallDimX (originY m) wallDimX pxY
              (Fixed2m (y obj))
         ++ (match closestRight n, distRight n with
             | Some c, Some d =>
                 let targetX := getX m (x c) in
                 drawDimensionLine (pxX + pxW) cy targetX cy (Fixed2m d)
             | _, _ => []
             end)
         ++ (match closestLeft n, distLeft n with
             | Some c, Some d =>
                 let targetX := getX m (x c + width c) in
                 drawDimensionLine pxX cy targetX cy (Fixed2m d)
             | _, _ => []
             end)
         ++ (match closestBottom n, distBottom n with
             | Some c, Some d =>
                 let targetY := getY m (y c) in
                 drawDimensionLine cx (pxY + pxH) cx targetY (Fixed2m d)
             | _, _ => []
             end)
         ++ (match closestTop n, distTop n with
             | Some c, Some d =>
                 let targetY := getY m (y c + depth c) in
                 drawDimensionLine cx pxY cx targetY (Fixed2m d)
             | _, _ => []
             end)
       else []
   | SPORTS =>
       if isCovering obj then
         let cx := pxX + pxW / 2 in
         let cy := pxY + pxH / 2 in
         let centerX := x obj + width obj / 2 in
         let centerY := y obj + depth obj / 2 in
         (if JS.Qlt_bool centerX (dataWidth data / 2)
          then drawDimensionLine (originX m) cy cx cy (Fixed2m centerX)
          else drawDimensionLine cx cy (originX m + drawWidth m) cy
                 (Fixed2m (dataWidth data - centerX)))
         ++
         (if JS.Qlt_bool centerY (dataLength data / 2)
          then drawDimensionLine cx (originY m) cx cy (Fixed2m centerY)
          else drawDimensionLine cx cy cx (originY m + drawLength m)
                 (Fixed2m (dataLength data - centerY)))
       else []
   end).

(** Placed objects, in ascending order of elevation. *)
Definition objects_calls : list Call :=
  let objects := getObjects data in
  let sortedForDrawing :=
    sort_by (fun o => JS.or_default (elevation o) 0) objects in
  flat_map (object_calls objects) sortedForDrawing.

(** State carried by [allPosts.forEach]: [prevAnchorX], [offsetLevel],
    the running [index] and the calls made so far. *)
Definition visit_post
    (st : Q * Z * nat * list Call) (obj : CanvasObject)
    : Q * Z * nat * list Call :=
  let '(prevAnchorX, offsetLevel, index, calls) := st in
  let centerX := x obj + width obj / 2 in
  let centerY := y obj + depth obj / 2 in
  let pxX := getX m (x obj) in
  let pxY := getY m (y obj) in
  let pxW := toPx m (width obj) in
  let pxH := toPx m (depth obj) in
  let cx := pxX + pxW / 2 in
  let cy := pxY + pxH / 2 in
  let distFromPrev := centerX - prevAnchorX in
  let offsetLevel :=
    if JS.Qlt_bool distFromPrev 2 then (offsetLevel + 1)%Z else 0%Z in
  let verticalShiftMeters := inject_Z offsetLevel * 0.5 in
  let verticalShiftPx := toPx m verticalShiftMeters in
  let shiftDir :=
    if JS.Qlt_bool centerY (dataLength data / 2) then (-1) else 1 in
  let finalShift := verticalShiftPx * shiftDir in
  let lineY := cy + finalShift in
  let prevPxX := getX m prevAnchorX in
  let here :=
    drawDimensionLine prevPxX lineY cx lineY (Fixed2m distFromPrev)
    ++ (if (0 <? offsetLevel)%Z
        then [ beginPath; moveTo cx cy; lineTo cx lineY; stroke ]
        else [])
    ++ (if Nat.eqb index 0 then
          if JS.Qlt_bool centerY (dataLength data / 2)
          then drawDimensionLine cx (originY m) cx cy (Fixed2m centerY)
          else drawDimensionLine cx cy cx (originY m + drawLength m)
                 (Fixed2m (dataLength data - centerY))
        else [])
    ++ (let midFieldX := dataWidth data / 2 in
        if JS.Qlt_bool midFieldX centerX then
          let distToRight := dataWidth data - centerX in
          drawDimensionLine cx lineY (originX m + drawWidth m) lineY
            (Fixed2m distToRight)
        else []) in
  (centerX, offsetLevel, S index, calls ++ here).

(** Chain dimensions of the posts (sports only). *)
Definition post_dimension_calls : list Call :=
  match data with
  | IndustrialData _ => []
  | SportsData d =>
      let allPosts :=
        sort_by (fun o => x o)
          (filter isPost (map (retag OfSports) (objects d))) in
      snd (fold_left visit_post allPosts (0, 0%Z, O, []))
  end.

End WithMetrics.

(** [drawScene2D]: the calls made on the context and the metrics returned. *)
Definition drawScene2D (width height : Q) (currentTransform : Transform)
    : list Call * Metrics :=
  let m := sceneMetrics data width height currentTransform in
  let background := [ fillRect 0 0 width height ] in
  if Qle_bool (dataWidth data) 0 || Qle_bool (dataLength data) 0 then
    (background
     ++ [ fillText (Lit "Defina as dimensões") (width / 2) (height / 2) ],
     m)
  else
    (background
     ++ floor_calls m
     ++ global_dimension_calls m
     ++ lighting_calls m
     ++ objects_calls m
     ++ post_dimension_calls m,
     m).

End Scene2D.

(** *** Interaction controller: the mouse handlers *)

(** What the handlers read of the page: the bounding rectangle of the
    canvas element ([getBoundingClientRect()]) and the fields of the
    [React.MouseEvent]. *)
Module Dom.

Record Rect := mkRect {
  left : Q;
  top : Q;
  width : Q;
  height : Q
}.

Record PointerEvent := mkPointer {
  clientX : Q;
  clientY : Q;
  button : Z;
  altKey : bool
}.

End Dom.

Module Canvas.

(** Props of the component.  The [width] and [height] props are the size
    of the canvas element, read back as [canvas.width], [canvas.height];
    [onRackMove] records whether the callback was passed. *)
Record Props := mkProps {
  data : CanvasData;
  canvasWidth : Q;
  canvasHeight : Q;
  isInteractive : bool;
  viewMode : ViewMode;
  onRackMove : bool
}.

Record State := mkState {
  dragTarget : option DragTarget;
  hoveredBlockId : option string;
  transform : Transform;
  isPanning : bool;
  lastMousePos : Q * Q
}.

Definition initial : State :=
  mkState None None (mkTransform 1 0 0) false (0, 0).

(** A mouse event as a handler sees it once it has located the pointer on
    the canvas: [mouseX], [mouseY] are the canvas coordinates the handler
    derives from [clientX], [clientY] and the bounding rectangle of the
    canvas ([getCanvasCoordinates] below). *)
Record MouseEvent := mkMouse {
  clientX : Q;
  clientY : Q;
  mouseX : Q;
  mouseY : Q;
  button : Z;
  altKey : bool
}.

(** [getCanvasCoordinates]: the pointer of a DOM event in canvas
    coordinates, corrected for a canvas that CSS displays at another size
    than its own.  A bounding rectangle of width or height zero (a canvas
    that is not displayed, which receives no mouse event) has no
    coordinates here. *)
Definition getCanvasCoordinates (p : Props) (rect : Dom.Rect)
    (ev : Dom.PointerEvent) : option (Q * Q) :=
  match JS.div (canvasWidth p) (Dom.width rect),
        JS.div (canvasHeight p) (Dom.height rect) with
  | Some scaleX, Some scaleY =>
      Some ((Dom.clientX ev - Dom.left rect) * scaleX,
            (Dom.clientY ev - Dom.top rect) * scaleY)
  | _, _ => None
  end.

(** The DOM event as the handlers of this canvas see it. *)
Definition event_of (p : Props) (rect : Dom.Rect) (ev : Dom.PointerEvent)
    : option MouseEvent :=
  match getCanvasCoordinates p rect ev with
  | Some (mx, my) =>
      Some (mkMouse (Dom.clientX ev) (Dom.clientY ev) mx my
                    (Dom.button ev) (Dom.altKey ev))
  | None => None
  end.

(** [getMetrics]; the canvas element exists whenever one of its handlers
    runs, so the [null] result is left out. *)
Definition getMetrics (p : Props) (st : State) : Metrics :=
  let availableWidth := canvasWidth p - padding * 2 in
  let availableHeight := canvasHeight p - padding * 2 in
  let baseScaleX := availableWidth / JS.or_default (dataWidth (data p)) 1 in
  let baseScaleY := availableHeight / JS.or_default (dataLength (data p)) 1 in
  let baseScale := JS.Math_min baseScaleX baseScaleY in
  let finalScale := baseScale * tScale (transform st) in
  let drawWidth := dataWidth (data p) * finalScale in
  let drawLength := dataLength (data p) * finalScale in
  let originX := ((canvasWidth p - drawWidth) / 2) + tX (transform st) in
  let originY := ((canvasHeight p - drawLength) / 2) + tY (transform st) in
  mkMetrics originX originY finalScale drawWidth drawLength.

Definition HIT_PADDING : Q := 0.

(** The predicate of [find] in the hit test. *)
Definition hit (metrics : Metrics) (mouseX mouseY : Q)
    (obj : CanvasObject) : bool :=
  let pxX := originX metrics + (x obj * scale metrics) in
  let pxY := originY metrics + (y obj * scale metrics) in
  let pxW := width obj * scale metrics in
  let pxH := depth obj * scale metrics in
  let hitX := pxX - HIT_PADDING in
  let hitY := pxY - HIT_PADDING in
  let hitW := pxW + (HIT_PADDING * 2) in
  let hitH := pxH + (HIT_PADDING * 2) in
  Qle_bool hitX mouseX && Qle_bool mouseX (hitX + hitW)
  && Qle_bool hitY mouseY && Qle_bool mouseY (hitY + hitH).

Definition handleMouseDown (p : Props) (st : State) (e : MouseEvent)
    : State :=
  match viewMode p with
  | View3D => st
  | View2D =>
      if (button e =? 1)%Z || (button e =? 2)%Z || altKey e then
        mkState (dragTarget st) (hoveredBlockId st) (transform st)
                true (clientX e, clientY e)
      else if negb (isInteractive p) then st
      else
        let metrics := getMetrics p st in
        let objects := getObjects (data p) in
        match find (hit metrics (mouseX e) (mouseY e)) (rev objects) with
        | Some clickedObj =>
            let rackPxX := originX metrics + (x clickedObj * scale metrics) in
            let rackPxY := originY metrics + (y clickedObj * scale metrics) in
            mkState
              (Some (mkDrag (id clickedObj)
                            (mouseX e - rackPxX) (mouseY e - rackPxY)))
              (hoveredBlockId st) (transform st)
              (isPanning st) (lastMousePos st)
        | None => st
        end
  end.

Definition SNAP_INCREMENT : Q := 0.5.

(** Pixels to meters, [(raw - origin) / scale] in [handleMouseMove]: the
    inverse of [getX] and [getY]. *)
Definition toMeters (raw origin scale : Q) : option Q :=
  JS.div (raw - origin) scale.

(** The sign bit of [finalScale] as [getMetrics] computes it; when
    [finalScale] is zero it tells [-0] from [+0], hence [-Infinity] from
    [Infinity] in a division by it.  By IEEE 754: a difference that is zero
    is [+0]; the sign of a quotient and of a product is the product of the
    signs; [Math.min] takes [-0] for smaller than [+0].  The props and the
    state hold no [-0]. *)
Definition scaleSign (p : Props) (st : State) : bool :=
  let availableWidth := canvasWidth p - padding * 2 in
  let availableHeight := canvasHeight p - padding * 2 in
  let divisorX := JS.or_default (dataWidth (data p)) 1 in
  let divisorY := JS.or_default (dataLength (data p)) 1 in
  let baseScaleX := availableWidth / divisorX in
  let baseScaleY := availableHeight / divisorY in
  let signX := JS.signbit baseScaleX (JS.Qlt_bool divisorX 0) in
  let signY := JS.signbit baseScaleY (JS.Qlt_bool divisorY 0) in
  let signBase :=
    if JS.Qlt_bool baseScaleX baseScaleY then signX
    else if JS.Qlt_bool baseScaleY baseScaleX then signY
    else signX || signY in
  xorb signBase (JS.Qlt_bool (tScale (transform st)) 0).

(** What one [handleMouseMove] does.  [Dragged] and [DragNotFinite] are
    the two ways through the drag branch: with [metrics.scale] other than
    zero the callback gets rationals; with [metrics.scale] zero, which the
    source does not test for, it gets what snapping and clamping make of an
    infinity or of [NaN]. *)
Inductive MoveOutcome :=
| Untouched                                  (* returned at once *)
| Panned (st' : State)
| Dragged (call : option (string * Q * Q))   (* the [onRackMove] call, if made *)
| DragNotFinite (call : option (string * JS.Num * JS.Num))
                                             (* the same, at a zero scale *)
| Hovered (st' : State).

(** The [onRackMove] call a mouse move made, if it made one. *)
Definition reported (o : MoveOutcome) : option (string * JS.Num * JS.Num) :=
  match o with
  | Dragged (Some (id0, newX, newY)) => Some (id0, JS.Fin newX, JS.Fin newY)
  | DragNotFinite call => call
  | _ => None
  end.

Definition handleMouseMove (p : Props) (st : State) (e : MouseEvent)
    : MoveOutcome :=
  match viewMode p with
  | View3D => Untouched
  | View2D =>
      if isPanning st then
        let dx := clientX e - fst (lastMousePos st) in
        let dy := clientY e - snd (lastMousePos st) in
        let prev := transform st in
        Panned (mkState (dragTarget st) (hoveredBlockId st)
                  (mkTransform (tScale prev) (tX prev + dx) (tY prev + dy))
                  (isPanning st) (clientX e, clientY e))
      else if negb (isInteractive p) then Untouched
      else
        let metrics := getMetrics p st in
        match dragTarget st, onRackMove p with
        | Some target, true =>
            let rawX := mouseX e - offsetX target in
            let rawY := mouseY e - offsetY target in
            match toMeters rawX (originX metrics) (scale metrics),
                  toMeters rawY (originY metrics) (scale metrics) with
            | Some xMeters, Some yMeters =>
                let xMeters :=
                  inject_Z (JS.Math_round (xMeters / SNAP_INCREMENT))
                  * SNAP_INCREMENT in
                let yMeters :=
                  inject_Z (JS.Math_round (yMeters / SNAP_INCREMENT))
                  * SNAP_INCREMENT in
                let objects := getObjects (data p) in
                match find (fun r => String.eqb (id r) (dragId target))
                           objects with
                | Some obj =>
                    match mode_of (data p) with
                    | SPORTS =>
                        let xMeters :=
                          JS.Math_max (-50)
                            (JS.Math_min xMeters (dataWidth (data p) + 50)) in
                        let yMeters :=
                          JS.Math_max (-50)
                            (JS.Math_min yMeters (dataLength (data p) + 50)) in
                        Dragged (Some (dragId target, xMeters, yMeters))
                    | INDUSTRIAL =>
                        let xMeters :=
                          JS.Math_max 0
                            (JS.Math_min xMeters
                               (dataWidth (data p) - width obj)) in
                        let yMeters :=
                          JS.Math_max 0
                            (JS.Math_min yMeters
                               (dataLength (data p) - depth obj)) in
                        Dragged (Some (dragId target, xMeters, yMeters))
                    end
                | None => Dragged None
                end
            | _, _ =>
                (* [metrics.scale] is zero *)
                let negzero := scaleSign p st in
                let xMeters :=
                  JS.div_by_zero (rawX - originX metrics) negzero in
                let yMeters :=
                  JS.div_by_zero (rawY - originY metrics) negzero in
                let xMeters := JS.snap_num SNAP_INCREMENT xMeters in
                let yMeters := JS.snap_num SNAP_INCREMENT yMeters in
                let objects := getObjects (data p) in
                match find (fun r => String.eqb (id r) (dragId target))
                           objects with
                | Some obj =>
                    match mode_of (data p) with
                    | SPORTS =>
                        let xMeters :=
                          JS.Math_max_num (-50)
                            (JS.Math_min_num xMeters
                               (dataWidth (data p) + 50)) in
                        let yMeters :=
                          JS.Math_max_num (-50)
                            (JS.Math_min_num yMeters
                               (dataLength (data p) + 50)) in
                        DragNotFinite (Some (dragId target, xMeters, yMeters))
                    | INDUSTRIAL =>
                        let xMeters :=
                          JS.Math_max_num 0
                            (JS.Math_min_num xMeters
                               (dataWidth (data p) - width obj)) in
                        let yMeters :=
                          JS.Math_max_num 0
                            (JS.Math_min_num yMeters
                               (dataLength (data p) - depth obj)) in
                        DragNotFinite (Some (dragId target, xMeters, yMeters))
                    end
                | None => DragNotFinite None
                end
            end
        | _, _ =>
            let objects := getObjects (data p) in
            let hovered :=
              find (hit metrics (mouseX e) (mouseY e)) (rev objects) in
            Hovered (mkState (dragTarget st)
                       (match hovered with
                        | Some o => Some (id o)
                        | None => None
                        end)
                       (transform st) (isPanning st) (lastMousePos st))
        end
  end.

Definition handleMouseUp (st : State) : State :=
  mkState None (hoveredBlockId st) (transform st) false (lastMousePos st).

Definition handleWheel (p : Props) (st : State) (deltaY : Q) : State :=
  match viewMode p with
  | View3D => st
  | View2D =>
      let delta := - deltaY in
      let zoomFactor := 1.1 in
      let newScale := tScale (transform st) in
      let newScale :=
        if JS.Qlt_bool 0 delta then newScale * zoomFactor
        else newScale / zoomFactor in
      let newScale := JS.Math_min (JS.Math_max 0.5 newScale) 10 in
      mkState (dragTarget st) (hoveredBlockId st)
              (mkTransform newScale (tX (transform st)) (tY (transform st)))
              (isPanning st) (lastMousePos st)
  end.

(** The three buttons under the 2D view. *)
Definition set_transform (st : State) (t : Transform) : State :=
  mkState (dragTarget st) (hoveredBlockId st) t (isPanning st)
          (lastMousePos st).

Definition zoomIn (st : State) : State :=
  let prev := transform st in
  set_transform st
    (mkTransform (JS.Math_min (tScale prev * 1.2) 10) (tX prev) (tY prev)).

Definition zoomOut (st : State) : State :=
  let prev := transform st in
  set_transform st
    (mkTransform (JS.Math_max (tScale prev / 1.2) 0.5) (tX prev) (tY prev)).

Definition resetView (st : State) : State :=
  set_transform st (mkTransform 1 0 0).

(** What the user does to the view. *)
Inductive ViewAction :=
| MouseDown (e : MouseEvent)
| MouseMove (e : MouseEvent)
| MouseUp
| Wheel (deltaY : Q)
| ZoomIn
| ZoomOut
| ResetView.

Definition view_step (p : Props) (st : State) (a : ViewAction) : State :=
  match a with
  | MouseDown e => handleMouseDown p st e
  | MouseMove e =>
      match handleMouseMove p st e with
      | Panned st' | Hovered st' => st'
      | Untouched | Dragged _ | DragNotFinite _ => st
      end
  | MouseUp => handleMouseUp st
  | Wheel deltaY => handleWheel p st deltaY
  | ZoomIn => zoomIn st
  | ZoomOut => zoomOut st
  | ResetView => resetView st
  end.

End Canvas.

(** ** The industrial wizard (src/components/IndustrialApp.tsx)

    The owner of the [ProjectData], hence of the collection of placed
    objects.  Only the state and the handlers that write it are modelled. *)

Module IndustrialApp.

Record RackDims := mkRackDims { rw : Q; rd : Q; rh : Q }.      (* {w, d, h} *)
Record MezzDims := mkMezzDims { mw : Q; md : Q; mel : Q }.     (* {w, d, el} *)

Record State := mkState {
  currentStep : nat;
  data : ProjectData;
  summaryViewMode : ViewMode;
  inputMode : ObjectType;
  newRackDims : RackDims;
  newMezzDims : MezzDims
}.

Definition initial : State :=
  mkState 1 DEFAULT_PROJECT View2D RACK
          (mkRackDims 1.2 1.0 2.0) (mkMezzDims 5.0 5.0 3.0).

Definition totalSteps : nat := 5.

Definition set_data (s : State) (d : ProjectData) : State :=
  mkState (currentStep s) d (summaryViewMode s) (inputMode s)
          (newRackDims s) (newMezzDims s).

Definition set_racks (d : ProjectData) (active : bool)
    (rs : list RackBlock) : ProjectData :=
  mkProject (projectName d) (pWidth d) (pLength d) (ceilingHeight d)
            (lighting d) (mkStorage active rs) (luxRequired d)
            (observations d).

Definition set_dims (d : ProjectData) (w l : Q) : ProjectData :=
  mkProject (projectName d) w l (ceilingHeight d)
            (lighting d) (storage d) (luxRequired d) (observations d).

Definition nextStep (s : State) : State :=
  let s :=
    if Nat.eqb (currentStep s) 1 && JS.Qlt_bool (pWidth (data s)) (pLength (data s))
    then set_data s (set_dims (data s) (pLength (data s)) (pWidth (data s)))
    else s in
  if Nat.ltb (currentStep s) totalSteps
  then mkState (currentStep s + 1) (data s) (summaryViewMode s)
               (inputMode s) (newRackDims s) (newMezzDims s)
  else s.

Definition prevStep (s : State) : State :=
  if Nat.ltb 1 (currentStep s)
  then mkState (currentStep s - 1) (data s) (summaryViewMode s)
               (inputMode s) (newRackDims s) (newMezzDims s)
  else s.

Definition handleNewProject (s : State) : State := initial.

Definition nat_to_string (n : nat) : string :=
  NilEmpty.string_of_uint (Nat.to_uint n).

Definition is_type (t : ObjectType) (r : RackBlock) : bool :=
  match t, type r with
  | RACK, RACK | MEZZANINE, MEZZANINE => true
  | _, _ => false
  end.

(** [handleAddObject]; [fresh] stands for the identifier drawn from
    [Math.random()]. *)
Definition handleAddObject (fresh : string) (s : State) : State :=
  let isMezzanine :=
    match inputMode s with MEZZANINE => true | RACK => false end in
  let w := if isMezzanine then mw (newMezzDims s) else rw (newRackDims s) in
  let d := if isMezzanine then md (newMezzDims s) else rd (newRackDims s) in
  let h := if isMezzanine then 0.2 else rh (newRackDims s) in
  let el := if isMezzanine then mel (newMezzDims s) else 0 in
  if Qle_bool w 0 || Qle_bool d 0 then s
  else
    let rs := racks (storage (data s)) in
    let newBlock : RackBlock :=
      mkPlaced fresh (inputMode s) 1 1 w d h el
        (if isMezzanine
         then "M" ++ nat_to_string (List.length (filter (is_type MEZZANINE) rs) + 1)
         else "B" ++ nat_to_string (List.length (filter (is_type RACK) rs) + 1))
    in
    set_data s (set_racks (data s) true (rs ++ [newBlock])).

Definition handleRackMove (id0 : string) (x0 y0 : Q) (s : State) : State :=
  let prev := data s in
  set_data s
    (set_racks prev (storageActive (storage prev))
       (map (fun r : RackBlock =>
               if String.eqb (id r) id0
               then mkPlaced (id r) (type r) x0 y0 (width r) (depth r)
                             (height r) (elevation r) (label r)
               else r)
            (racks (storage prev)))).

Definition removeRack (id0 : string) (s : State) : State :=
  let prev := data s in
  set_data s
    (set_racks prev (Nat.ltb 1 (List.length (racks (storage prev))))
       (filter (fun r : RackBlock => negb (String.eqb (id r) id0))
               (racks (storage prev)))).

Definition updateRackLabel (id0 newLabel : string) (s : State) : State :=
  let prev := data s in
  set_data s
    (set_racks prev (storageActive (storage prev))
       (map (fun r : RackBlock =>
               if String.eqb (id r) id0
               then mkPlaced (id r) (type r) (x r) (y r) (width r) (depth r)
                             (height r) (elevation r) newLabel
               else r)
            (racks (storage prev)))).

Definition resetStorage (s : State) : State :=
  set_data s (set_racks (data s) false []).

Definition handleSwapDims (s : State) : State :=
  match inputMode s with
  | MEZZANINE =>
      mkState (currentStep s) (data s) (summaryViewMode s) (inputMode s)
              (newRackDims s)
              (mkMezzDims (md (newMezzDims s)) (mw (newMezzDims s))
                          (mel (newMezzDims s)))
  | RACK =>
      mkState (currentStep s) (data s) (summaryViewMode s) (inputMode s)
              (mkRackDims (rd (newRackDims s)) (rw (newRackDims s))
                          (rh (newRackDims s)))
              (newMezzDims s)
  end.

Definition handleSwapStep1 (s : State) : State :=
  set_data s (set_dims (data s) (pLength (data s)) (pWidth (data s))).

(** The form fields, written by the [onChange] handlers of the steps. *)
Inductive Field :=
| FProjectName (v : string)
| FWidth (v : Q)
| FLength (v : Q)
| FCeilingHeight (v : Q)
| FLighting (l : LightingConfig)
| FLuxRequired (v : Q)
| FObservations (v : string)
| FInputMode (t : ObjectType)
| FDimW (v : Q)
| FDimD (v : Q)
| FDimH (v : Q)
| FSummaryViewMode (v : ViewMode).

Definition setField (f : Field) (s : State) : State :=
  let d := data s in
  match f with
  | FProjectName v =>
      set_data s (mkProject v (pWidth d) (pLength d) (ceilingHeight d)
                    (lighting d) (storage d) (luxRequired d) (observations d))
  | FWidth v => set_data s (set_dims d v (pLength d))
  | FLength v => set_data s (set_dims d (pWidth d) v)
  | FCeilingHeight v =>
      set_data s (mkProject (projectName d) (pWidth d) (pLength d) v
                    (lighting d) (storage d) (luxRequired d) (observations d))
  | FLighting l =>
      set_data s (mkProject (projectName d) (pWidth d) (pLength d)
                    (ceilingHeight d) l (storage d) (luxRequired d)
                    (observations d))
  | FLuxRequired v =>
      set_data s (mkProject (projectName d) (pWidth d) (pLength d)
                    (ceilingHeight d) (lighting d) (storage d) v
                    (observations d))
  | FObservations v =>
      set_data s (mkProject (projectName d) (pWidth d) (pLength d)
                    (ceilingHeight d) (lighting d) (storage d)
                    (luxRequired d) v)
  | FSummaryViewMode v =>
      mkState (currentStep s) d v (inputMode s)
              (newRackDims s) (newMezzDims s)
  | FInputMode t =>
      mkState (currentStep s) d (summaryViewMode s) t
              (newRackDims s) (newMezzDims s)
  | FDimW v =>
      match inputMode s with
      | MEZZANINE =>
          mkState (currentStep s) d (summaryViewMode s) (inputMode s)
                  (newRackDims s)
                  (mkMezzDims v (md (newMezzDims s)) (mel (newMezzDims s)))
      | RACK =>
          mkState (currentStep s) d (summaryViewMode s) (inputMode s)
                  (mkRackDims v (rd (newRackDims s)) (rh (newRackDims s)))
                  (newMezzDims s)
      end
  | FDimD v =>
      match inputMode s with
      | MEZZANINE =>
          mkState (currentStep s) d (summaryViewMode s) (inputMode s)
                  (newRackDims s)
                  (mkMezzDims (mw (newMezzDims s)) v (mel (newMezzDims s)))
      | RACK =>
          mkState (currentStep s) d (summaryViewMode s) (inputMode s)
                  (mkRackDims (rw (newRackDims s)) v (rh (newRackDims s)))
                  (newMezzDims s)
      end
  | FDimH v =>
      match inputMode s with
      | MEZZANINE =>
          mkState (currentStep s) d (summaryViewMode s) (inputMode s)
                  (newRackDims s)
                  (mkMezzDims (mw (newMezzDims s)) (md (newMezzDims s)) v)
      | RACK =>
          mkState (currentStep s) d (summaryViewMode s) (inputMode s)
                  (mkRackDims (rw (newRackDims s)) (rd (newRackDims s)) v)
                  (newMezzDims s)
      end
  end.

(** Everything a user can do to the wizard state. *)
Inductive Action :=
| NextStep
| PrevStep
| NewProject
| AddObject (fresh : string)
| RackMove (id0 : string) (x0 y0 : Q)
| RemoveRack (id0 : string)
| UpdateRackLabel (id0 newLabel : string)
| ResetStorage
| SwapDims
| SwapStep1
| SetField (f : Field).

Definition step (s : State) (a : Action) : State :=
  match a with
  | NextStep => nextStep s
  | PrevStep => prevStep s
  | NewProject => handleNewProject s
  | AddObject fresh => handleAddObject fresh s
  | RackMove id0 x0 y0 => handleRackMove id0 x0 y0 s
  | RemoveRack id0 => removeRack id0 s
  | UpdateRackLabel id0 l => updateRackLabel id0 l s
  | ResetStorage => resetStorage s
  | SwapDims => handleSwapDims s
  | SwapStep1 => handleSwapStep1 s
  | SetField f => setField f s
  end.

(** The props the wizard passes to its canvas. *)
Definition canvasProps (s : State) : Canvas.Props :=
  let canvasViewMode :=
    if Nat.eqb (currentStep s) 1 then View3D
    else if Nat.eqb (currentStep s) 5 then summaryViewMode s
    else View2D in
  Canvas.mkProps (IndustrialData (data s)) 900 700
                 (Nat.eqb (currentStep s) 3) canvasViewMode true.

Definition run (s : State) (acts : list Action) : State :=
  fold_left step acts s.

(** The states the wizard can be in. *)
Inductive reachable : State -> Prop :=
| reach_initial : reachable initial
| reach_step s a : reachable s -> reachable (step s a).

(** The invariant of the data model: every placed object has a positive
    footprint. *)
Definition positive_footprint (r : RackBlock) : Prop :=
  0 < width r /\ 0 < depth r.

Definition footprints_ok (s : State) : Prop :=
  Forall positive_footprint (racks (storage (data s))).

End IndustrialApp.

(** ** Predicates and scenarios used in the statements *)

(** Lists of numbers are compared position by position, up to [==]. *)
Definition eqQs (l1 l2 : list Q) : Prop := Forall2 Qeq l1 l2.

(** A 20 m wide project with three longitudinal profiles, offset 2 m: the
    example of C2. *)
Definition three_profiles : ProjectData :=
  mkProject "Q3" 20 30 8
            (mkLighting true Longitudinal Quantity 3 2 0 0)
            (mkStorage false []) 300 "".

(** A multiple of the 0.5 m snap increment. *)
Definition on_half_grid (q : Q) : Prop :=
  exists k : Z, q == inject_Z k * Canvas.SNAP_INCREMENT.

(** A 10 m by 10 m site holding one rack 2 m wide, seen in a 220 by 220
    viewport (10 pixels per meter, origin at (60, 60)), the rack being
    dragged by its top-left corner. *)
Definition clamp_props : Canvas.Props :=
  Canvas.mkProps
    (IndustrialData
       (IndustrialApp.set_racks (IndustrialApp.set_dims DEFAULT_PROJECT 10 10)
          true [mkPlaced "r1" RACK 1 1 2 2 2 0 "B1"]))
    220 220 true View2D true.

Definition clamp_state : Canvas.State :=
  Canvas.mkState (Some (mkDrag "r1" 0 0)) None (mkTransform 1 0 0) false (0, 0).

(** The mouse at [xm] meters from the left wall and 1 m from the top wall. *)
Definition mouse_at (xm : Q) : Canvas.MouseEvent :=
  Canvas.mkMouse 0 0 (60 + xm * 10) 70 0 false.

(** The wizard with a 10 m by 10 m site, on step 3, after adding the
    default rack (1.2 m by 1.0 m). *)
Definition one_default_rack : IndustrialApp.State :=
  IndustrialApp.run IndustrialApp.initial
    [ IndustrialApp.SetField (IndustrialApp.FWidth 10);
      IndustrialApp.SetField (IndustrialApp.FLength 10);
      IndustrialApp.NextStep;
      IndustrialApp.NextStep;
      IndustrialApp.AddObject "r1" ].

(** Whatever has been visited, a recorded neighbour comes with its gap. *)
Definition gaps_recorded (obj : CanvasObject) (n : Nearest) : Prop :=
  (forall c, closestRight n = Some c ->
             distRight n = Some (x c - (x obj + width obj)))
  /\ (forall c, closestLeft n = Some c ->
                distLeft n = Some (x obj - (x c + width c))).

Ltac split_ifs :=
  repeat match goal with
         | |- context [if ?c then _ else _] => destruct c
         end.

(** The two racks of the example of C5. *)
Definition rack_A : CanvasObject :=
  mkPlaced "A" (OfIndustrial RACK) 0 0 2 2 2 0 "B1".

Definition rack_B : CanvasObject :=
  mkPlaced "B" (OfIndustrial RACK) 5 0 2 2 2 0 "B2".

(** Every number of a call in lowest terms, to compare traces. *)
Definition Qred_text (t : Text) : Text :=
  match t with
  | Lit s => Lit s
  | Raw s => Raw s
  | Meters q => Meters (Qred q)
  | Fixed2m q => Fixed2m (Qred q)
  | HeightTag q => HeightTag (Qred q)
  | ElevTag q => ElevTag (Qred q)
  end.

Definition Qred_call (c : Call) : Call :=
  match c with
  | fillRect x y w h => fillRect (Qred x) (Qred y) (Qred w) (Qred h)
  | strokeRect x y w h => strokeRect (Qred x) (Qred y) (Qred w) (Qred h)
  | moveTo x y => moveTo (Qred x) (Qred y)
  | lineTo x y => lineTo (Qred x) (Qred y)
  | arc cx cy r => arc (Qred cx) (Qred cy) (Qred r)
  | fillText t x y => fillText (Qred_text t) (Qred x) (Qred y)
  | translate x y => translate (Qred x) (Qred y)
  | other => other
  end.

(** The footprint the next [handleAddObject] would give its object. *)
Definition pending_width (s : IndustrialApp.State) : Q :=
  match IndustrialApp.inputMode s with
  | MEZZANINE => IndustrialApp.mw (IndustrialApp.newMezzDims s)
  | RACK => IndustrialApp.rw (IndustrialApp.newRackDims s)
  end.

Definition pending_depth (s : IndustrialApp.State) : Q :=
  match IndustrialApp.inputMode s with
  | MEZZANINE => IndustrialApp.md (IndustrialApp.newMezzDims s)
  | RACK => IndustrialApp.rd (IndustrialApp.newRackDims s)
  end.

Definition racks_of (s : IndustrialApp.State) : list RackBlock :=
  racks (storage (IndustrialApp.data s)).

(** A run that adds the default rack, tries to add a zero-width rack, then
    moves and relabels the first. *)
Definition sample_run : list IndustrialApp.Action :=
  [ IndustrialApp.SetField (IndustrialApp.FWidth 10);
    IndustrialApp.SetField (IndustrialApp.FLength 10);
    IndustrialApp.AddObject "r1";
    IndustrialApp.SetField (IndustrialApp.FDimW 0);
    IndustrialApp.AddObject "r2";
    IndustrialApp.RackMove "r1" 3 4;
    IndustrialApp.UpdateRackLabel "r1" "Dock" ].

(** ** The legacy canvas (src/WarehouseCanvas.tsx): mouse handlers and
    neighbour search

    Its state, its mouse events and the outcome of a mouse move are those of
    the current canvas; its data is always a [ProjectData].  Its handlers
    locate the pointer by [clientX - rect.left] and [clientY - rect.top],
    without the correction of [getCanvasCoordinates]: the [mouseX] and
    [mouseY] of an event given to them are these two differences
    ([event_of] below). *)

Module LegacyCanvas.

Record Props := mkProps {
  data : ProjectData;
  canvasWidth : Q;
  canvasHeight : Q;
  isInteractive : bool;
  viewMode : ViewMode;
  onRackMove : bool
}.

(** [const rect = canvasRef.current!.getBoundingClientRect();
    const mouseX = e.clientX - rect.left; const mouseY = e.clientY - rect.top]
    of [handleMouseDown] and [handleMouseMove]: the DOM event as the legacy
    handlers see it. *)
Definition event_of (rect : Dom.Rect) (ev : Dom.PointerEvent)
    : Canvas.MouseEvent :=
  Canvas.mkMouse (Dom.clientX ev) (Dom.clientY ev)
                 (Dom.clientX ev - Dom.left rect)
                 (Dom.clientY ev - Dom.top rect)
                 (Dom.button ev) (Dom.altKey ev).

(** [getMetrics]; as in the current canvas, the canvas element exists
    whenever a handler runs. *)
Definition getMetrics (p : Props) (st : Canvas.State) : Metrics :=
  let padding := 60 in
  let availableWidth := canvasWidth p - padding * 2 in
  let availableHeight := canvasHeight p - padding * 2 in
  let baseScaleX := availableWidth / JS.or_default (pWidth (data p)) 1 in
  let baseScaleY := availableHeight / JS.or_default (pLength (data p)) 1 in
  let baseScale := JS.Math_min baseScaleX baseScaleY in
  let finalScale := baseScale * tScale (Canvas.transform st) in
  let drawWidth := pWidth (data p) * finalScale in
  let drawLength := pLength (data p) * finalScale in
  let originX := ((canvasWidth p - drawWidth) / 2) + tX (Canvas.transform st) in
  let originY := ((canvasHeight p - drawLength) / 2) + tY (Canvas.transform st) in
  mkMetrics originX originY finalScale drawWidth drawLength.

(** The sign bit of [finalScale], as for the current canvas. *)
Definition scaleSign (p : Props) (st : Canvas.State) : bool :=
  let padding := 60 in
  let availableWidth := canvasWidth p - padding * 2 in
  let availableHeight := canvasHeight p - padding * 2 in
  let divisorX := JS.or_default (pWidth (data p)) 1 in
  let divisorY := JS.or_default (pLength (data p)) 1 in
  let baseScaleX := availableWidth / divisorX in
  let baseScaleY := availableHeight / divisorY in
  let signX := JS.signbit baseScaleX (JS.Qlt_bool divisorX 0) in
  let signY := JS.signbit baseScaleY (JS.Qlt_bool divisorY 0) in
  let signBase :=
    if JS.Qlt_bool baseScaleX baseScaleY then signX
    else if JS.Qlt_bool baseScaleY baseScaleX then signY
    else signX || signY in
  xorb signBase (JS.Qlt_bool (tScale (Canvas.transform st)) 0).

(** The predicate of [find] in the click and hover tests. *)
Definition hit (metrics : Metrics) (mouseX mouseY : Q) (rack : RackBlock)
    : bool :=
  let pxX := originX metrics + (x rack * scale metrics) in
  let pxY := originY metrics + (y rack * scale metrics) in
  let pxW := width rack * scale metrics in
  let pxH := depth rack * scale metrics in
  Qle_bool pxX mouseX && Qle_bool mouseX (pxX + pxW)
  && Qle_bool pxY mouseY && Qle_bool mouseY (pxY + pxH).

Definition startPan (st : Canvas.State) (e : Canvas.MouseEvent)
    : Canvas.State :=
  if (Canvas.button e =? 1)%Z || (Canvas.button e =? 2)%Z
     || ((Canvas.button e =? 0)%Z && Canvas.altKey e)
  then Canvas.mkState (Canvas.dragTarget st) (Canvas.hoveredBlockId st)
                      (Canvas.transform st) true
                      (Canvas.clientX e, Canvas.clientY e)
  else st.

Definition handlePanMove (st : Canvas.State) (e : Canvas.MouseEvent)
    : Canvas.State :=
  if Canvas.isPanning st then
    let dx := Canvas.clientX e - fst (Canvas.lastMousePos st) in
    let dy := Canvas.clientY e - snd (Canvas.lastMousePos st) in
    let prev := Canvas.transform st in
    Canvas.mkState (Canvas.dragTarget st) (Canvas.hoveredBlockId st)
      (mkTransform (tScale prev) (tX prev + dx) (tY prev + dy))
      (Canvas.isPanning st) (Canvas.clientX e, Canvas.clientY e)
  else st.

Definition endPan (st : Canvas.State) : Canvas.State :=
  Canvas.mkState (Canvas.dragTarget st) (Canvas.hoveredBlockId st)
                 (Canvas.transform st) false (Canvas.lastMousePos st).

Definition handleMouseDown (p : Props) (st : Canvas.State)
    (e : Canvas.MouseEvent) : Canvas.State :=
  match viewMode p with
  | View3D => st
  | View2D =>
      if (Canvas.button e =? 1)%Z || (Canvas.button e =? 2)%Z
         || Canvas.altKey e
      then startPan st e
      else if negb (isInteractive p) then st
      else
        let metrics := getMetrics p st in
        match find (hit metrics (Canvas.mouseX e) (Canvas.mouseY e))
                   (rev (racks (storage (data p)))) with
        | Some clickedRack =>
            let rackPxX := originX metrics + (x clickedRack * scale metrics) in
            let rackPxY := originY metrics + (y clickedRack * scale metrics) in
            Canvas.mkState
              (Some (mkDrag (id clickedRack)
                            (Canvas.mouseX e - rackPxX)
                            (Canvas.mouseY e - rackPxY)))
              (Canvas.hoveredBlockId st) (Canvas.transform st)
              (Canvas.isPanning st) (Canvas.lastMousePos st)
        | None => st
        end
  end.

Definition handleMouseMove (p : Props) (st : Canvas.State)
    (e : Canvas.MouseEvent) : Canvas.MoveOutcome :=
  match viewMode p with
  | View3D => Canvas.Untouched
  | View2D =>
      if Canvas.isPanning st then Canvas.Panned (handlePanMove st e)
      else if negb (isInteractive p) then Canvas.Untouched
      else
        let metrics := getMetrics p st in
        match Canvas.dragTarget st, onRackMove p with
        | Some target, true =>
            let rawX := Canvas.mouseX e - offsetX target in
            let rawY := Canvas.mouseY e - offsetY target in
            match JS.div (rawX - originX metrics) (scale metrics),
                  JS.div (rawY - originY metrics) (scale metrics) with
            | Some xMeters, Some yMeters =>
                let SNAP_INCREMENT := 0.5 in
                let xMeters :=
                  inject_Z (JS.Math_round (xMeters / SNAP_INCREMENT))
                  * SNAP_INCREMENT in
                let yMeters :=
                  inject_Z (JS.Math_round (yMeters / SNAP_INCREMENT))
                  * SNAP_INCREMENT in
                match find (fun r : RackBlock => String.eqb (id r) (dragId target))
                           (racks (storage (data p))) with
                | Some rack =>
                    let xMeters :=
                      JS.Math_max 0
                        (JS.Math_min xMeters (pWidth (data p) - width rack)) in
                    let yMeters :=
                      JS.Math_max 0
                        (JS.Math_min yMeters (pLength (data p) - depth rack)) in
                    Canvas.Dragged (Some (dragId target, xMeters, yMeters))
                | None => Canvas.Dragged None
                end
            | _, _ =>
                (* [metrics.scale] is zero *)
                let negzero := scaleSign p st in
                let SNAP_INCREMENT := 0.5 in
                let xMeters :=
                  JS.div_by_zero (rawX - originX metrics) negzero in
                let yMeters :=
                  JS.div_by_zero (rawY - originY metrics) negzero in
                let xMeters := JS.snap_num SNAP_INCREMENT xMeters in
                let yMeters := JS.snap_num SNAP_INCREMENT yMeters in
                match find (fun r : RackBlock => String.eqb (id r) (dragId target))
                           (racks (storage (data p))) with
                | Some rack =>
                    let xMeters :=
                      JS.Math_max_num 0
                        (JS.Math_min_num xMeters
                           (pWidth (data p) - width rack)) in
                    let yMeters :=
                      JS.Math_max_num 0
                        (JS.Math_min_num yMeters
                           (pLength (data p) - depth rack)) in
                    Canvas.DragNotFinite
                      (Some (dragId target, xMeters, yMeters))
                | None => Canvas.DragNotFinite None
                end
            end
        | _, _ =>
            let hovered :=
              find (hit metrics (Canvas.mouseX e) (Canvas.mouseY e))
                   (racks (storage (data p))) in
            Canvas.Hovered
              (Canvas.mkState (Canvas.dragTarget st)
                 (match hovered with
                  | Some o => Some (id o)
                  | None => None
                  end)
                 (Canvas.transform st) (Canvas.isPanning st)
                 (Canvas.lastMousePos st))
        end
  end.

Definition handleMouseUp (st : Canvas.State) : Canvas.State :=
  endPan (Canvas.mkState None (Canvas.hoveredBlockId st) (Canvas.transform st)
                         (Canvas.isPanning st) (Canvas.lastMousePos st)).

(** The legacy search for the one nearest neighbour of the dragged rack.
    [closestGap] starts at [Infinity] ([None]); [gapData] holds the two end
    points [p1], [p2] of the dimension line, in meters. *)
Record Closest := mkClosest {
  closestGap : option Q;
  closestNeighbor : option RackBlock;
  gapData : (Q * Q) * (Q * Q)
}.

Definition closest_init : Closest := mkClosest None None ((0, 0), (0, 0)).

(** Body of [data.storage.racks.forEach(other => ...)]. *)
Definition visit_other (rack : RackBlock) (c : Closest) (other : RackBlock)
    : Closest :=
  if String.eqb (id other) (id rack) then c
  else
    let xOverlapStart := JS.Math_max (x rack) (x other) in
    let xOverlapEnd :=
      JS.Math_min (x rack + width rack) (x other + width other) in
    let hasXOverlap := JS.Qlt_bool xOverlapStart xOverlapEnd in
    let yOverlapStart := JS.Math_max (y rack) (y other) in
    let yOverlapEnd :=
      JS.Math_min (y rack + depth rack) (y other + depth other) in
    let hasYOverlap := JS.Qlt_bool yOverlapStart yOverlapEnd in
    (* (isAligned, currentGap, currentP1, currentP2); the gap is only read
       when isAligned *)
    let '(isAligned, currentGap, currentP1, currentP2) :=
      if hasYOverlap then
        let midY := (yOverlapStart + yOverlapEnd) / 2 in
        if JS.Qlt_bool (x rack) (x other)
        then (true, x other - (x rack + width rack),
              (x rack + width rack, midY), (x other, midY))
        else (true, x rack - (x other + width other),
              (x other + width other, midY), (x rack, midY))
      else if hasXOverlap then
        let midX := (xOverlapStart + xOverlapEnd) / 2 in
        if JS.Qlt_bool (y rack) (y other)
        then (true, y other - (y rack + depth rack),
              (midX, y rack + depth rack), (midX, y other))
        else (true, y rack - (y other + depth other),
              (midX, y other + depth other), (midX, y rack))
      else (false, 0, (0, 0), (0, 0)) in
    if isAligned && Qle_bool 0 currentGap && lt_dist currentGap (closestGap c)
    then mkClosest (Some currentGap) (Some other) (currentP1, currentP2)
    else c.

Definition closestOf (racks : list RackBlock) (rack : RackBlock) : Closest :=
  fold_left (visit_other rack) racks closest_init.

End LegacyCanvas.

(** ** The isometric renderer ([drawScene3D] of
    src/components/WarehouseCanvas.tsx) *)

Module Scene3D.

Record Pt := mkPt { px : Q; py : Q }.        (* {x, y} *)

Definition projectIso (x y z : Q) : Pt :=
  let cos30 := 0.866 in
  let sin30 := 0.5 in
  mkPt ((x - y) * cos30) ((x + y) * sin30 - z).

(** [w], [l] and [h] of [drawScene3D]. *)
Definition siteW (data : CanvasData) : Q := JS.or_default (dataWidth data) 10.
Definition siteL (data : CanvasData) : Q := JS.or_default (dataLength data) 20.
Definition siteH (data : CanvasData) : Q :=
  match data with
  | IndustrialData d => ceilingHeight d
  | SportsData _ => 0
  end.

(** The loop that raises [maxObjH] from 0. *)
Definition maxObjH (objects : list CanvasObject) : Q :=
  fold_left
    (fun maxObjH o =>
       let oh := JS.or_default (elevation o) 0 + JS.or_default (height o) 0 in
       if JS.Qlt_bool maxObjH oh then oh else maxObjH)
    objects 0.

(** [Math.max(h, maxObjH, 5)]. *)
Definition renderH (data : CanvasData) : Q :=
  JS.Math_max (JS.Math_max (siteH data) (maxObjH (getObjects data))) 5.

(** The running bounding box; [None] is the initial [Infinity] (for the
    minima) or [-Infinity] (for the maxima). *)
Record Bounds := mkBounds {
  minX : option Q;
  maxX : option Q;
  minY : option Q;
  maxY : option Q
}.

Definition bounds_init : Bounds := mkBounds None None None None.

(** [v > cur] where [cur] may still be [-Infinity]. *)
Definition gt_bound (v : Q) (cur : option Q) : bool :=
  match cur with None => true | Some c => JS.Qlt_bool c v end.

(** Body of [points.forEach(p => ...)]. *)
Definition visit_point (b : Bounds) (p : Pt) : Bounds :=
  let b := if lt_dist (px p) (minX b)
           then mkBounds (Some (px p)) (maxX b) (minY b) (maxY b) else b in
  let b := if gt_bound (px p) (maxX b)
           then mkBounds (minX b) (Some (px p)) (minY b) (maxY b) else b in
  let b := if lt_dist (py p) (minY b)
           then mkBounds (minX b) (maxX b) (Some (py p)) (maxY b) else b in
  if gt_bound (py p) (maxY b)
  then mkBounds (minX b) (maxX b) (minY b) (Some (py p)) else b.

(** The eight corners of the bounding volume. *)
Definition corners (w l renderH : Q) : list Pt :=
  [ projectIso 0 0 0; projectIso w 0 0; projectIso w l 0; projectIso 0 l 0;
    projectIso 0 0 renderH; projectIso w 0 renderH;
    projectIso w l renderH; projectIso 0 l renderH ].

(** What [toScreen] closes over. *)
Record View := mkView {
  scale : Q;
  bboxCenterX : Q;
  bboxCenterY : Q;
  canvasCenterX : Q;
  canvasCenterY : Q
}.

(** The fit of [drawScene3D].  The two divisions by the size of the
    bounding box are not guarded in the source; the result is [None] when
    one of them is a division by zero. *)
Definition view (data : CanvasData) (width height : Q) : option View :=
  let w := siteW data in
  let l := siteL data in
  let b := fold_left visit_point (corners w l (renderH data)) bounds_init in
  match minX b, maxX b, minY b, maxY b with
  | Some minX, Some maxX, Some minY, Some maxY =>
      let bboxW := maxX - minX in
      let bboxH := maxY - minY in
      let padding := 60 in
      let availW := width - padding * 2 in
      let availH := height - padding * 2 in
      match JS.div availW bboxW, JS.div availH bboxH with
      | Some scaleX, Some scaleY =>
          Some (mkView (JS.Math_min scaleX scaleY)
                       (minX + (bboxW / 2)) (minY + (bboxH / 2))
                       (width / 2) (height / 2))
      | _, _ => None
      end
  | _, _, _, _ => None
  end.

Definition toScreen (v : View) (x y z : Q) : Pt :=
  let p := projectIso x y z in
  mkPt (canvasCenterX v + (px p - bboxCenterX v) * scale v)
       (canvasCenterY v + (py p - bboxCenterY v) * scale v).

(** The calls of the 3D render: those of the 2D trace and [closePath]. *)
Inductive Call3D :=
| ctx (c : Call)
| closePath.

(** [beginPath(); moveTo(a); lineTo(b); lineTo(c); lineTo(d); closePath()]. *)
Definition quad (a b c d : Pt) : list Call3D :=
  [ ctx beginPath; ctx (moveTo (px a) (py a)); ctx (lineTo (px b) (py b));
    ctx (lineTo (px c) (py c)); ctx (lineTo (px d) (py d)); closePath ].

(** The key of the painter's sort. *)
Definition depthKey (o : CanvasObject) : Q :=
  x o + y o + JS.or_default (elevation o) 0.

Definition sortedObjects (data : CanvasData) : list CanvasObject :=
  sort_by depthKey (getObjects data).

(** The eight vertices of an object: [b1 .. b4] and [t1 .. t4]. *)
Definition object_vertices (v : View) (obj : CanvasObject) : list Pt :=
  let rx := x obj in
  let ry := y obj in
  let rw := width obj in
  let rd := depth obj in
  let rh := height obj in
  let el := JS.or_default (elevation obj) 0 in
  [ toScreen v rx ry el; toScreen v (rx + rw) ry el;
    toScreen v (rx + rw) (ry + rd) el; toScreen v rx (ry + rd) el;
    toScreen v rx ry (el + rh); toScreen v (rx + rw) ry (el + rh);
    toScreen v (rx + rw) (ry + rd) (el + rh); toScreen v rx (ry + rd) (el + rh) ].

(** Body of [sortedObjects.forEach]. *)
Definition object_calls (v : View) (obj : CanvasObject) : list Call3D :=
  let rx := x obj in
  let ry := y obj in
  let rw := width obj in
  let rd := depth obj in
  let rh := height obj in
  let el := JS.or_default (elevation obj) 0 in
  let b1 := toScreen v rx ry el in
  let b2 := toScreen v (rx + rw) ry el in
  let b3 := toScreen v (rx + rw) (ry + rd) el in
  let b4 := toScreen v rx (ry + rd) el in
  let t1 := toScreen v rx ry (el + rh) in
  let t2 := toScreen v (rx + rw) ry (el + rh) in
  let t3 := toScreen v (rx + rw) (ry + rd) (el + rh) in
  let t4 := toScreen v rx (ry + rd) (el + rh) in
  (if JS.Qlt_bool 0 el then
     let s1 := toScreen v rx ry 0 in
     let s2 := toScreen v (rx + rw) ry 0 in
     let s3 := toScreen v (rx + rw) (ry + rd) 0 in
     let s4 := toScreen v rx (ry + rd) 0 in
     quad s1 s2 s3 s4 ++ [ ctx fill ]
   else [])
  ++ (if JS.Qlt_bool 0 el
      then quad b1 b2 b3 b4 ++ [ ctx fill; ctx stroke ]
      else [])
  ++ quad t1 t2 t3 t4 ++ [ ctx fill; ctx stroke ]
  ++ quad b2 b3 t3 t2 ++ [ ctx fill; ctx stroke ]
  ++ quad b3 b4 t4 t3 ++ [ ctx fill; ctx stroke ].

(** [drawScene3D]: the calls made on the context. *)
Definition drawScene3D (data : CanvasData) (width height : Q)
    (transparentBg : bool) : option (list Call3D) :=
  match view data width height with
  | None => None
  | Some v =>
      let w := siteW data in
      let l := siteL data in
      let h := siteH data in
      let v000 := toScreen v 0 0 0 in
      let vW00 := toScreen v w 0 0 in
      let vWL0 := toScreen v w l 0 in
      let v0L0 := toScreen v 0 l 0 in
      Some
        ((if transparentBg then [] else [ ctx (fillRect 0 0 width height) ])
         ++ quad v000 vW00 vWL0 v0L0 ++ [ ctx fill; ctx stroke ]
         ++ flat_map (object_calls v) (sortedObjects data)
         ++ (match mode_of data with
             | INDUSTRIAL =>
                 let v00H := toScreen v 0 0 h in
                 let vW0H := toScreen v w 0 h in
                 let vWLH := toScreen v w l h in
                 let v0LH := toScreen v 0 l h in
                 let lx := (px v000 + px v00H) / 2 - 10 in
                 let ly := (py v000 + py v00H) / 2 in
                 quad v00H vW0H vWLH v0LH ++ [ ctx stroke ]
                 ++ [ ctx beginPath;
                      ctx (moveTo (px v000) (py v000));
                      ctx (lineTo (px v00H) (py v00H));
                      ctx (moveTo (px vW00) (py vW00));
                      ctx (lineTo (px vW0H) (py vW0H));
                      ctx (moveTo (px vWL0) (py vWL0));
                      ctx (lineTo (px vWLH) (py vWLH));
                      ctx (moveTo (px v0L0) (py v0L0));
                      ctx (lineTo (px v0LH) (py v0LH));
                      ctx stroke ]
                 ++ [ ctx save; ctx beginPath; ctx (arc lx ly 12); ctx fill;
                      ctx restore; ctx (fillText (Meters h) lx ly) ]
             | SPORTS => []
             end)
         ++ [ ctx (fillText (Meters w) ((px v000 + px vW00) / 2)
                            (py v000 + 25));
              ctx (fillText (Meters l) ((px vW00 + px vWL0) / 2 + 25)
                            ((py vW00 + py vWL0) / 2)) ])
  end.

End Scene3D.

(** ** Further predicates used in the statements *)

(** One side of the neighbour search: [cand] says whether [other] counts on
    that side, [gap] is its distance; the pair is ([closest], [dist]). *)
Definition pick (cand : CanvasObject -> bool) (gap : CanvasObject -> Q)
    (st : option CanvasObject * option Q) (other : CanvasObject)
    : option CanvasObject * option Q :=
  if cand other && lt_dist (gap other) (snd st)
  then (Some other, Some (gap other))
  else st.

Definition cand_right (obj other : CanvasObject) : bool :=
  JS.Qlt_bool 0 (vertOverlap obj other)
  && Qle_bool (x obj + width obj) (x other).
Definition cand_left (obj other : CanvasObject) : bool :=
  JS.Qlt_bool 0 (vertOverlap obj other)
  && Qle_bool (x other + width other) (x obj).
Definition cand_bottom (obj other : CanvasObject) : bool :=
  JS.Qlt_bool 0 (horzOverlap obj other)
  && Qle_bool (y obj + depth obj) (y other).
Definition cand_top (obj other : CanvasObject) : bool :=
  JS.Qlt_bool 0 (horzOverlap obj other)
  && Qle_bool (y other + depth other) (y obj).

Definition gap_right (obj other : CanvasObject) : Q :=
  x other - (x obj + width obj).
Definition gap_left (obj other : CanvasObject) : Q :=
  x obj - (x other + width other).
Definition gap_bottom (obj other : CanvasObject) : Q :=
  y other - (y obj + depth obj).
Definition gap_top (obj other : CanvasObject) : Q :=
  y obj - (y other + depth other).

(** The objects other than [obj]. *)
Definition others_of (objects : list CanvasObject) (obj : CanvasObject)
    : list CanvasObject :=
  filter (fun o => negb (String.eqb (id o) (id obj))) objects.

(** Number of [arc] calls and of [lineTo] calls in a trace. *)
Definition count_arcs (calls : list Call) : nat :=
  List.length (filter (fun c => match c with arc _ _ _ => true | _ => false end)
                      calls).
Definition count_lines (calls : list Call) : nat :=
  List.length (filter (fun c => match c with lineTo _ _ => true | _ => false end)
                      calls).

(** The points a 3D trace moves or draws a line to. *)
Definition path_points (calls : list Scene3D.Call3D) : list Scene3D.Pt :=
  flat_map (fun c =>
              match c with
              | Scene3D.ctx (moveTo a b) => [Scene3D.mkPt a b]
              | Scene3D.ctx (lineTo a b) => [Scene3D.mkPt a b]
              | _ => []
              end) calls.

(** The snap of [handleMouseMove]:
    [Math.round(q / SNAP_INCREMENT) * SNAP_INCREMENT]. *)
Definition snap (q : Q) : Q :=
  inject_Z (JS.Math_round (q / Canvas.SNAP_INCREMENT)) * Canvas.SNAP_INCREMENT.

(** A field with two posts and a covering, dragged in sports mode. *)
Definition sports_props : Canvas.Props :=
  Canvas.mkProps
    (SportsData
       (mkSports 40 20
          [ mkPlaced "p1" POST 0 10 (1 # 2) (1 # 2) 6 0 "P1";
            mkPlaced "c1" COVERING 10 5 8 4 (1 # 5) 3 "C1" ] ""))
    920 520 true View2D true.

Definition sports_state : Canvas.State :=
  Canvas.mkState (Some (mkDrag "p1" 0 0)) None (mkTransform 1 0 0) false (0, 0).

(** What "the nearest on one side" means: either no other object counts on
    that side and nothing is recorded, or the recorded object is another
    object of the scene that counts, its gap is recorded and is not
    negative, and no other object that counts is nearer. *)
Definition nearest_on_side (objects : list CanvasObject) (obj : CanvasObject)
    (cand : CanvasObject -> bool) (gap : CanvasObject -> Q)
    (closest : option CanvasObject) (dist : option Q) : Prop :=
  match closest with
  | None =>
      dist = None
      /\ forall o, In o objects -> id o <> id obj -> cand o = false
  | Some c =>
      In c objects /\ id c <> id obj /\ cand c = true
      /\ dist = Some (gap c) /\ 0 <= gap c
      /\ forall o, In o objects -> id o <> id obj -> cand o = true ->
                   gap c <= gap o
  end.

(** A 20 m by 30 m project whose profiles, with a negative offset, overhang
    the walls: seven positions from -5 to 25, with 2.5 fixtures asked per
    profile. *)
Definition overhanging_profiles : ProjectData :=
  mkProject "Overhang" 20 30 8
            (mkLighting true Longitudinal Distance 5 (-5) 0 (5 # 2))
            (mkStorage false []) 300 "".

(** A pixel inside the viewport less its 60-pixel padding. *)
Definition in_padded_view (width height : Q) (p : Scene3D.Pt) : Prop :=
  60 <= Scene3D.px p <= width - 60 /\ 60 <= Scene3D.py p <= height - 60.

(** An object standing inside the site: footprint within the floor, base
    and height not negative. *)
Definition inside_site (data : CanvasData) (o : CanvasObject) : Prop :=
  0 <= x o /\ 0 <= width o /\ x o + width o <= Scene3D.siteW data
  /\ 0 <= y o /\ 0 <= depth o /\ y o + depth o <= Scene3D.siteL data
  /\ 0 <= elevation o /\ 0 <= height o.

(** The running bounding box holds every point of [pts]. *)
Definition bounds_cover (b : Scene3D.Bounds) (pts : list Scene3D.Pt) : Prop :=
  exists mnx mxx mny mxy,
    Scene3D.minX b = Some mnx /\ Scene3D.maxX b = Some mxx
    /\ Scene3D.minY b = Some mny /\ Scene3D.maxY b = Some mxy
    /\ Forall (fun p => mnx <= Scene3D.px p <= mxx
                        /\ mny <= Scene3D.py p <= mxy) pts.

(** A 40 m by 20 m hall, 8 m high, with a 9 m rack and a mezzanine. *)
Definition hall : ProjectData :=
  mkProject "Hall" 40 20 8
            (mkLighting false Longitudinal Distance 5 2 0 0)
            (mkStorage true
               [ mkPlaced "r1" RACK 2 3 (6 # 5) 1 9 0 "B1";
                 mkPlaced "m1" MEZZANINE 30 10 5 5 (1 # 5) 3 "M1" ])
            300 "".

(** The props of the current canvas that stand for legacy props. *)
Definition current_props (p : LegacyCanvas.Props) : Canvas.Props :=
  Canvas.mkProps (IndustrialData (LegacyCanvas.data p))
                 (LegacyCanvas.canvasWidth p) (LegacyCanvas.canvasHeight p)
                 (LegacyCanvas.isInteractive p) (LegacyCanvas.viewMode p)
                 (LegacyCanvas.onRackMove p).

(** Two racks that overlap around the point (2.5, 2.5) of a 10 m by 10 m
    site, in a 220 by 220 viewport. *)
Definition overlapping_props : LegacyCanvas.Props :=
  LegacyCanvas.mkProps
    (IndustrialApp.set_racks (IndustrialApp.set_dims DEFAULT_PROJECT 10 10)
       true [ mkPlaced "r1" RACK 1 1 2 2 2 0 "B1";
              mkPlaced "r2" RACK 2 2 2 2 2 0 "B2" ])
    220 220 true View2D true.

Definition over_both : Canvas.MouseEvent :=
  Canvas.mkMouse 85 85 85 85 0 false.

(** Whether the legacy search counts [other] as aligned with [rack] at a
    gap that is not negative, and that gap. *)
Definition legacy_gap (rack other : RackBlock) : Q :=
  if JS.Qlt_bool (JS.Math_max (y rack) (y other))
                 (JS.Math_min (y rack + depth rack) (y other + depth other))
  then if JS.Qlt_bool (x rack) (x other)
       then x other - (x rack + width rack)
       else x rack - (x other + width other)
  else if JS.Qlt_bool (y rack) (y other)
       then y other - (y rack + depth rack)
       else y rack - (y other + depth other).

Definition legacy_cand (rack other : RackBlock) : bool :=
  negb (String.eqb (id other) (id rack))
  && (JS.Qlt_bool (JS.Math_max (y rack) (y other))
                  (JS.Math_min (y rack + depth rack) (y other + depth other))
      || JS.Qlt_bool (JS.Math_max (x rack) (x other))
                     (JS.Math_min (x rack + width rack) (x other + width other)))
  && Qle_bool 0 (legacy_gap rack other).

(** A row of three racks: at 0, at 3 and at 5 meters from the left wall. *)
Definition row_first : RackBlock := mkPlaced "A" RACK 0 0 2 2 2 0 "B1".
Definition row_of_racks : list RackBlock :=
  [ row_first;
    mkPlaced "B" RACK 5 0 2 2 2 0 "B2";
    mkPlaced "C" RACK 3 (1 # 2) 1 1 2 0 "B3" ].

(** The bounds between which [handleMouseMove] clamps a dragged object:
    [Math.max(lo, Math.min(x, hi))], in sports mode and in industrial
    mode. *)
Definition drag_lo (data : CanvasData) : Q :=
  match mode_of data with SPORTS => -50 | INDUSTRIAL => 0 end.
Definition drag_hiX (data : CanvasData) (obj : CanvasObject) : Q :=
  match mode_of data with
  | SPORTS => dataWidth data + 50
  | INDUSTRIAL => dataWidth data - width obj
  end.
Definition drag_hiY (data : CanvasData) (obj : CanvasObject) : Q :=
  match mode_of data with
  | SPORTS => dataLength data + 50
  | INDUSTRIAL => dataLength data - depth obj
  end.

(** A coordinate as the move callback receives it after the clamp between
    [lo] and [hi]: [NaN], or a number that is at least [lo], at most [hi]
    when [lo <= hi], and a multiple of 0.5 or [hi] itself. *)
Definition clamped_report (n : JS.Num) (lo hi : Q) : Prop :=
  match n with
  | JS.Fin v =>
      lo <= v /\ (lo <= hi -> v <= hi) /\ (on_half_grid v \/ v == hi)
  | JS.NaN => True
  | JS.PosInf | JS.NegInf => False
  end.

(** The site of [clamp_props] in a viewport 120 pixels wide and 400 high:
    nothing is left of the width once the padding is taken, the scale is
    zero, the origin is at (60, 200). *)
Definition zero_scale_props : Canvas.Props :=
  Canvas.mkProps
    (IndustrialData
       (IndustrialApp.set_racks (IndustrialApp.set_dims DEFAULT_PROJECT 10 10)
          true [mkPlaced "r1" RACK 1 1 2 2 2 0 "B1"]))
    120 400 true View2D true.

(** The path commands of a trace, and its dots, in order. *)
Definition strokes_of (calls : list Call) : list Call :=
  filter (fun c => match c with moveTo _ _ | lineTo _ _ => true | _ => false end)
         calls.
Definition arcs_of (calls : list Call) : list Call :=
  filter (fun c => match c with arc _ _ _ => true | _ => false end) calls.

(** Two states that differ at most in how the grab offsets are written:
    the same object is grabbed, at offsets that are equal as numbers. *)
Definition same_grab (s s' : Canvas.State) : Prop :=
  Canvas.hoveredBlockId s = Canvas.hoveredBlockId s'
  /\ Canvas.transform s = Canvas.transform s'
  /\ Canvas.isPanning s = Canvas.isPanning s'
  /\ Canvas.lastMousePos s = Canvas.lastMousePos s'
  /\ match Canvas.dragTarget s, Canvas.dragTarget s' with
     | None, None => True
     | Some a, Some b =>
         dragId a = dragId b /\ offsetX a == offsetX b
         /\ offsetY a == offsetY b
     | _, _ => False
     end.

(** The canvas of [overlapping_props] shown at half its size, its top-left
    corner at the top-left corner of the page, and a press 40 pixels right
    of and below that corner. *)
Definition half_size_rect : Dom.Rect := Dom.mkRect 0 0 110 110.
Definition press_at_40 : Dom.PointerEvent := Dom.mkPointer 40 40 0 false.

(** What the lighting layer draws for one profile position: the segment
    from wall to wall, and the [i]-th fixture dot, [fixture_distance] along
    the profile. *)
Definition profile_line (d : ProjectData) (m : Metrics) (pos : Q)
    : list Call :=
  if Current.isLongitudinal (lighting d)
  then [ moveTo (getX m pos) (getY m 0);
         lineTo (getX m pos) (getY m (pLength d)) ]
  else [ moveTo (getX m 0) (getY m pos);
         lineTo (getX m (pWidth d)) (getY m pos) ].

Definition fixture_distance (d : ProjectData) (i : nat) : Q :=
  let fpp := fixturesPerProfile (lighting d) in
  let profileLength :=
    if Current.isLongitudinal (lighting d) then pLength d else pWidth d in
  if Qeq_bool fpp 1 then profileLength / 2
  else 1 + inject_Z (Z.of_nat i)
           * (if JS.Qlt_bool 1 fpp
              then (profileLength - 1 * 2) / (fpp - 1) else 0).

Definition fixture_dot (d : ProjectData) (m : Metrics) (pos : Q) (i : nat)
    : Call :=
  let radius := JS.Math_max 3 (JS.Math_min 8 (3 * (scale m / 1))) in
  if Current.isLongitudinal (lighting d)
  then arc (getX m pos) (getY m (fixture_distance d i)) radius
  else arc (getX m (fixture_distance d i)) (getY m pos) radius.

(** * Properties *)

(** ** Comparisons and loops *)

Lemma Qlt_bool_true (a b : Q) : JS.Qlt_bool a b = true <-> a < b.
Proof.
  unfold JS.Qlt_bool. rewrite negb_true_iff.
  split; intro H.
  - apply Qnot_le_lt. intro Hle. apply Qle_bool_iff in Hle. congruence.
  - destruct (Qle_bool b a) eqn:E; [|reflexivity].
    apply Qle_bool_iff in E. exfalso. exact (Qlt_not_le _ _ H E).
Qed.

Lemma Qlt_bool_false (a b : Q) : JS.Qlt_bool a b = false <-> b <= a.
Proof.
  unfold JS.Qlt_bool. rewrite negb_false_iff. apply Qle_bool_iff.
Qed.

Lemma Qle_bool_false (a b : Q) : Qle_bool a b = false <-> b < a.
Proof.
  split; intro H.
  - apply Qnot_le_lt. intro Hle. apply Qle_bool_iff in Hle. congruence.
  - destruct (Qle_bool a b) eqn:E; [|reflexivity].
    apply Qle_bool_iff in E. exfalso. exact (Qlt_not_le _ _ H E).
Qed.

Lemma Qeq_bool_false (a b : Q) : Qeq_bool a b = false <-> ~ a == b.
Proof.
  split.
  - apply Qeq_bool_neq.
  - intro H. destruct (Qeq_bool a b) eqn:E; [|reflexivity].
    apply Qeq_bool_iff in E. contradiction.
Qed.

Lemma Qlt_bool_compat (a b a' b' : Q) :
  a == a' -> b == b' -> JS.Qlt_bool a b = JS.Qlt_bool a' b'.
Proof.
  intros Ha Hb.
  destruct (JS.Qlt_bool a' b') eqn:E.
  - apply Qlt_bool_true. apply Qlt_bool_true in E. rewrite Ha, Hb. exact E.
  - apply Qlt_bool_false. apply Qlt_bool_false in E. rewrite Ha, Hb. exact E.
Qed.

Lemma inject_Z_minus (a b : Z) : inject_Z (a - b) = inject_Z a - inject_Z b.
Proof.
  unfold Z.sub, Qminus. rewrite inject_Z_plus, inject_Z_opp. reflexivity.
Qed.

Lemma Qceiling_pred (q : Q) : Qceiling (q - 1) = (Qceiling q - 1)%Z.
Proof.
  pose proof (Qceiling_lt q) as L1.
  pose proof (Qle_ceiling q) as L2.
  pose proof (Qceiling_lt (q - 1)) as L3.
  pose proof (Qle_ceiling (q - 1)) as L4.
  rewrite inject_Z_minus in L1, L3.
  change (inject_Z 1) with 1 in L1, L3.
  assert (A : inject_Z (Qceiling (q - 1)) < inject_Z (Qceiling q)) by lra.
  assert (B : inject_Z (Qceiling q) - 1 < inject_Z (Qceiling (q - 1)) + 1) by lra.
  assert (B' : inject_Z (Qceiling q - 1) < inject_Z (Qceiling (q - 1) + 1)).
  { rewrite inject_Z_minus, inject_Z_plus. exact B. }
  rewrite <- Zlt_Qlt in A, B'. lia.
Qed.

(** The loop [for (i = start; i < bound; i += step)] with [step > 0] leaves
    through its condition: the trips counted by [JS.trips] are all the
    trips there are, whatever extra fuel is given. *)
Lemma for_lt_enough (step : Z) (bound : Q) :
  (0 < step)%Z ->
  forall n i extra,
    JS.trips i step bound = n ->
    JS.for_lt (n + extra) i step bound = JS.for_lt n i step bound.
Proof.
  intros Hs. assert (Hq : 0 < inject_Z step).
  { change 0 with (inject_Z 0). rewrite <- Zlt_Qlt. exact Hs. }
  induction n as [|n IH]; intros i extra Ht.
  - destruct extra as [|extra]; [reflexivity|]. simpl.
    replace (JS.Qlt_bool (inject_Z i) bound) with false; [reflexivity|].
    symmetry. apply Qlt_bool_false.
    unfold JS.trips in Ht.
    pose proof (Qle_ceiling ((bound - inject_Z i) / inject_Z step)) as Hc.
    assert (Hz : (Qceiling ((bound - inject_Z i) / inject_Z step) <= 0)%Z) by lia.
    rewrite Zle_Qle in Hz. change (inject_Z 0) with 0 in Hz.
    assert (Hd : (bound - inject_Z i) / inject_Z step <= 0) by lra.
    assert (Hm : bound - inject_Z i <= 0).
    { apply Qnot_lt_le. intro Hpos.
      assert (0 < (bound - inject_Z i) / inject_Z step).
      { apply Qlt_shift_div_l; [exact Hq|]. lra. }
      lra. }
    lra.
  - simpl. destruct (JS.Qlt_bool (inject_Z i) bound) eqn:E; [|reflexivity].
    f_equal. apply IH.
    unfold JS.trips in *.
    assert (Heq : (bound - inject_Z (i + step)) / inject_Z step
                  == (bound - inject_Z i) / inject_Z step - 1).
    { rewrite inject_Z_plus. field. lra. }
    rewrite Heq, Qceiling_pred. lia.
Qed.

(** With an integer bound, the unit-step loop from 0 visits 0 .. bound-1. *)
Lemma for_lt_unit (n : Z) (bound : Q) :
  bound == inject_Z n ->
  forall fuel i,
    (0 <= i)%Z -> Z.to_nat (n - i) = fuel ->
    JS.for_lt fuel i 1 bound = map Z.of_nat (seq (Z.to_nat i) fuel).
Proof.
  intros Hb. induction fuel as [|fuel IH]; intros i Hi Hf; [reflexivity|].
  simpl. replace (JS.Qlt_bool (inject_Z i) bound) with true.
  - f_equal; [lia|].
    rewrite IH by lia. f_equal. f_equal. lia.
  - symmetry. apply Qlt_bool_true. rewrite Hb, <- Zlt_Qlt. lia.
Qed.

Lemma for_loop_unit (n : Z) (bound : Q) :
  bound == inject_Z n ->
  JS.for_loop 0 1 bound = map Z.of_nat (seq 0 (Z.to_nat n)).
Proof.
  intro Hb. unfold JS.for_loop.
  assert (Ht : JS.trips 0 1 bound = Z.to_nat n).
  { unfold JS.trips.
    assert (E : (bound - inject_Z 0) / inject_Z 1 == inject_Z n).
    { rewrite Hb. change (inject_Z 0) with 0. change (inject_Z 1) with 1.
      field. }
    rewrite E, Qceiling_Z. reflexivity. }
  rewrite Ht. apply (for_lt_unit n bound Hb); lia.
Qed.

(** ** Lighting layout *)

Lemma eqQs_map {A : Type} (f g : A -> Q) (l : list A) :
  (forall a, In a l -> f a == g a) -> eqQs (map f l) (map g l).
Proof.
  induction l as [|a l IH]; intro H; simpl.
  - constructor.
  - constructor.
    + apply H. left. reflexivity.
    + apply IH. intros b Hb. apply H. right. exact Hb.
Qed.

Lemma eqQs_trans (l1 l2 l3 : list Q) : eqQs l1 l2 -> eqQs l2 l3 -> eqQs l1 l3.
Proof.
  intro H. revert l3. induction H as [|a b l1 l2 Hab _ IH]; intros l3 H3.
  - exact H3.
  - inversion H3 as [|b' c l2' l3' Hbc Hrest]; subst.
    constructor; [rewrite Hab; exact Hbc | apply IH; exact Hrest].
Qed.

Lemma current_axisLimit (d : ProjectData) :
  Current.axisLimit d =
  match orientation (lighting d) with
  | Longitudinal => pWidth d
  | Transversal => pLength d
  end.
Proof.
  unfold Current.axisLimit, Current.isLongitudinal.
  destruct (orientation (lighting d)); reflexivity.
Qed.

(** Distance mode, as computed from the three numbers. *)
Lemma distance_positions_spec (axisLimit v off : Q) :
  let available := axisLimit - 2 * off in
  let intervals := Qfloor (available / v) in
  let span := inject_Z intervals * v in
  let start := off + (available - span) / 2 in
  0.01 < v -> 0 <= available ->
  eqQs (Current.distance_positions axisLimit v off)
       (map (fun i : nat => start + inject_Z (Z.of_nat i) * v)
            (seq 0 (Z.to_nat intervals + 1))).
Proof.
  intros available intervals span start Hv Ha.
  unfold Current.distance_positions.
  assert (Eav : axisLimit - off * 2 == available) by (unfold available; ring).
  replace (JS.Qlt_bool 0.01 v) with true
    by (symmetry; apply Qlt_bool_true; exact Hv).
  replace (Qle_bool 0 (axisLimit - off * 2)) with true
    by (symmetry; apply Qle_bool_iff; rewrite Eav; exact Ha).
  unfold JS.Math_floor.
  assert (Ei : Qfloor ((axisLimit - off * 2) / v) = intervals).
  { unfold intervals. apply Qfloor_comp. rewrite Eav. reflexivity. }
  rewrite Ei.
  assert (Hi : (0 <= intervals)%Z).
  { unfold intervals. change 0%Z with (Qfloor 0).
    apply Qfloor_resp_le. apply Qle_shift_div_l; lra. }
  replace (0 <? intervals + 1)%Z with true by (symmetry; apply Z.ltb_lt; lia).
  rewrite (for_loop_unit (intervals + 1)) by reflexivity.
  rewrite map_map.
  replace (Z.to_nat (intervals + 1)) with (Z.to_nat intervals + 1)%nat by lia.
  apply eqQs_map. intros i _.
  unfold start, span. rewrite Eav. reflexivity.
Qed.

Lemma distance_positions_none (axisLimit v off : Q) :
  v <= 0.01 \/ axisLimit - 2 * off < 0 ->
  Current.distance_positions axisLimit v off = [].
Proof.
  intros [Hv | Ha]; unfold Current.distance_positions.
  - replace (JS.Qlt_bool 0.01 v) with false
      by (symmetry; apply Qlt_bool_false; exact Hv).
    reflexivity.
  - destruct (JS.Qlt_bool 0.01 v); [|reflexivity].
    replace (Qle_bool 0 (axisLimit - off * 2)) with false; [reflexivity|].
    symmetry. apply Qle_bool_false. lra.
Qed.

(** [Current.distance_positions] depends on its arguments up to [==]. *)
Lemma distance_positions_compat (a a' v v' o o' : Q) :
  a == a' -> v == v' -> o == o' ->
  0.01 < v -> 0 <= a - 2 * o ->
  eqQs (Current.distance_positions a v o) (Current.distance_positions a' v' o').
Proof.
  intros Ha Hv Ho Hpos Hav.
  eapply eqQs_trans; [apply distance_positions_spec; assumption|].
  assert (Hpos' : 0.01 < v') by (rewrite <- Hv; exact Hpos).
  assert (Hav' : 0 <= a' - 2 * o') by (rewrite <- Ha, <- Ho; exact Hav).
  pose proof (distance_positions_spec a' v' o' Hpos' Hav') as H'.
  cbv zeta in *.
  assert (Ef : Qfloor ((a - 2 * o) / v) = Qfloor ((a' - 2 * o') / v')).
  { apply Qfloor_comp. rewrite Ha, Hv, Ho. reflexivity. }
  rewrite Ef.
  assert (Hsym : forall l1 l2, eqQs l1 l2 -> eqQs l2 l1).
  { intros l1 l2 H. induction H; constructor; [symmetry|]; assumption. }
  eapply eqQs_trans; [|apply Hsym; exact H'].
  apply eqQs_map. intros i _. rewrite Ha, Hv, Ho. reflexivity.
Qed.

(** C1.  Distance-mode lighting layout: with [available = axisLimit -
    2*offset], [intervals = floor(available / value)], [span = intervals *
    value] and [start = offset + (available - span) / 2], a project in
    distance mode with [value > 0.01] and [available >= 0] gets the profile
    positions [start + i*value] for [i = 0 .. intervals]; with [value <= 0.01]
    or [available < 0] it gets none; and [axisLimit = 20], [offset = 2],
    [value = 5] gives 2.5, 7.5, 12.5, 17.5. *)
Theorem distance_mode_layout (d : ProjectData) :
  mode (lighting d) = Distance ->
  let v := value (lighting d) in
  let off := offset (lighting d) in
  let axisLimit :=
    match orientation (lighting d) with
    | Longitudinal => pWidth d
    | Transversal => pLength d
    end in
  let available := axisLimit - 2 * off in
  let intervals := Qfloor (available / v) in
  let span := inject_Z intervals * v in
  let start := off + (available - span) / 2 in
  (0.01 < v -> 0 <= available ->
   eqQs (Current.sceneProfilePositions d)
        (map (fun i : nat => start + inject_Z (Z.of_nat i) * v)
             (seq 0 (Z.to_nat intervals + 1))))
  /\ (v <= 0.01 \/ available < 0 -> Current.sceneProfilePositions d = [])
  /\ (axisLimit == 20 -> off == 2 -> v == 5 ->
      eqQs (Current.sceneProfilePositions d) [2.5; 7.5; 12.5; 17.5]).
Proof.
  intros Hm v off axisLimit available intervals span start.
  unfold Current.sceneProfilePositions, Current.profilePositions.
  rewrite Hm, current_axisLimit. fold axisLimit v off.
  split; [|split].
  - intros Hv Ha. apply distance_positions_spec; assumption.
  - intro H. apply distance_positions_none. exact H.
  - intros Ea Eo Ev.
    eapply eqQs_trans.
    + apply (distance_positions_compat axisLimit 20 v 5 off 2 Ea Ev Eo).
      * rewrite Ev. reflexivity.
      * rewrite Ea, Eo. discriminate.
    + vm_compute. repeat constructor.
Qed.

(** The default project on a 20 m by 30 m site: the example of C1. *)
Lemma distance_mode_layout_witness :
  let d := IndustrialApp.set_dims DEFAULT_PROJECT 20 30 in
  mode (lighting d) = Distance
  /\ 0.01 < value (lighting d)
  /\ 0 <= pWidth d - 2 * offset (lighting d)
  /\ eqQs (Current.sceneProfilePositions d)
          [5 # 2; 15 # 2; 25 # 2; 35 # 2]
  /\ eqQs (Current.sceneProfilePositions d) [2.5; 7.5; 12.5; 17.5].
Proof.
  intro d.
  pose proof (distance_mode_layout d eq_refl) as H.
  cbv zeta in H. destruct H as [H1 [_ H3]].
  split; [reflexivity|]. split; [reflexivity|]. split; [discriminate|].
  split.
  - eapply eqQs_trans; [apply H1; [reflexivity | discriminate]|].
    vm_compute. repeat constructor.
  - apply H3; reflexivity.
Defined.

(** Quantity mode, as computed from the three numbers. *)
Lemma quantity_positions_one (axisLimit v off : Q) :
  v == 1 -> Current.quantity_positions axisLimit v off = [axisLimit / 2].
Proof.
  intro Hv. unfold Current.quantity_positions.
  replace (Qle_bool 1 v) with true
    by (symmetry; apply Qle_bool_iff; rewrite Hv; apply Qle_refl).
  replace (Qeq_bool v 1) with true
    by (symmetry; apply Qeq_bool_iff; exact Hv).
  reflexivity.
Qed.

Lemma quantity_positions_many (axisLimit v off : Q) (n : Z) :
  (1 < n)%Z -> v == inject_Z n ->
  eqQs (Current.quantity_positions axisLimit v off)
       (map (fun i : nat =>
               off + inject_Z (Z.of_nat i) * (axisLimit - 2 * off) / (v - 1))
            (seq 0 (Z.to_nat n))).
Proof.
  intros Hn Hv.
  assert (H1 : 1 < v).
  { rewrite Hv. change 1 with (inject_Z 1). rewrite <- Zlt_Qlt. exact Hn. }
  unfold Current.quantity_positions.
  replace (Qle_bool 1 v) with true
    by (symmetry; apply Qle_bool_iff; apply Qlt_le_weak; exact H1).
  replace (Qeq_bool v 1) with false
    by (symmetry; apply Qeq_bool_false; intro E; rewrite E in H1;
        exact (Qlt_irrefl _ H1)).
  rewrite (for_loop_unit n v Hv), map_map.
  apply eqQs_map. intros i _. field. lra.
Qed.

(** C2 (amended).  Quantity-mode lighting layout: [value = 1] gives the
    single profile [axisLimit / 2]; an integer [value > 1] gives exactly
    [value] profiles, at [offset + i * (axisLimit - 2*offset) / (value - 1)]
    for [i = 0 .. value-1]; and [value = 3], [offset = 2], [axisLimit = 20]
    gives 2, 10, 18. *)
Theorem quantity_mode_layout (d : ProjectData) :
  mode (lighting d) = Quantity ->
  let v := value (lighting d) in
  let off := offset (lighting d) in
  let axisLimit :=
    match orientation (lighting d) with
    | Longitudinal => pWidth d
    | Transversal => pLength d
    end in
  (v == 1 -> Current.sceneProfilePositions d = [axisLimit / 2])
  /\ (forall n : Z, (1 < n)%Z -> v == inject_Z n ->
      List.length (Current.sceneProfilePositions d) = Z.to_nat n
      /\ eqQs (Current.sceneProfilePositions d)
              (map (fun i : nat =>
                      off + inject_Z (Z.of_nat i) * (axisLimit - 2 * off) / (v - 1))
                   (seq 0 (Z.to_nat n))))
  /\ (axisLimit == 20 -> off == 2 -> v == 3 ->
      eqQs (Current.sceneProfilePositions d) [2; 10; 18]).
Proof.
  intros Hm v off axisLimit.
  unfold Current.sceneProfilePositions, Current.profilePositions.
  rewrite Hm, current_axisLimit. fold axisLimit v off.
  assert (Hmany : forall n : Z, (1 < n)%Z -> v == inject_Z n ->
            eqQs (Current.quantity_positions axisLimit v off)
              (map (fun i : nat =>
                      off + inject_Z (Z.of_nat i) * (axisLimit - 2 * off) / (v - 1))
                   (seq 0 (Z.to_nat n))))
    by (intros n Hn Hv; apply quantity_positions_many; assumption).
  split; [|split].
  - apply quantity_positions_one.
  - intros n Hn Hv. split; [|apply Hmany; assumption].
    pose proof (Hmany n Hn Hv) as H.
    apply Forall2_length in H. rewrite H, length_map, length_seq. reflexivity.
  - intros Ea Eo Ev.
    eapply eqQs_trans; [apply (Hmany 3%Z); [lia | exact Ev]|].
    simpl map. repeat constructor; rewrite Ea, Eo, Ev; vm_compute; reflexivity.
Qed.

Lemma quantity_mode_layout_witness :
  mode (lighting three_profiles) = Quantity
  /\ value (lighting three_profiles) == inject_Z 3
  /\ List.length (Current.sceneProfilePositions three_profiles) = 3%nat
  /\ eqQs (Current.sceneProfilePositions three_profiles) [2; 10; 18].
Proof.
  pose proof (quantity_mode_layout three_profiles eq_refl) as H.
  cbv zeta in H. destruct H as [_ [H2 H3]].
  split; [reflexivity|]. split; [reflexivity|].
  split.
  - apply (H2 3%Z); [lia | reflexivity].
  - apply H3; reflexivity.
Defined.

(** The positions stated by C2 for that example, 2, 11, 20, are not the
    ones computed. *)
Lemma quantity_mode_example_counterexample :
  mode (lighting three_profiles) = Quantity
  /\ Current.axisLimit three_profiles == 20
  /\ offset (lighting three_profiles) == 2
  /\ value (lighting three_profiles) == 3
  /\ ~ eqQs (Current.sceneProfilePositions three_profiles) [2; 11; 20].
Proof.
  repeat (split; [reflexivity|]).
  intro H. vm_compute in H.
  inversion H as [|a b l1 l2 _ H1]; subst; clear H.
  inversion H1 as [|a b l1 l2 H2 _]; subst; clear H1.
  discriminate H2.
Qed.

(** C6.  The legacy and the current renderer compute the same profile
    positions for every project in quantity mode; in distance mode they
    differ on a project with [axisLimit = 20], [offset = 2], [value = 5],
    where the legacy stepping gives 2, 7, 12, 17 and the current centering
    gives 2.5, 7.5, 12.5, 17.5. *)
Theorem lighting_variants :
  (forall d : ProjectData,
     mode (lighting d) = Quantity ->
     Legacy.sceneProfilePositions d = Current.sceneProfilePositions d)
  /\ (exists d : ProjectData,
        mode (lighting d) = Distance
        /\ Current.axisLimit d == 20 /\ Legacy.axisLimit d == 20
        /\ offset (lighting d) == 2 /\ value (lighting d) == 5
        /\ eqQs (Legacy.sceneProfilePositions d) [2; 7; 12; 17]
        /\ eqQs (Current.sceneProfilePositions d) [2.5; 7.5; 12.5; 17.5]
        /\ ~ eqQs (Legacy.sceneProfilePositions d)
                  (Current.sceneProfilePositions d)).
Proof.
  split.
  - intros d Hm.
    unfold Legacy.sceneProfilePositions, Current.sceneProfilePositions,
      Legacy.profilePositions, Current.profilePositions,
      Legacy.axisLimit, Current.axisLimit,
      Legacy.isLongitudinal, Current.isLongitudinal.
    rewrite Hm.
    unfold Legacy.quantity_positions, Current.quantity_positions.
    destruct (orientation (lighting d)); reflexivity.
  - exists (IndustrialApp.set_dims DEFAULT_PROJECT 20 30).
    repeat (split; [reflexivity|]).
    split; [vm_compute; repeat constructor|].
    split; [vm_compute; repeat constructor|].
    intro H. vm_compute in H.
    inversion H as [|a b l1 l2 H1 _]; subst. discriminate H1.
Qed.

Lemma lighting_variants_witness :
  mode (lighting three_profiles) = Quantity
  /\ Legacy.sceneProfilePositions three_profiles
     = Current.sceneProfilePositions three_profiles.
Proof.
  split; [reflexivity|].
  apply (proj1 lighting_variants three_profiles). reflexivity.
Defined.

(** ** Unit/pixel transform *)

Lemma or_default_nonzero (x d : Q) : ~ x == 0 -> JS.or_default x d = x.
Proof.
  intro H. unfold JS.or_default.
  replace (Qeq_bool x 0) with false by (symmetry; apply Qeq_bool_false; exact H).
  reflexivity.
Qed.

(** The mouse handlers recompute the metrics the renderer used. *)
Lemma getMetrics_sceneMetrics (p : Canvas.Props) (st : Canvas.State) :
  Canvas.getMetrics p st
  = sceneMetrics (Canvas.data p) (Canvas.canvasWidth p) (Canvas.canvasHeight p)
                 (Canvas.transform st).
Proof. reflexivity. Qed.

Lemma div_pos_sign (a w : Q) : 0 < w -> a == (a / w) * w.
Proof. intro H. field. lra. Qed.

(** C7.  Fit invariant: on a site with positive width and length, in a
    viewport wider and higher than twice the padding, at zoom 1, the scale
    is [min((pixelWidth - 2*padding)/width, (pixelHeight - 2*padding)/length)]
    and the drawn site fits: [drawWidth <= pixelWidth - 2*padding] and
    [drawLength <= pixelHeight - 2*padding]. *)
Theorem fit_invariant (data : CanvasData) (pixelWidth pixelHeight : Q)
    (t : Transform) :
  0 < dataWidth data -> 0 < dataLength data ->
  2 * padding < pixelWidth -> 2 * padding < pixelHeight ->
  tScale t == 1 ->
  let m := sceneMetrics data pixelWidth pixelHeight t in
  scale m == Qmin ((pixelWidth - 2 * padding) / dataWidth data)
                  ((pixelHeight - 2 * padding) / dataLength data)
  /\ drawWidth m == dataWidth data * scale m
  /\ drawLength m == dataLength data * scale m
  /\ drawWidth m <= pixelWidth - 2 * padding
  /\ drawLength m <= pixelHeight - 2 * padding.
Proof.
  intros Hw Hl Hpw Hph Hs m.
  assert (Hw0 : ~ dataWidth data == 0) by lra.
  assert (Hl0 : ~ dataLength data == 0) by lra.
  unfold m, sceneMetrics. cbn [scale drawWidth drawLength].
  rewrite (or_default_nonzero _ 1 Hw0), (or_default_nonzero _ 1 Hl0).
  unfold JS.Math_min.
  set (w := dataWidth data) in *. set (l := dataLength data) in *.
  assert (Ea : (pixelWidth - padding * 2) / w == (pixelWidth - 2 * padding) / w)
    by (field; exact Hw0).
  assert (Eb : (pixelHeight - padding * 2) / l == (pixelHeight - 2 * padding) / l)
    by (field; exact Hl0).
  rewrite Ea, Eb, Hs.
  set (a := (pixelWidth - 2 * padding) / w).
  set (b := (pixelHeight - 2 * padding) / l).
  assert (Ha : pixelWidth - 2 * padding == a * w) by (apply div_pos_sign; exact Hw).
  assert (Hb : pixelHeight - 2 * padding == b * l) by (apply div_pos_sign; exact Hl).
  pose proof (Q.le_min_l a b) as Hla.
  pose proof (Q.le_min_r a b) as Hlb.
  split; [ring|]. split; [reflexivity|]. split; [reflexivity|].
  split.
  - rewrite Ha. rewrite Qmult_1_r, (Qmult_comm a w).
    apply Qmult_le_l; assumption.
  - rewrite Hb. rewrite Qmult_1_r, (Qmult_comm b l).
    apply Qmult_le_l; assumption.
Qed.

Lemma fit_invariant_witness :
  let m := sceneMetrics (IndustrialData (IndustrialApp.set_dims DEFAULT_PROJECT 40 20))
                        900 700 (mkTransform 1 0 0) in
  scale m == 19.5 /\ drawWidth m <= 900 - 2 * padding
  /\ drawLength m <= 700 - 2 * padding.
Proof.
  intro m.
  pose proof (fit_invariant
                (IndustrialData (IndustrialApp.set_dims DEFAULT_PROJECT 40 20))
                900 700 (mkTransform 1 0 0)) as H.
  cbv zeta in H.
  destruct H as [_ [_ [_ [H1 H2]]]]; try reflexivity.
  split; [reflexivity|]. split; assumption.
Defined.

(** The scale vanishes exactly when the smaller margin-free side of the
    viewport is zero. *)
Lemma scale_nonzero (data : CanvasData) (pixelWidth pixelHeight : Q)
    (t : Transform) :
  0 < dataWidth data -> 0 < dataLength data -> 0 < tScale t ->
  ~ Qmin (pixelWidth - 2 * padding) (pixelHeight - 2 * padding) == 0 ->
  ~ scale (sceneMetrics data pixelWidth pixelHeight t) == 0.
Proof.
  intros Hw Hl Hs Hmin Hz.
  assert (Hw0 : ~ dataWidth data == 0) by lra.
  assert (Hl0 : ~ dataLength data == 0) by lra.
  unfold sceneMetrics in Hz. cbn [scale] in Hz.
  rewrite (or_default_nonzero _ 1 Hw0), (or_default_nonzero _ 1 Hl0) in Hz.
  unfold JS.Math_min in Hz.
  set (w := dataWidth data) in *. set (l := dataLength data) in *.
  assert (Ea : (pixelWidth - padding * 2) / w == (pixelWidth - 2 * padding) / w)
    by (field; exact Hw0).
  assert (Eb : (pixelHeight - padding * 2) / l == (pixelHeight - 2 * padding) / l)
    by (field; exact Hl0).
  rewrite Ea, Eb in Hz.
  set (aw := pixelWidth - 2 * padding) in *.
  set (ah := pixelHeight - 2 * padding) in *.
  assert (Hm0 : Qmin (aw / w) (ah / l) == 0).
  { destruct (Qmult_integral _ _ Hz) as [E | E]; [exact E | lra]. }
  pose proof (div_pos_sign aw w Hw) as Haw.
  pose proof (div_pos_sign ah l Hl) as Hah.
  apply Hmin.
  destruct (Q.min_spec (aw / w) (ah / l)) as [[Hlt E] | [Hle E]];
    rewrite E in Hm0.
  - assert (Z1 : aw == 0) by (rewrite Haw, Hm0; ring).
    assert (P : 0 < ah).
    { rewrite Hah. apply Qmult_lt_0_compat; [lra | exact Hl]. }
    destruct (Q.min_spec aw ah) as [[_ E'] | [Hc _]]; [rewrite E'; exact Z1 | lra].
  - assert (Z1 : ah == 0) by (rewrite Hah, Hm0; ring).
    assert (P : 0 <= aw).
    { rewrite Haw. apply Qmult_le_0_compat; [lra | lra]. }
    destruct (Q.min_spec aw ah) as [[Hc _] | [_ E']]; [lra | rewrite E'; exact Z1].
Qed.

(** C3 (amended).  Round trip of the unit/pixel transform: on a site with
    positive width and length, with a zoom in [0.5, 10] and a viewport whose
    smaller margin-free side [min(pixelWidth, pixelHeight) - 2*padding] is
    not zero, mapping a point of the site to pixels as the renderer does and
    back to meters as the mouse handler does returns the point. *)
Theorem transform_round_trip (p : Canvas.Props) (st : Canvas.State)
    (mx my : Q) :
  0 < dataWidth (Canvas.data p) -> 0 < dataLength (Canvas.data p) ->
  0.5 <= tScale (Canvas.transform st) <= 10 ->
  ~ Qmin (Canvas.canvasWidth p - 2 * padding)
         (Canvas.canvasHeight p - 2 * padding) == 0 ->
  0 <= mx <= dataWidth (Canvas.data p) ->
  0 <= my <= dataLength (Canvas.data p) ->
  let drawn := sceneMetrics (Canvas.data p) (Canvas.canvasWidth p)
                            (Canvas.canvasHeight p) (Canvas.transform st) in
  let metrics := Canvas.getMetrics p st in
  exists mx' my',
    Canvas.toMeters (getX drawn mx) (originX metrics) (scale metrics) = Some mx'
    /\ Canvas.toMeters (getY drawn my) (originY metrics) (scale metrics) = Some my'
    /\ mx' == mx /\ my' == my.
Proof.
  intros Hw Hl [Hlo Hhi] Hmin _ _ drawn metrics.
  assert (Hs : ~ scale drawn == 0).
  { apply scale_nonzero; try assumption. lra. }
  unfold metrics. rewrite getMetrics_sceneMetrics. fold drawn.
  unfold Canvas.toMeters, JS.div.
  replace (Qeq_bool (scale drawn) 0) with false
    by (symmetry; apply Qeq_bool_false; exact Hs).
  eexists; eexists. split; [reflexivity|]. split; [reflexivity|].
  unfold getX, getY, toPx. split; field; exact Hs.
Qed.

Lemma transform_round_trip_witness :
  let p := IndustrialApp.canvasProps
             (IndustrialApp.run IndustrialApp.initial
                [IndustrialApp.SetField (IndustrialApp.FWidth 40);
                 IndustrialApp.SetField (IndustrialApp.FLength 20)]) in
  let m := Canvas.getMetrics p Canvas.initial in
  exists mx' my',
    Canvas.toMeters (getX m 3) (originX m) (scale m) = Some mx'
    /\ Canvas.toMeters (getY m 7) (originY m) (scale m) = Some my'
    /\ mx' == 3 /\ my' == 7.
Proof.
  intros p m.
  apply (transform_round_trip p Canvas.initial 3 7);
    vm_compute; try (split; discriminate); try reflexivity;
    try discriminate.
Defined.

(** A viewport exactly as wide as twice the padding gives scale 0: every
    point is drawn at the origin and the way back to meters is a division by
    zero. *)
Lemma transform_round_trip_counterexample :
  let p := Canvas.mkProps
             (IndustrialData (IndustrialApp.set_dims DEFAULT_PROJECT 10 10))
             120 400 true View2D true in
  let st := Canvas.initial in
  let drawn := sceneMetrics (Canvas.data p) (Canvas.canvasWidth p)
                            (Canvas.canvasHeight p) (Canvas.transform st) in
  let metrics := Canvas.getMetrics p st in
  0 < dataWidth (Canvas.data p) /\ 0 < dataLength (Canvas.data p)
  /\ 0.5 <= tScale (Canvas.transform st) <= 10
  /\ 0 <= 5 <= dataWidth (Canvas.data p)
  /\ scale metrics == 0
  /\ getX drawn 5 == 60
  /\ Canvas.toMeters (getX drawn 5) (originX metrics) (scale metrics) = None.
Proof.
  vm_compute. repeat split; discriminate.
Qed.

(** The zoom stays within [0.5, 10] whatever the user does. *)
Lemma view_scale_bounds (p : Canvas.Props) (st : Canvas.State)
    (a : Canvas.ViewAction) :
  0.5 <= tScale (Canvas.transform st) <= 10 ->
  0.5 <= tScale (Canvas.transform (Canvas.view_step p st a)) <= 10.
Proof.
  intros [Hlo Hhi]. destruct a; cbn [Canvas.view_step].
  - unfold Canvas.handleMouseDown.
    destruct (Canvas.viewMode p); [|split; assumption].
    destruct (_ || _); [split; assumption|].
    destruct (negb _); [split; assumption|].
    destruct (find _ _); split; assumption.
  - unfold Canvas.handleMouseMove.
    destruct (Canvas.viewMode p); [|split; assumption].
    destruct (Canvas.isPanning st); [split; assumption|].
    destruct (negb _); [split; assumption|].
    destruct (Canvas.dragTarget st); [destruct (Canvas.onRackMove p)|];
      try (split; assumption).
    destruct (Canvas.toMeters _ _ _); [destruct (Canvas.toMeters _ _ _)|];
      (destruct (find _ _); [destruct (mode_of _)|]); split; assumption.
  - split; assumption.
  - unfold Canvas.handleWheel.
    destruct (Canvas.viewMode p); [|split; assumption].
    cbn [Canvas.transform tScale]. unfold JS.Math_min, JS.Math_max.
    split.
    + apply Q.min_glb; [apply Q.le_max_l | discriminate].
    + apply Q.le_min_r.
  - cbn. unfold JS.Math_min. split.
    + apply Q.min_glb; [|discriminate].
      apply Qle_trans with (tScale (Canvas.transform st)); [exact Hlo|].
      assert (0 <= tScale (Canvas.transform st)) by lra. lra.
    + apply Q.le_min_r.
  - cbn. unfold JS.Math_max. split.
    + apply Q.le_max_r.
    + apply Q.max_lub; [|discriminate].
      apply Qle_shift_div_r; [reflexivity|]. lra.
  - cbn. split; discriminate.
Qed.

(** ** Drag: snap and clamp *)

Lemma clamp_facts (s b : Q) :
  let r := JS.Math_max 0 (JS.Math_min s b) in
  0 <= r
  /\ (0 <= b -> r <= b)
  /\ (r == s \/ r == b \/ r == 0).
Proof.
  intro r. unfold r, JS.Math_max, JS.Math_min.
  destruct (Q.max_spec 0 (Qmin s b)) as [[H1 E1] | [H1 E1]];
    destruct (Q.min_spec s b) as [[H2 E2] | [H2 E2]];
    rewrite E1; rewrite ?E2 in *;
    (split; [lra | split; [intro; lra | ]]); auto using Qeq_refl.
Qed.

Lemma clamp_general (lo s hi : Q) :
  let r := JS.Math_max lo (JS.Math_min s hi) in
  lo <= r
  /\ (lo <= hi -> r <= hi)
  /\ (r == s \/ r == hi \/ r == lo).
Proof.
  intro r. unfold r, JS.Math_max, JS.Math_min.
  destruct (Q.max_spec lo (Qmin s hi)) as [[H1 E1] | [H1 E1]];
    destruct (Q.min_spec s hi) as [[H2 E2] | [H2 E2]];
    rewrite E1; rewrite ?E2 in *;
    (split; [lra | split; [intro; lra | ]]); auto using Qeq_refl.
Qed.

Lemma on_half_grid_compat (a b : Q) : a == b -> on_half_grid b -> on_half_grid a.
Proof. intros E [k Hk]. exists k. rewrite E. exact Hk. Qed.

(** The clamp of a snapped rational. *)
Lemma report_finite (s lo hi : Q) :
  on_half_grid s -> on_half_grid lo ->
  clamped_report (JS.Fin (JS.Math_max lo (JS.Math_min s hi))) lo hi.
Proof.
  intros Hs Hlo. destruct (clamp_general lo s hi) as [C1 [C2 C3]].
  cbv zeta in C1, C2, C3. cbn [clamped_report].
  split; [exact C1|]. split; [exact C2|].
  destruct C3 as [E | [E | E]].
  - left. exact (on_half_grid_compat _ _ E Hs).
  - right. exact E.
  - left. exact (on_half_grid_compat _ _ E Hlo).
Qed.

(** The clamp of what a division by a zero scale gives: [lo] for
    [-Infinity], the larger of [lo] and [hi] for [Infinity], [NaN] for
    [NaN], which comes from a dividend that is zero too. *)
Lemma report_zero_scale (a : Q) (negzero : bool) (lo hi : Q) :
  on_half_grid lo ->
  let n := JS.Math_max_num lo
             (JS.Math_min_num
                (JS.snap_num Canvas.SNAP_INCREMENT (JS.div_by_zero a negzero))
                hi) in
  clamped_report n lo hi /\ (n = JS.NaN <-> a == 0).
Proof.
  intros Hlo n. unfold n, JS.div_by_zero.
  destruct (Qeq_bool a 0) eqn:Ea.
  - apply Qeq_bool_iff in Ea. cbn. split; [exact I | tauto].
  - apply Qeq_bool_false in Ea.
    destruct (xorb (JS.Qlt_bool a 0) negzero);
      cbn [JS.snap_num JS.Math_min_num JS.Math_max_num clamped_report].
    + split; [|split; [discriminate | tauto]].
      split; [apply Qle_refl|]. split; [tauto|]. left. exact Hlo.
    + split; [|split; [discriminate | tauto]].
      unfold JS.Math_max.
      destruct (Q.max_spec lo hi) as [[H1 E1] | [H1 E1]].
      * split; [rewrite E1; lra|]. split; [intro; rewrite E1; lra|].
        right. exact E1.
      * split; [rewrite E1; lra|]. split; [intro; rewrite E1; lra|].
        left. exact (on_half_grid_compat _ _ E1 Hlo).
Qed.

Lemma snapped_on_grid (q : Q) :
  on_half_grid (inject_Z (JS.Math_round (q / Canvas.SNAP_INCREMENT))
                * Canvas.SNAP_INCREMENT).
Proof. eexists. reflexivity. Qed.

Lemma drag_lo_on_grid (data : CanvasData) : on_half_grid (drag_lo data).
Proof.
  unfold drag_lo. destruct (mode_of data);
    [exists 0%Z | exists (-100)%Z]; reflexivity.
Qed.

(** Every call of the move callback, at any scale: who is moved, and what
    is passed. *)
Lemma drag_report_spec (p : Canvas.Props) (st : Canvas.State)
    (e : Canvas.MouseEvent) (id0 : string) (nx ny : JS.Num) :
  Canvas.reported (Canvas.handleMouseMove p st e) = Some (id0, nx, ny) ->
  let m := Canvas.getMetrics p st in
  Canvas.viewMode p = View2D /\ Canvas.isInteractive p = true
  /\ Canvas.isPanning st = false /\ Canvas.onRackMove p = true
  /\ exists target obj,
       Canvas.dragTarget st = Some target /\ id0 = dragId target
       /\ find (fun r => String.eqb (id r) id0) (getObjects (Canvas.data p))
          = Some obj
       /\ clamped_report nx (drag_lo (Canvas.data p))
                         (drag_hiX (Canvas.data p) obj)
       /\ clamped_report ny (drag_lo (Canvas.data p))
                         (drag_hiY (Canvas.data p) obj)
       /\ (nx = JS.NaN
           <-> scale m == 0
               /\ Canvas.mouseX e - offsetX target - originX m == 0)
       /\ (ny = JS.NaN
           <-> scale m == 0
               /\ Canvas.mouseY e - offsetY target - originY m == 0).
Proof.
  intros H m. unfold Canvas.handleMouseMove in H. fold m in H. clearbody m.
  destruct (Canvas.viewMode p); [|discriminate H].
  destruct (Canvas.isPanning st); [discriminate H|].
  destruct (Canvas.isInteractive p); [|discriminate H]. cbn [negb] in H.
  destruct (Canvas.dragTarget st) as [target|]; [|discriminate H].
  destruct (Canvas.onRackMove p); [|discriminate H].
  repeat (split; [reflexivity|]).
  unfold Canvas.toMeters, JS.div in H.
  pose proof (drag_lo_on_grid (Canvas.data p)) as Hlo.
  unfold drag_lo, drag_hiX, drag_hiY in *.
  destruct (Qeq_bool (scale m) 0) eqn:Es.
  - apply Qeq_bool_iff in Es.
    destruct (find _ _) as [obj|] eqn:Hf; [|discriminate H].
    exists target, obj.
    destruct (mode_of (Canvas.data p)); cbn [Canvas.reported] in H;
      injection H as Hid Hx Hy; subst id0;
      (split; [reflexivity|]); (split; [reflexivity|]); (split; [exact Hf|]).
    + destruct (report_zero_scale
                  (Canvas.mouseX e - offsetX target - originX m)
                  (Canvas.scaleSign p st) 0
                  (dataWidth (Canvas.data p) - width obj) Hlo) as [Cx Nx].
      destruct (report_zero_scale
                  (Canvas.mouseY e - offsetY target - originY m)
                  (Canvas.scaleSign p st) 0
                  (dataLength (Canvas.data p) - depth obj) Hlo) as [Cy Ny].
      cbv zeta in Cx, Nx, Cy, Ny. rewrite Hx in Cx, Nx. rewrite Hy in Cy, Ny.
      split; [exact Cx|]. split; [exact Cy|]. split; tauto.
    + destruct (report_zero_scale
                  (Canvas.mouseX e - offsetX target - originX m)
                  (Canvas.scaleSign p st) (-50)
                  (dataWidth (Canvas.data p) + 50) Hlo) as [Cx Nx].
      destruct (report_zero_scale
                  (Canvas.mouseY e - offsetY target - originY m)
                  (Canvas.scaleSign p st) (-50)
                  (dataLength (Canvas.data p) + 50) Hlo) as [Cy Ny].
      cbv zeta in Cx, Nx, Cy, Ny. rewrite Hx in Cx, Nx. rewrite Hy in Cy, Ny.
      split; [exact Cx|]. split; [exact Cy|]. split; tauto.
  - apply Qeq_bool_false in Es.
    destruct (find _ _) as [obj|] eqn:Hf; [|discriminate H].
    exists target, obj.
    destruct (mode_of (Canvas.data p)); cbn [Canvas.reported] in H;
      injection H as Hid Hx Hy; subst id0 nx ny;
      (split; [reflexivity|]); (split; [reflexivity|]); (split; [exact Hf|]);
      (split; [apply report_finite; [apply snapped_on_grid | exact Hlo]|]);
      (split; [apply report_finite; [apply snapped_on_grid | exact Hlo]|]);
      split; (split; [discriminate | tauto]).
Qed.

(** C4 (amended).  Drag-move callback: whenever a drag update of the
    industrial variant calls the move callback with [(id, newX, newY)], the
    dragged object exists and each of [newX], [newY] is a number unless the
    scale is zero and, on that axis, the raw pixel position (the pointer
    less the grab offset) is the origin of the drawing; then it is [NaN].
    A reported number is at least 0; [newX <= site.width - object.width] when
    the object is not wider than the site, [newY <= site.length -
    object.depth] when it is not deeper; and it is a multiple of 0.5 or is
    the upper bound it was clamped to.  An object 2 m wide on a 10 m wide
    site dragged to raw [x = -5] is reported at 0, dragged to raw [x = 9]
    at 8. *)
Theorem drag_move_postcondition :
  (forall (p : Canvas.Props) (st : Canvas.State) (e : Canvas.MouseEvent)
          (d : ProjectData) (id0 : string) (newX newY : JS.Num),
     Canvas.data p = IndustrialData d ->
     Canvas.reported (Canvas.handleMouseMove p st e)
     = Some (id0, newX, newY) ->
     let m := Canvas.getMetrics p st in
     exists target obj,
       Canvas.dragTarget st = Some target /\ id0 = dragId target
       /\ find (fun r => String.eqb (id r) id0) (getObjects (Canvas.data p))
          = Some obj
       /\ clamped_report newX 0 (pWidth d - width obj)
       /\ clamped_report newY 0 (pLength d - depth obj)
       /\ (newX = JS.NaN
           <-> scale m == 0
               /\ Canvas.mouseX e - offsetX target - originX m == 0)
       /\ (newY = JS.NaN
           <-> scale m == 0
               /\ Canvas.mouseY e - offsetY target - originY m == 0))
  /\ (exists newX newY,
        Canvas.handleMouseMove clamp_props clamp_state (mouse_at (-5))
        = Canvas.Dragged (Some ("r1"%string, newX, newY)) /\ newX == 0)
  /\ (exists newX newY,
        Canvas.handleMouseMove clamp_props clamp_state (mouse_at 9)
        = Canvas.Dragged (Some ("r1"%string, newX, newY)) /\ newX == 8).
Proof.
  split; [|split].
  - intros p st e d id0 newX newY Hd H m.
    destruct (drag_report_spec p st e id0 newX newY H)
      as [_ [_ [_ [_ [target [obj [Ht [Hid [Hf [Cx [Cy [Nx Ny]]]]]]]]]]]].
    exists target, obj.
    unfold drag_lo, drag_hiX, drag_hiY in Cx, Cy. rewrite Hd in Cx, Cy.
    cbn [mode_of dataWidth dataLength] in Cx, Cy.
    repeat (split; [assumption|]). exact Ny.
  - eexists; eexists. split; [vm_compute; reflexivity | reflexivity].
  - eexists; eexists. split; [vm_compute; reflexivity | reflexivity].
Qed.

Lemma drag_move_postcondition_witness :
  exists newX newY,
    Canvas.reported
      (Canvas.handleMouseMove clamp_props clamp_state (mouse_at 9))
    = Some ("r1"%string, JS.Fin newX, JS.Fin newY)
    /\ newX == 8
    /\ exists target obj,
         Canvas.dragTarget clamp_state = Some target
         /\ "r1"%string = dragId target
         /\ find (fun r => String.eqb (id r) "r1")
                 (getObjects (Canvas.data clamp_props)) = Some obj
         /\ clamped_report (JS.Fin newX) 0 (10 - width obj)
         /\ clamped_report (JS.Fin newY) 0 (10 - depth obj).
Proof.
  eexists; eexists. split; [vm_compute; reflexivity|].
  split; [reflexivity|].
  destruct (proj1 drag_move_postcondition clamp_props clamp_state (mouse_at 9)
              (IndustrialApp.set_racks
                 (IndustrialApp.set_dims DEFAULT_PROJECT 10 10)
                 true [mkPlaced "r1" RACK 1 1 2 2 2 0 "B1"])
              "r1"%string _ _ eq_refl eq_refl)
    as [target [obj [Ht [Hid [Hf [Cx [Cy _]]]]]]].
  exists target, obj. repeat (split; [assumption|]). exact Cy.
Defined.

(** At a zero scale the callback is called all the same.  In the viewport
    of [zero_scale_props] a pointer right of and below the origin gives
    [Infinity] on both axes, which the clamp turns into (8, 8); a pointer at
    the origin gives [NaN] on both. *)
Example drag_at_zero_scale :
  scale (Canvas.getMetrics zero_scale_props clamp_state) == 0
  /\ (exists newX newY,
        Canvas.handleMouseMove zero_scale_props clamp_state
          (Canvas.mkMouse 0 0 100 300 0 false)
        = Canvas.DragNotFinite
            (Some ("r1"%string, JS.Fin newX, JS.Fin newY))
        /\ newX == 8 /\ newY == 8)
  /\ Canvas.handleMouseMove zero_scale_props clamp_state
       (Canvas.mkMouse 0 0 60 200 0 false)
     = Canvas.DragNotFinite (Some ("r1"%string, JS.NaN, JS.NaN)).
Proof.
  split; [reflexivity|]. split.
  - eexists; eexists. split; [vm_compute; reflexivity|]. split; reflexivity.
  - vm_compute. reflexivity.
Qed.

(** Pressing the mouse on the top-left corner of that rack and moving 9 m
    from the left wall reports [x = 8.8]: within bounds, but not on the
    0.5 m grid, because clamping comes after snapping. *)
Lemma drag_move_counterexample :
  let p := IndustrialApp.canvasProps one_default_rack in
  let st := Canvas.handleMouseDown p Canvas.initial
              (Canvas.mkMouse 218 118 218 118 0 false) in
  exists newX newY,
    Canvas.handleMouseMove p st (Canvas.mkMouse 682 118 682 118 0 false)
    = Canvas.Dragged (Some ("r1"%string, newX, newY))
    /\ newX == 8.8
    /\ ~ on_half_grid newX.
Proof.
  intros p st. eexists; eexists.
  split; [vm_compute; reflexivity|].
  split; [reflexivity|].
  intros [k Hk]. unfold Canvas.SNAP_INCREMENT, Qeq in Hk. simpl in Hk. lia.
Qed.

(** An object wider than its site is reported at 0, which lies above
    [site.width - object.width]: a 12 m wide rack on the 10 m site. *)
Example drag_move_wide_object :
  let p := Canvas.mkProps
             (IndustrialData
                (IndustrialApp.set_racks
                   (IndustrialApp.set_dims DEFAULT_PROJECT 10 10)
                   true [mkPlaced "r1" RACK 1 1 12 2 2 0 "B1"]))
             220 220 true View2D true in
  exists newX newY,
    Canvas.handleMouseMove p clamp_state (mouse_at 3)
    = Canvas.Dragged (Some ("r1"%string, newX, newY))
    /\ newX == 0 /\ 10 - 12 < newX.
Proof.
  intro p. eexists; eexists.
  split; [vm_compute; reflexivity|]. split; reflexivity.
Qed.

(** ** Nearest-neighbour gaps *)

Lemma vertOverlap_sym (a b : CanvasObject) : vertOverlap a b == vertOverlap b a.
Proof.
  unfold vertOverlap, JS.Math_max, JS.Math_min.
  rewrite (Q.min_comm (y a + depth a)), (Q.max_comm (y a)). reflexivity.
Qed.

Lemma visit_other_gaps (obj other : CanvasObject) (n : Nearest) :
  gaps_recorded obj n -> gaps_recorded obj (visit_other obj n other).
Proof.
  intros [HR HL]. unfold visit_other, gaps_recorded.
  split_ifs; cbn [closestRight closestLeft distRight distLeft
                  set_right set_left set_top set_bottom];
    (split; intros c Hc;
     [ first [ injection Hc as <-; reflexivity | apply HR; exact Hc ]
     | first [ injection Hc as <-; reflexivity | apply HL; exact Hc ] ]).
Qed.

Lemma nearestNeighbors_gaps (objects : list CanvasObject) (obj : CanvasObject) :
  gaps_recorded obj (nearestNeighbors objects obj).
Proof.
  unfold nearestNeighbors.
  generalize (filter (fun o => negb (String.eqb (id o) (id obj))) objects).
  intro others.
  assert (H0 : gaps_recorded obj nearest_init) by (split; intros c Hc; discriminate).
  revert H0. generalize nearest_init.
  induction others as [|o others IH]; intros n Hn; simpl.
  - exact Hn.
  - apply IH. apply visit_other_gaps. exact Hn.
Qed.

(** The first object visited to the right, or to the left, is recorded. *)
Lemma visit_first_right (obj other : CanvasObject) :
  0 < vertOverlap obj other -> x obj + width obj <= x other ->
  closestRight (visit_other obj nearest_init other) = Some other
  /\ distRight (visit_other obj nearest_init other)
     = Some (x other - (x obj + width obj)).
Proof.
  intros Hv Hx. unfold visit_other.
  replace (JS.Qlt_bool 0 (vertOverlap obj other)) with true
    by (symmetry; apply Qlt_bool_true; exact Hv).
  replace (Qle_bool (x obj + width obj) (x other)) with true
    by (symmetry; apply Qle_bool_iff; exact Hx).
  cbn [lt_dist distRight distLeft distTop distBottom nearest_init set_right].
  split_ifs; split; reflexivity.
Qed.

Lemma visit_first_left (obj other : CanvasObject) :
  0 < vertOverlap obj other -> x other + width other <= x obj ->
  closestLeft (visit_other obj nearest_init other) = Some other
  /\ distLeft (visit_other obj nearest_init other)
     = Some (x obj - (x other + width other)).
Proof.
  intros Hv Hx. unfold visit_other.
  replace (JS.Qlt_bool 0 (vertOverlap obj other)) with true
    by (symmetry; apply Qlt_bool_true; exact Hv).
  replace (Qle_bool (x other + width other) (x obj)) with true
    by (symmetry; apply Qle_bool_iff; exact Hx).
  destruct (Qle_bool (x obj + width obj) (x other));
    cbn [lt_dist distRight distLeft distTop distBottom nearest_init
         set_right set_left];
    split_ifs; split; reflexivity.
Qed.

Lemma others_of_pair (a b : CanvasObject) :
  id a <> id b ->
  (filter (fun o => negb (String.eqb (id o) (id a))) [a; b] = [b]
   /\ filter (fun o => negb (String.eqb (id o) (id a))) [b; a] = [b])
  /\ (filter (fun o => negb (String.eqb (id o) (id b))) [a; b] = [a]
      /\ filter (fun o => negb (String.eqb (id o) (id b))) [b; a] = [a]).
Proof.
  intro H. cbn [filter].
  rewrite !String.eqb_refl.
  assert (E1 : String.eqb (id b) (id a) = false)
    by (apply String.eqb_neq; intro E; apply H; symmetry; exact E).
  assert (E2 : String.eqb (id a) (id b) = false)
    by (apply String.eqb_neq; exact H).
  rewrite E1, E2. cbn. repeat split; reflexivity.
Qed.

(** C5.  Neighbour-gap symmetry: for two placed objects A and B whose
    Y-ranges overlap (with the epsilon tolerance) and whose X-ranges do not,
    B lying to the right of A, dragging A measures B as its right neighbour,
    dragging B measures A as its left neighbour, and both gaps are the same
    number, [B.x - (A.x + A.width)].  The same holds in any scene in which A
    and B pick each other as right and left neighbour.  For A = (0, 0, 2, 2)
    and B = (5, 0, 2, 2) both gaps are 3. *)
Theorem neighbor_gap_symmetry :
  (forall (A B : CanvasObject) (objects : list CanvasObject),
     id A <> id B ->
     0 < vertOverlap A B ->
     x A + width A <= x B ->
     objects = [A; B] \/ objects = [B; A] ->
     closestRight (nearestNeighbors objects A) = Some B
     /\ closestLeft (nearestNeighbors objects B) = Some A
     /\ distRight (nearestNeighbors objects A) = Some (x B - (x A + width A))
     /\ distLeft (nearestNeighbors objects B) = Some (x B - (x A + width A)))
  /\ (forall (A B : CanvasObject) (objects : list CanvasObject),
        closestRight (nearestNeighbors objects A) = Some B ->
        closestLeft (nearestNeighbors objects B) = Some A ->
        distRight (nearestNeighbors objects A) = Some (x B - (x A + width A))
        /\ distLeft (nearestNeighbors objects B) = Some (x B - (x A + width A)))
  /\ (exists gapRight gapLeft,
        distRight (nearestNeighbors [rack_A; rack_B] rack_A) = Some gapRight
        /\ distLeft (nearestNeighbors [rack_A; rack_B] rack_B) = Some gapLeft
        /\ gapRight == 3 /\ gapLeft == 3).
Proof.
  split; [|split].
  - intros A B objects Hid Hv Hx Hobjs.
    assert (Hv' : 0 < vertOverlap B A) by (rewrite <- vertOverlap_sym; exact Hv).
    destruct (others_of_pair A B Hid) as [[FA1 FA2] [FB1 FB2]].
    destruct (visit_first_right A B Hv Hx) as [R1 R2].
    destruct (visit_first_left B A Hv' Hx) as [L1 L2].
    unfold nearestNeighbors.
    destruct Hobjs as [-> | ->]; rewrite ?FA1, ?FA2, ?FB1, ?FB2;
      cbn [fold_left]; repeat split; assumption.
  - intros A B objects HR HL.
    split.
    + apply (proj1 (nearestNeighbors_gaps objects A)). exact HR.
    + apply (proj2 (nearestNeighbors_gaps objects B)). exact HL.
  - eexists; eexists. split; [vm_compute; reflexivity|].
    split; [vm_compute; reflexivity|]. split; reflexivity.
Qed.

Lemma neighbor_gap_symmetry_witness :
  (closestRight (nearestNeighbors [rack_A; rack_B] rack_A) = Some rack_B
   /\ closestLeft (nearestNeighbors [rack_A; rack_B] rack_B) = Some rack_A
   /\ distRight (nearestNeighbors [rack_A; rack_B] rack_A)
      = Some (x rack_B - (x rack_A + width rack_A))
   /\ distLeft (nearestNeighbors [rack_A; rack_B] rack_B)
      = Some (x rack_B - (x rack_A + width rack_A)))
  /\ (distRight (nearestNeighbors [rack_B; rack_A] rack_A)
      = Some (x rack_B - (x rack_A + width rack_A))
      /\ distLeft (nearestNeighbors [rack_B; rack_A] rack_B)
         = Some (x rack_B - (x rack_A + width rack_A))).
Proof.
  split.
  - apply (proj1 neighbor_gap_symmetry rack_A rack_B [rack_A; rack_B]).
    + discriminate.
    + reflexivity.
    + discriminate.
    + left. reflexivity.
  - apply (proj1 (proj2 neighbor_gap_symmetry) rack_A rack_B [rack_B; rack_A]);
      reflexivity.
Defined.

(** ** Degenerate site *)

(** C8.  Degenerate site: when the site width or length is not positive,
    the 2D render makes exactly two drawing calls, the background fill and
    the placeholder message, and returns its metrics: no floor, grid, wall,
    dimension, lighting or object geometry; the render is a total function,
    so nothing is raised. *)
Theorem degenerate_site_placeholder
    (textWidth : Text -> Q) (data : CanvasData)
    (dragTarget : option DragTarget) (width height : Q) (t : Transform) :
  dataWidth data <= 0 \/ dataLength data <= 0 ->
  drawScene2D textWidth data dragTarget width height t
  = ([ fillRect 0 0 width height;
       fillText (Lit "Defina as dimensões") (width / 2) (height / 2) ],
     sceneMetrics data width height t).
Proof.
  intro H. unfold drawScene2D.
  replace (Qle_bool (dataWidth data) 0 || Qle_bool (dataLength data) 0)
    with true; [reflexivity|].
  symmetry. apply orb_true_iff.
  destruct H as [H | H]; [left | right]; apply Qle_bool_iff; exact H.
Qed.

Lemma degenerate_site_placeholder_witness :
  fst (drawScene2D (fun _ => 40) (IndustrialData DEFAULT_PROJECT) None
                   900 700 (mkTransform 1 0 0))
  = [ fillRect 0 0 900 700;
      fillText (Lit "Defina as dimensões") (900 / 2) (700 / 2) ].
Proof.
  rewrite (degenerate_site_placeholder (fun _ => 40)
             (IndustrialData DEFAULT_PROJECT) None 900 700 (mkTransform 1 0 0)).
  - reflexivity.
  - left. discriminate.
Defined.

(** On a defined site the render goes on: the default project on a 20 m by
    10 m site draws the floor, the grid, the walls, the two global
    dimensions and the four default profiles. *)
Example defined_site_draws :
  map Qred_call
    (fst (drawScene2D (fun _ => 40)
            (IndustrialData (IndustrialApp.set_dims DEFAULT_PROJECT 20 10))
            None 900 700 (mkTransform 1 0 0)))
  = [ fillRect 0 0 900 700;
      fillRect 60 155 780 390; beginPath;
      moveTo 255 155; lineTo 255 545; moveTo 450 155; lineTo 450 545;
      moveTo 645 155; lineTo 645 545; moveTo 60 350; lineTo 840 350;
      stroke; strokeRect 60 155 780 390;
      beginPath; moveTo 60 125; lineTo 840 125; stroke;
      fillText (Meters 20) 450 120;
      beginPath; moveTo 30 155; lineTo 30 545; stroke;
      save; translate 20 350; rotateQuarterBack;
      fillText (Meters 10) 0 0; restore;
      beginPath;
      moveTo (315 # 2) 155; lineTo (315 # 2) 545;
      moveTo (705 # 2) 155; lineTo (705 # 2) 545;
      moveTo (1095 # 2) 155; lineTo (1095 # 2) 545;
      moveTo (1485 # 2) 155; lineTo (1485 # 2) 545; stroke ].
Proof. vm_compute. reflexivity. Qed.

(** ** The object collection *)

Lemma add_rejected (fresh : string) (s : IndustrialApp.State) :
  pending_width s <= 0 \/ pending_depth s <= 0 ->
  IndustrialApp.handleAddObject fresh s = s.
Proof.
  unfold pending_width, pending_depth, IndustrialApp.handleAddObject.
  intro H.
  destruct (IndustrialApp.inputMode s);
    match goal with
    | |- (if ?c then _ else _) = _ => replace c with true; [reflexivity|]
    end;
    symmetry; apply orb_true_iff;
    (destruct H as [H | H]; [left | right]; apply Qle_bool_iff; exact H).
Qed.

Lemma add_accepted (fresh : string) (s : IndustrialApp.State) :
  0 < pending_width s -> 0 < pending_depth s ->
  exists b : RackBlock,
    racks_of (IndustrialApp.handleAddObject fresh s) = racks_of s ++ [b]
    /\ id b = fresh /\ width b = pending_width s /\ depth b = pending_depth s
    /\ x b = 1 /\ y b = 1.
Proof.
  unfold pending_width, pending_depth, IndustrialApp.handleAddObject, racks_of.
  intros Hw Hd.
  destruct (IndustrialApp.inputMode s);
    match goal with
    | |- context [if ?c then s else _] => replace c with false
    end;
    try (eexists; cbn; repeat split; reflexivity);
    symmetry; apply orb_false_iff; split; apply Qle_bool_false; assumption.
Qed.

Lemma add_preserves (fresh : string) (s : IndustrialApp.State) :
  IndustrialApp.footprints_ok s ->
  IndustrialApp.footprints_ok (IndustrialApp.handleAddObject fresh s).
Proof.
  intro H.
  destruct (Qlt_le_dec 0 (pending_width s)) as [Hw | Hw];
    [destruct (Qlt_le_dec 0 (pending_depth s)) as [Hd | Hd]|].
  - destruct (add_accepted fresh s Hw Hd) as [b [E [_ [Ew [Ed _]]]]].
    unfold IndustrialApp.footprints_ok. fold (racks_of (IndustrialApp.handleAddObject fresh s)).
    rewrite E. apply Forall_app. split; [exact H|].
    constructor; [|constructor].
    unfold IndustrialApp.positive_footprint. rewrite Ew, Ed. split; assumption.
  - rewrite add_rejected; [exact H | right; exact Hd].
  - rewrite add_rejected; [exact H | left; exact Hw].
Qed.

Lemma move_preserves (id0 : string) (x0 y0 : Q) (s : IndustrialApp.State) :
  IndustrialApp.footprints_ok s ->
  IndustrialApp.footprints_ok (IndustrialApp.handleRackMove id0 x0 y0 s).
Proof.
  unfold IndustrialApp.footprints_ok, IndustrialApp.handleRackMove. cbn.
  intro H. induction H as [|r rs Hr _ IH]; cbn; constructor; [|exact IH].
  destruct (String.eqb (id r) id0); exact Hr.
Qed.

Lemma relabel_preserves (id0 newLabel : string) (s : IndustrialApp.State) :
  IndustrialApp.footprints_ok s ->
  IndustrialApp.footprints_ok (IndustrialApp.updateRackLabel id0 newLabel s).
Proof.
  unfold IndustrialApp.footprints_ok, IndustrialApp.updateRackLabel. cbn.
  intro H. induction H as [|r rs Hr _ IH]; cbn; constructor; [|exact IH].
  destruct (String.eqb (id r) id0); exact Hr.
Qed.

Lemma remove_preserves (id0 : string) (s : IndustrialApp.State) :
  IndustrialApp.footprints_ok s ->
  IndustrialApp.footprints_ok (IndustrialApp.removeRack id0 s).
Proof.
  unfold IndustrialApp.footprints_ok, IndustrialApp.removeRack. cbn.
  intro H. induction H as [|r rs Hr _ IH]; cbn; [constructor|].
  destruct (negb (String.eqb (id r) id0)); [constructor; assumption | exact IH].
Qed.

Lemma step_preserves (s : IndustrialApp.State) (a : IndustrialApp.Action) :
  IndustrialApp.footprints_ok s ->
  IndustrialApp.footprints_ok (IndustrialApp.step s a).
Proof.
  intro H. destruct a; cbn [IndustrialApp.step].
  - unfold IndustrialApp.nextStep, IndustrialApp.footprints_ok in *.
    split_ifs; exact H.
  - unfold IndustrialApp.prevStep, IndustrialApp.footprints_ok in *.
    split_ifs; exact H.
  - constructor.
  - apply add_preserves; exact H.
  - apply move_preserves; exact H.
  - apply remove_preserves; exact H.
  - apply relabel_preserves; exact H.
  - constructor.
  - unfold IndustrialApp.handleSwapDims, IndustrialApp.footprints_ok in *.
    destruct (IndustrialApp.inputMode s); exact H.
  - exact H.
  - unfold IndustrialApp.setField, IndustrialApp.footprints_ok in *.
    destruct f; try exact H; destruct (IndustrialApp.inputMode s); exact H.
Qed.

(** C9.  Positive-footprint invariant: in every state the wizard can
    reach, every placed object has [width > 0] and [depth > 0]; an add with a
    non-positive width or depth leaves the state, hence the collection,
    unchanged; move and relabel leave the list of widths and of depths as it
    is, and delete keeps a sub-collection of unchanged objects. *)
Theorem positive_footprint_invariant :
  (forall s, IndustrialApp.reachable s -> IndustrialApp.footprints_ok s)
  /\ (forall fresh s,
        pending_width s <= 0 \/ pending_depth s <= 0 ->
        IndustrialApp.handleAddObject fresh s = s)
  /\ (forall id0 x0 y0 s,
        map width (racks_of (IndustrialApp.handleRackMove id0 x0 y0 s))
        = map width (racks_of s)
        /\ map depth (racks_of (IndustrialApp.handleRackMove id0 x0 y0 s))
           = map depth (racks_of s))
  /\ (forall id0 newLabel s,
        map width (racks_of (IndustrialApp.updateRackLabel id0 newLabel s))
        = map width (racks_of s)
        /\ map depth (racks_of (IndustrialApp.updateRackLabel id0 newLabel s))
           = map depth (racks_of s))
  /\ (forall id0 s,
        racks_of (IndustrialApp.removeRack id0 s)
        = filter (fun r => negb (String.eqb (id r) id0)) (racks_of s)
        /\ (IndustrialApp.footprints_ok s ->
            IndustrialApp.footprints_ok (IndustrialApp.removeRack id0 s))).
Proof.
  split; [|split; [|split; [|split]]].
  - intros s Hs. induction Hs as [|s a _ IH].
    + constructor.
    + apply step_preserves. exact IH.
  - apply add_rejected.
  - intros id0 x0 y0 s. unfold racks_of, IndustrialApp.handleRackMove. cbn.
    rewrite !map_map. split; apply map_ext; intro r;
      destruct (String.eqb (id r) id0); reflexivity.
  - intros id0 newLabel s. unfold racks_of, IndustrialApp.updateRackLabel. cbn.
    rewrite !map_map. split; apply map_ext; intro r;
      destruct (String.eqb (id r) id0); reflexivity.
  - intros id0 s. split; [reflexivity | apply remove_preserves].
Qed.

Lemma run_reachable (acts : list IndustrialApp.Action) :
  forall s, IndustrialApp.reachable s ->
            IndustrialApp.reachable (IndustrialApp.run s acts).
Proof.
  induction acts as [|a acts IH]; intros s Hs; cbn.
  - exact Hs.
  - apply IH. constructor. exact Hs.
Qed.

Lemma positive_footprint_invariant_witness :
  let s := IndustrialApp.run IndustrialApp.initial sample_run in
  IndustrialApp.footprints_ok s
  /\ List.length (racks_of s) = 1%nat
  /\ IndustrialApp.handleAddObject "r3" s = s.
Proof.
  intro s. split; [|split].
  - apply (proj1 positive_footprint_invariant).
    apply run_reachable. constructor.
  - reflexivity.
  - apply (proj1 (proj2 positive_footprint_invariant)).
    left. discriminate.
Defined.

(** C10.  Frame condition of the move: [handleRackMove id x y] keeps the
    collection's length and order; at every position, an object whose
    identifier differs from [id] is unchanged, and an object whose identifier
    is [id] keeps its id, type, width, depth, height, elevation and label and
    gets the position [(x, y)]; the site dimensions, the lighting
    configuration and every other part of the wizard state are unchanged. *)
Theorem move_frame (id0 : string) (x0 y0 : Q) (s : IndustrialApp.State) :
  let s' := IndustrialApp.handleRackMove id0 x0 y0 s in
  List.length (racks_of s') = List.length (racks_of s)
  /\ (forall (i : nat) (r : RackBlock),
        nth_error (racks_of s) i = Some r ->
        exists r' : RackBlock,
          nth_error (racks_of s') i = Some r'
          /\ (id r <> id0 -> r' = r)
          /\ (id r = id0 ->
              id r' = id r /\ type r' = type r
              /\ width r' = width r /\ depth r' = depth r
              /\ height r' = height r /\ elevation r' = elevation r
              /\ label r' = label r
              /\ x r' = x0 /\ y r' = y0))
  /\ pWidth (IndustrialApp.data s') = pWidth (IndustrialApp.data s)
  /\ pLength (IndustrialApp.data s') = pLength (IndustrialApp.data s)
  /\ ceilingHeight (IndustrialApp.data s') = ceilingHeight (IndustrialApp.data s)
  /\ lighting (IndustrialApp.data s') = lighting (IndustrialApp.data s)
  /\ projectName (IndustrialApp.data s') = projectName (IndustrialApp.data s)
  /\ luxRequired (IndustrialApp.data s') = luxRequired (IndustrialApp.data s)
  /\ observations (IndustrialApp.data s') = observations (IndustrialApp.data s)
  /\ storageActive (storage (IndustrialApp.data s'))
     = storageActive (storage (IndustrialApp.data s))
  /\ IndustrialApp.currentStep s' = IndustrialApp.currentStep s
  /\ IndustrialApp.summaryViewMode s' = IndustrialApp.summaryViewMode s
  /\ IndustrialApp.inputMode s' = IndustrialApp.inputMode s
  /\ IndustrialApp.newRackDims s' = IndustrialApp.newRackDims s
  /\ IndustrialApp.newMezzDims s' = IndustrialApp.newMezzDims s.
Proof.
  intro s'. unfold s', racks_of, IndustrialApp.handleRackMove. cbn.
  split; [apply length_map|].
  split; [|repeat split; reflexivity].
  intros i r Hr.
  rewrite nth_error_map, Hr. cbn.
  eexists. split; [reflexivity|].
  destruct (String.eqb (id r) id0) eqn:E.
  - apply String.eqb_eq in E. split; [intro N; contradiction|].
    intros _. cbn. repeat split; reflexivity.
  - apply String.eqb_neq in E. split; [reflexivity|].
    intro N. contradiction.
Qed.

Lemma move_frame_witness :
  let s := IndustrialApp.run one_default_rack [IndustrialApp.AddObject "r2"] in
  let s' := IndustrialApp.handleRackMove "r1" 3 4 s in
  exists a b,
    racks_of s = [a; b]
    /\ racks_of s' = [mkPlaced (id a) (type a) 3 4 (width a) (depth a)
                               (height a) (elevation a) (label a); b]
    /\ exists b', nth_error (racks_of s') 1 = Some b' /\ b' = b.
Proof.
  intros s s'. eexists; eexists.
  split; [reflexivity|]. split; [reflexivity|].
  destruct (proj1 (proj2 (move_frame "r1" 3 4 s)) 1%nat _ eq_refl)
    as [b' [Hb' [Hsame _]]].
  exists b'. split; [exact Hb'|]. apply Hsame. discriminate.
Defined.

(** * Further properties of the code *)

(** ** Loops *)

Lemma Qceiling_pos_lt (q : Q) (k : Z) :
  (k < Qceiling q)%Z <-> inject_Z k < q.
Proof.
  split; intro H.
  - pose proof (Qceiling_lt q) as L. rewrite inject_Z_minus in L.
    change (inject_Z 1) with 1 in L.
    assert (inject_Z k <= inject_Z (Qceiling q) - 1).
    { assert (Hk : (k <= Qceiling q - 1)%Z) by lia.
      rewrite Zle_Qle, inject_Z_minus in Hk. exact Hk. }
    lra.
  - pose proof (Qle_ceiling q) as L.
    assert (inject_Z k < inject_Z (Qceiling q)) by lra.
    rewrite <- Zlt_Qlt in H0. exact H0.
Qed.

Lemma trips_step (i step : Z) (bound : Q) :
  (0 < step)%Z ->
  Qceiling ((bound - inject_Z (i + step)) / inject_Z step)
  = (Qceiling ((bound - inject_Z i) / inject_Z step) - 1)%Z.
Proof.
  intro Hs. assert (Hq : 0 < inject_Z step).
  { change 0 with (inject_Z 0). rewrite <- Zlt_Qlt. exact Hs. }
  rewrite <- Qceiling_pred. apply Qceiling_comp.
  rewrite inject_Z_plus. field. lra.
Qed.

Lemma trips_pos_enters (i step : Z) (bound : Q) :
  (0 < step)%Z -> (0 < JS.trips i step bound)%nat ->
  inject_Z i < bound.
Proof.
  intros Hs Ht. assert (Hq : 0 < inject_Z step).
  { change 0 with (inject_Z 0). rewrite <- Zlt_Qlt. exact Hs. }
  unfold JS.trips in Ht.
  assert (Hc : (0 < Qceiling ((bound - inject_Z i) / inject_Z step))%Z) by lia.
  apply Qceiling_pos_lt in Hc. change (inject_Z 0) with 0 in Hc.
  assert (E : bound - inject_Z i
              == (bound - inject_Z i) / inject_Z step * inject_Z step)
    by (field; lra).
  assert (0 < (bound - inject_Z i) / inject_Z step * inject_Z step)
    by (apply Qmult_lt_0_compat; assumption).
  lra.
Qed.

(** The counter of [for (i = start; i < bound; i += step)] takes the values
    [start + k*step], one per trip. *)
Lemma for_lt_values (step : Z) (bound : Q) :
  (0 < step)%Z ->
  forall n i,
    JS.trips i step bound = n ->
    JS.for_lt n i step bound
    = map (fun k : nat => (i + Z.of_nat k * step)%Z) (seq 0 n).
Proof.
  intro Hs. induction n as [|n IH]; intros i Ht; [reflexivity|].
  cbn [JS.for_lt].
  replace (JS.Qlt_bool (inject_Z i) bound) with true.
  - cbn [seq map]. f_equal; [lia|].
    rewrite (IH (i + step)%Z).
    + rewrite <- seq_shift, map_map. apply map_ext. intro k. lia.
    + unfold JS.trips in *. rewrite trips_step by exact Hs. lia.
  - symmetry. apply Qlt_bool_true.
    apply (trips_pos_enters i step bound Hs). lia.
Qed.

Lemma for_loop_from_zero (bound : Q) :
  JS.for_loop 0 1 bound = map Z.of_nat (seq 0 (Z.to_nat (Qceiling bound))).
Proof.
  unfold JS.for_loop.
  assert (Ht : JS.trips 0 1 bound = Z.to_nat (Qceiling bound)).
  { unfold JS.trips. f_equal. apply Qceiling_comp.
    change (inject_Z 0) with 0. change (inject_Z 1) with 1. field. }
  rewrite (for_lt_values 1 bound eq_refl _ 0%Z eq_refl), Ht.
  apply map_ext. intro k. lia.
Qed.

(** X1.  The grid loops [for (i = gridStep; i < limit; i += gridStep)], and
    every counting loop of the renderer, visit exactly the values
    [start + k*step] ([k = 0, 1, ...]) that are below the limit, in
    ascending order and once each. *)
Theorem for_loop_visits (start step : Z) (bound : Q) :
  (0 < step)%Z ->
  (exists n : nat,
     JS.for_loop start step bound
     = map (fun k : nat => (start + Z.of_nat k * step)%Z) (seq 0 n))
  /\ (forall i : Z,
        In i (JS.for_loop start step bound)
        <-> exists k : Z, (0 <= k)%Z /\ i = (start + k * step)%Z
                          /\ inject_Z i < bound).
Proof.
  intro Hs. assert (Hq : 0 < inject_Z step).
  { change 0 with (inject_Z 0). rewrite <- Zlt_Qlt. exact Hs. }
  assert (Hv := for_lt_values step bound Hs _ start eq_refl).
  fold (JS.for_loop start step bound) in Hv.
  split; [eexists; exact Hv|].
  assert (Hk : forall k : Z,
             (k < Qceiling ((bound - inject_Z start) / inject_Z step))%Z
             <-> inject_Z (start + k * step) < bound).
  { intro k. rewrite Qceiling_pos_lt, inject_Z_plus, inject_Z_mult.
    split; intro H.
    - apply (Qmult_lt_r _ _ (inject_Z step) Hq) in H.
      assert (E : (bound - inject_Z start) / inject_Z step * inject_Z step
                  == bound - inject_Z start) by (field; lra).
      rewrite E in H. lra.
    - apply (Qmult_lt_r _ _ (inject_Z step) Hq).
      assert (E : (bound - inject_Z start) / inject_Z step * inject_Z step
                  == bound - inject_Z start) by (field; lra).
      rewrite E. lra. }
  intro i. rewrite Hv, in_map_iff. split.
  - intros [k [Ei Hin]]. apply in_seq in Hin.
    exists (Z.of_nat k). split; [lia|]. split; [lia|].
    rewrite <- Ei. apply Hk. unfold JS.trips in Hin. lia.
  - intros [k [Hk0 [Ei Hlt]]].
    exists (Z.to_nat k). split; [lia|].
    apply in_seq. split; [lia|]. cbn.
    rewrite Ei in Hlt. apply Hk in Hlt. unfold JS.trips. lia.
Qed.

Lemma for_loop_visits_witness :
  JS.for_loop 5 5 (43 # 2) = [5; 10; 15; 20]%Z
  /\ In 15%Z (JS.for_loop 5 5 (43 # 2)).
Proof.
  split; [reflexivity|].
  apply (proj2 (for_loop_visits 5 5 (43 # 2) eq_refl) 15%Z).
  exists 2%Z. repeat split; try lia; reflexivity.
Defined.

(** ** Lighting layout, continued *)

Lemma eqQs_Forall (P : Q -> Prop) (l1 l2 : list Q) :
  (forall a b, a == b -> P b -> P a) ->
  eqQs l1 l2 -> Forall P l2 -> Forall P l1.
Proof.
  intros HP H. induction H as [|a b l1 l2 Hab _ IH]; intro HF.
  - constructor.
  - inversion HF; subst. constructor; [eapply HP; eauto | apply IH; assumption].
Qed.

Lemma eqQs_nth (l1 l2 : list Q) (k : nat) :
  eqQs l1 l2 -> nth k l1 0 == nth k l2 0.
Proof.
  intro H. revert k. induction H as [|a b l1 l2 Hab _ IH]; intro k.
  - reflexivity.
  - destruct k; cbn; [exact Hab | apply IH].
Qed.

Lemma eqQs_last (l1 l2 : list Q) : eqQs l1 l2 -> last l1 0 == last l2 0.
Proof.
  intro H. induction H as [|a b l1 l2 Hab Hl IH]; [reflexivity|].
  destruct Hl as [|a' b' l1' l2' Hab' Hl']; [exact Hab | exact IH].
Qed.

Lemma last_map_seq (f : nat -> Q) (n : nat) :
  last (map f (seq 0 (n + 1))) 0 = f n.
Proof.
  rewrite seq_app, map_app. cbn. apply last_last.
Qed.

(** X2.  Distance mode centres its profiles: with [value > 0.01] and
    [available = axisLimit - 2*offset >= 0], every profile lies between
    [offset] and [axisLimit - offset], the first is as far from [offset] as
    the last is from [axisLimit - offset], that margin is less than half a
    spacing, and with [offset >= 0] no profile exceeds [axisLimit]. *)
Theorem distance_mode_centered (axisLimit v off : Q) :
  0.01 < v -> 0 <= axisLimit - 2 * off ->
  let ps := Current.distance_positions axisLimit v off in
  Forall (fun p => off <= p <= axisLimit - off) ps
  /\ nth 0 ps 0 - off == (axisLimit - off) - last ps 0
  /\ 0 <= nth 0 ps 0 - off < v / 2
  /\ (0 <= off -> Forall (fun p => p <= axisLimit) ps).
Proof.
  intros Hv Ha ps.
  pose proof (distance_positions_spec axisLimit v off Hv Ha) as Hs.
  cbv zeta in Hs. fold ps in Hs.
  set (available := axisLimit - 2 * off) in *.
  set (n := Qfloor (available / v)) in *.
  assert (Hv0 : 0 < v) by lra.
  assert (Hn : (0 <= n)%Z).
  { unfold n. change 0%Z with (Qfloor 0).
    apply Qfloor_resp_le. apply Qle_shift_div_l; lra. }
  assert (Eav : available == available / v * v) by (field; lra).
  assert (Hspan : inject_Z n * v <= available).
  { apply Qle_trans with (available / v * v).
    - apply Qmult_le_compat_r; [apply Qfloor_le | lra].
    - rewrite <- Eav. apply Qle_refl. }
  assert (Hnext : available < inject_Z n * v + v).
  { pose proof (Qlt_floor (available / v)) as L. fold n in L.
    rewrite inject_Z_plus in L. change (inject_Z 1) with 1 in L.
    apply (Qmult_lt_r _ _ v Hv0) in L. rewrite <- Eav in L. lra. }
  assert (Hin : Forall (fun p => off <= p <= axisLimit - off) ps).
  { eapply eqQs_Forall; [|exact Hs|].
    - intros a b E. rewrite E. tauto.
    - apply Forall_forall. intros p Hp. apply in_map_iff in Hp.
      destruct Hp as [k [<- Hk]]. apply in_seq in Hk.
      assert (Hk0 : 0 <= inject_Z (Z.of_nat k) * v).
      { apply Qmult_le_0_compat; [|lra].
        change 0 with (inject_Z 0). rewrite <- Zle_Qle. lia. }
      assert (Hkn : inject_Z (Z.of_nat k) * v <= inject_Z n * v).
      { apply Qmult_le_compat_r; [|lra]. rewrite <- Zle_Qle. lia. }
      unfold available in *. split.
      + assert (0 <= (axisLimit - 2 * off - inject_Z n * v) / 2)
          by (apply Qle_shift_div_l; lra).
        lra.
      + assert (E : off + (axisLimit - 2 * off - inject_Z n * v) / 2
                    == off + (axisLimit - 2 * off) / 2 - inject_Z n * v / 2)
          by field.
        assert (E2 : (axisLimit - 2 * off) / 2 == axisLimit / 2 - off) by field.
        assert (E3 : inject_Z n * v / 2 == (1 # 2) * (inject_Z n * v)) by field.
        assert (E4 : axisLimit / 2 == (1 # 2) * axisLimit) by field.
        rewrite E, E2, E3, E4. lra. }
  assert (Hfirst : nth 0 ps 0 == off + (available - inject_Z n * v) / 2).
  { rewrite (eqQs_nth _ _ 0 Hs).
    replace (Z.to_nat n + 1)%nat with (S (Z.to_nat n)) by lia.
    cbn [seq map nth]. change (inject_Z (Z.of_nat 0)) with 0. ring. }
  assert (Hlast : last ps 0
                  == off + (available - inject_Z n * v) / 2 + inject_Z n * v).
  { rewrite (eqQs_last _ _ Hs), last_map_seq.
    rewrite Z2Nat.id by exact Hn. reflexivity. }
  assert (Ehalf : (available - inject_Z n * v) / 2
                  == (1 # 2) * available - (1 # 2) * (inject_Z n * v)) by field.
  assert (Ev2 : v / 2 == (1 # 2) * v) by field.
  split; [exact Hin|]. split; [|split].
  - rewrite Hfirst, Hlast, Ehalf. unfold available. ring.
  - rewrite Hfirst, Ehalf, Ev2. split; lra.
  - intro Hoff. eapply Forall_impl; [|exact Hin].
    intros p [_ Hp]. cbn in Hp. lra.
Qed.

Lemma distance_mode_centered_witness :
  let ps := Current.distance_positions 20 5 2 in
  Forall (fun p => 2 <= p <= 20 - 2) ps
  /\ nth 0 ps 0 - 2 == (20 - 2) - last ps 0
  /\ 0 <= nth 0 ps 0 - 2 < 5 / 2.
Proof.
  intro ps.
  destruct (distance_mode_centered 20 5 2) as [H1 [H2 [H3 _]]];
    [reflexivity | discriminate |].
  split; [exact H1|]. split; [exact H2 | exact H3].
Defined.

(** X3.  Quantity mode with any [value]: below 1 nothing is placed; above 1
    the loop places [ceil(value)] profiles, the first at [offset]; so a
    fractional [value] places one profile more than its integer part, and
    the last one then overshoots [axisLimit - offset]. *)
Theorem quantity_mode_count (axisLimit v off : Q) :
  let ps := Current.quantity_positions axisLimit v off in
  (v < 1 -> ps = [])
  /\ (1 < v ->
      List.length ps = Z.to_nat (Qceiling v)
      /\ nth 0 ps 0 == off
      /\ ((forall n : Z, ~ v == inject_Z n) ->
          0 < axisLimit - 2 * off ->
          axisLimit - off < last ps 0)).
Proof.
  intro ps. unfold ps, Current.quantity_positions. split.
  - intro H.
    replace (Qle_bool 1 v) with false
      by (symmetry; apply Qle_bool_false; exact H).
    reflexivity.
  - intro H.
    replace (Qle_bool 1 v) with true
      by (symmetry; apply Qle_bool_iff; apply Qlt_le_weak; exact H).
    replace (Qeq_bool v 1) with false
      by (symmetry; apply Qeq_bool_false; intro E; rewrite E in H;
          exact (Qlt_irrefl _ H)).
    rewrite for_loop_from_zero, map_map.
    assert (Hc : (2 <= Qceiling v)%Z).
    { assert (L : (1 < Qceiling v)%Z)
        by (apply Qceiling_pos_lt; exact H).
      lia. }
    split; [rewrite length_map, length_seq; reflexivity|].
    replace (Z.to_nat (Qceiling v)) with (Z.to_nat (Qceiling v - 1) + 1)%nat
      by lia.
    split.
    + replace (Z.to_nat (Qceiling v - 1) + 1)%nat
        with (S (Z.to_nat (Qceiling v - 1))) by lia.
      cbn [seq map nth]. change (inject_Z (Z.of_nat 0)) with 0. ring.
    + intros Hfrac Hav.
      rewrite (last_map_seq
                 (fun i => off + inject_Z (Z.of_nat i)
                                 * ((axisLimit - off * 2) / (v - 1)))).
      rewrite Z2Nat.id by lia. rewrite inject_Z_minus.
      change (inject_Z 1) with 1.
      assert (Hgt : v < inject_Z (Qceiling v)).
      { pose proof (Qle_ceiling v) as L.
        destruct (Qlt_le_dec v (inject_Z (Qceiling v))) as [G | G];
          [exact G|].
        exfalso. apply (Hfrac (Qceiling v)). apply Qle_antisym; assumption. }
      set (c := inject_Z (Qceiling v)) in *.
      set (step := (axisLimit - off * 2) / (v - 1)).
      assert (Hstep : 0 < step).
      { unfold step. apply Qlt_shift_div_l; lra. }
      assert (Ea : axisLimit - off * 2 == (v - 1) * step)
        by (unfold step; field; lra).
      assert (Hm : (v - 1) * step < (c - 1) * step).
      { apply Qmult_lt_r; [exact Hstep | lra]. }
      lra.
Qed.

Lemma quantity_mode_count_witness :
  let ps := Current.quantity_positions 20 (5 # 2) 2 in
  List.length ps = 3%nat /\ nth 0 ps 0 == 2 /\ 20 - 2 < last ps 0.
Proof.
  intro ps.
  destruct (proj2 (quantity_mode_count 20 (5 # 2) 2)) as [H1 [H2 H3]];
    [reflexivity|].
  split; [exact H1|]. split; [exact H2|].
  apply H3; [|reflexivity].
  intros n E. unfold Qeq in E. cbn in E. lia.
Defined.

(** The legacy stepping loop, whatever its budget of iterations. *)
Lemma stepping_spec (v lim : Q) :
  0 < v ->
  forall n pos,
    let ps := Legacy.stepping n pos lim v in
    (List.length ps <= n)%nat
    /\ eqQs ps (map (fun k : nat => pos + inject_Z (Z.of_nat k) * v)
                    (seq 0 (List.length ps)))
    /\ Forall (fun p => pos <= p < lim) ps
    /\ ((List.length ps < n)%nat ->
        lim <= pos + inject_Z (Z.of_nat (List.length ps)) * v).
Proof.
  intro Hv. induction n as [|n IH]; intro pos; cbn zeta.
  - cbn. repeat split; try constructor; try lia.
  - cbn [Legacy.stepping].
    destruct (JS.Qlt_bool pos lim) eqn:E.
    + apply Qlt_bool_true in E.
      destruct (IH (pos + v)) as [H1 [H2 [H3 H4]]].
      cbn [List.length]. split; [lia|]. split; [|split].
      * cbn [seq map]. constructor.
        -- change (inject_Z (Z.of_nat 0)) with 0. ring.
        -- eapply eqQs_trans; [exact H2|].
           rewrite <- seq_shift, map_map. apply eqQs_map. intros k _.
           rewrite Nat2Z.inj_succ. unfold Z.succ. rewrite inject_Z_plus.
           change (inject_Z 1) with 1. ring.
      * constructor; [split; [apply Qle_refl | exact E]|].
        eapply Forall_impl; [|exact H3]. intros p [Hp1 Hp2]. cbn. split; lra.
      * intro Hlt. assert (Hlt' : (List.length
                                    (Legacy.stepping n (pos + v) lim v) < n)%nat)
          by lia.
        specialize (H4 Hlt').
        rewrite Nat2Z.inj_succ. unfold Z.succ. rewrite inject_Z_plus.
        change (inject_Z 1) with 1. lra.
    + apply Qlt_bool_false in E. cbn.
      split; [lia|]. split; [constructor|]. split; [constructor|].
      intros _. change (inject_Z 0) with 0. lra.
Qed.

(** X4.  The legacy distance mode steps from the first wall: with
    [value > 0.01] its profiles are [offset + k*value] for consecutive [k]
    from 0, all below [axisLimit], at most 5000 of them, and unless the 5000
    budget is used up the next step would reach [axisLimit]; there is no
    profile when [offset >= axisLimit]. *)
Theorem legacy_distance_stepping (axisLimit v off : Q) :
  0.01 < v ->
  let ps := Legacy.distance_positions axisLimit v off in
  (List.length ps <= 5000)%nat
  /\ eqQs ps (map (fun k : nat => off + inject_Z (Z.of_nat k) * v)
                  (seq 0 (List.length ps)))
  /\ Forall (fun p => off <= p < axisLimit) ps
  /\ ((List.length ps < 5000)%nat ->
      axisLimit <= off + inject_Z (Z.of_nat (List.length ps)) * v)
  /\ (axisLimit <= off -> ps = []).
Proof.
  intros Hv ps. unfold ps, Legacy.distance_positions.
  replace (JS.Qlt_bool 0.01 v) with true
    by (symmetry; apply Qlt_bool_true; exact Hv).
  assert (Hv0 : 0 < v) by lra.
  destruct (stepping_spec v axisLimit Hv0 5000 off) as [H1 [H2 [H3 H4]]].
  repeat (split; [assumption|]).
  intro Hle.
  destruct (Legacy.stepping 5000 off axisLimit v) as [|p l]; [reflexivity|].
  inversion H3 as [|p' l' [Hp1 Hp2] _]. lra.
Qed.

Lemma legacy_distance_stepping_witness :
  let ps := Legacy.distance_positions 20 5 2 in
  (List.length ps <= 5000)%nat
  /\ Forall (fun p => 2 <= p < 20) ps
  /\ 20 <= 2 + inject_Z (Z.of_nat (List.length ps)) * 5.
Proof.
  intro ps.
  destruct (legacy_distance_stepping 20 5 2) as [H1 [_ [H3 [H4 _]]]];
    [reflexivity|].
  split; [exact H1|]. split; [exact H3|].
  apply H4. vm_compute. lia.
Defined.

(** ** Interaction controller, continued *)

(** X5.  Hit test: at a positive scale, the pixel to which the renderer
    maps the point [(mx, my)] hits an object exactly when the point lies in
    the object's footprint rectangle, edges included (posts are tested as
    rectangles too). *)
Theorem hit_iff_inside (m : Metrics) (obj : CanvasObject) (mx my : Q) :
  0 < scale m ->
  Canvas.hit m (getX m mx) (getY m my) obj = true
  <-> (x obj <= mx <= x obj + width obj /\ y obj <= my <= y obj + depth obj).
Proof.
  intro Hs. unfold Canvas.hit, Canvas.HIT_PADDING, getX, getY, toPx.
  rewrite !andb_true_iff, !Qle_bool_iff.
  assert (M : forall a b : Q, a * scale m <= b * scale m <-> a <= b)
    by (intros a b; apply Qmult_le_r; exact Hs).
  pose proof (M (x obj) mx) as M1.
  pose proof (M mx (x obj + width obj)) as M2.
  pose proof (M (y obj) my) as M3.
  pose proof (M my (y obj + depth obj)) as M4.
  assert (E2 : (x obj + width obj) * scale m
               == x obj * scale m + width obj * scale m) by ring.
  assert (E4 : (y obj + depth obj) * scale m
               == y obj * scale m + depth obj * scale m) by ring.
  rewrite E2 in M2. rewrite E4 in M4.
  split.
  - intros [[[H1 H2] H3] H4].
    repeat split; [apply M1 | apply M2 | apply M3 | apply M4]; lra.
  - intros [[H1 H2] [H3 H4]].
    apply M1 in H1. apply M2 in H2. apply M3 in H3. apply M4 in H4.
    repeat split; lra.
Qed.

Lemma hit_iff_inside_witness :
  let m := Canvas.getMetrics clamp_props clamp_state in
  Canvas.hit m (getX m 2) (getY m 3) (retag OfIndustrial
                                        (mkPlaced "r1" RACK 1 1 2 2 2 0 "B1"))
  = true.
Proof.
  intro m. apply hit_iff_inside; [reflexivity|].
  cbn. repeat split; discriminate.
Defined.

(** X6.  Hover and click agree: in the interactive 2D view, with no drag
    and no pan going on, the object a mouse move marks as hovered is the
    object a primary-button press at the same place starts to drag. *)
Theorem hover_is_click_target (p : Canvas.Props) (st : Canvas.State)
    (e : Canvas.MouseEvent) :
  Canvas.viewMode p = View2D -> Canvas.isInteractive p = true ->
  Canvas.isPanning st = false -> Canvas.dragTarget st = None ->
  Canvas.button e <> 1%Z -> Canvas.button e <> 2%Z -> Canvas.altKey e = false ->
  exists st',
    Canvas.handleMouseMove p st e = Canvas.Hovered st'
    /\ Canvas.hoveredBlockId st'
       = option_map dragId (Canvas.dragTarget (Canvas.handleMouseDown p st e)).
Proof.
  intros Hv Hi Hp Hd Hb1 Hb2 Ha.
  unfold Canvas.handleMouseMove, Canvas.handleMouseDown.
  rewrite Hv, Hi, Hp, Hd, Ha.
  apply Z.eqb_neq in Hb1. apply Z.eqb_neq in Hb2. rewrite Hb1, Hb2.
  cbn [orb negb].
  eexists. split; [reflexivity|].
  cbn [Canvas.hoveredBlockId].
  destruct (find _ _); cbn; [reflexivity | rewrite Hd; reflexivity].
Qed.

Lemma hover_is_click_target_witness :
  let p := IndustrialApp.canvasProps one_default_rack in
  let e := Canvas.mkMouse 230 130 230 130 0 false in
  exists st',
    Canvas.handleMouseMove p Canvas.initial e = Canvas.Hovered st'
    /\ Canvas.hoveredBlockId st' = Some "r1"%string
    /\ Canvas.hoveredBlockId st'
       = option_map dragId
           (Canvas.dragTarget (Canvas.handleMouseDown p Canvas.initial e)).
Proof.
  intros p e.
  destruct (hover_is_click_target p Canvas.initial e) as [st' [H1 H2]];
    [ vm_compute; reflexivity | vm_compute; reflexivity | reflexivity
    | reflexivity | discriminate | discriminate | reflexivity | ].
  exists st'. split; [exact H1|]. split; [|exact H2].
  rewrite H2. vm_compute. reflexivity.
Defined.

Lemma metrics_center (data : CanvasData) (width height : Q) (t : Transform) :
  let m := sceneMetrics data width height t in
  originX m + drawWidth m / 2 == width / 2 + tX t
  /\ originY m + drawLength m / 2 == height / 2 + tY t.
Proof.
  cbn. split; field.
Qed.

(** X7.  The site stays centred: whatever the site, the viewport, the zoom
    and the pan, the drawn site is as wide as [site.width * scale], as long
    as [site.length * scale], and its middle is the middle of the viewport
    moved by the pan. *)
Theorem site_centered (data : CanvasData) (width height : Q) (t : Transform) :
  let m := sceneMetrics data width height t in
  getX m (dataWidth data) - getX m 0 == drawWidth m
  /\ getY m (dataLength data) - getY m 0 == drawLength m
  /\ (getX m 0 + getX m (dataWidth data)) / 2 == width / 2 + tX t
  /\ (getY m 0 + getY m (dataLength data)) / 2 == height / 2 + tY t.
Proof.
  intro m. destruct (metrics_center data width height t) as [A B].
  fold m in A, B. unfold getX, getY, toPx.
  assert (Ew : drawWidth m == dataWidth data * scale m) by reflexivity.
  assert (El : drawLength m == dataLength data * scale m) by reflexivity.
  rewrite <- A, <- B, Ew, El. repeat split; field.
Qed.

(** X8.  A wheel zoom keeps the pan, hence keeps the middle of the drawn
    site at the same pixel, whatever the direction and the state. *)
Theorem wheel_keeps_center (p : Canvas.Props) (st : Canvas.State) (deltaY : Q) :
  let m := Canvas.getMetrics p st in
  let m' := Canvas.getMetrics p (Canvas.handleWheel p st deltaY) in
  originX m' + drawWidth m' / 2 == originX m + drawWidth m / 2
  /\ originY m' + drawLength m' / 2 == originY m + drawLength m / 2.
Proof.
  intros m m'. unfold m, m'. rewrite !getMetrics_sceneMetrics.
  destruct (metrics_center (Canvas.data p) (Canvas.canvasWidth p)
              (Canvas.canvasHeight p) (Canvas.transform st)) as [A B].
  destruct (metrics_center (Canvas.data p) (Canvas.canvasWidth p)
              (Canvas.canvasHeight p)
              (Canvas.transform (Canvas.handleWheel p st deltaY))) as [A' B'].
  cbv zeta in *. rewrite A, B, A', B'.
  unfold Canvas.handleWheel. destruct (Canvas.viewMode p); cbn; split; reflexivity.
Qed.

(** X9.  Panning moves the drawing with the mouse: while a pan is on, a
    mouse move in the 2D view shifts every drawn point by the distance the
    mouse travelled since the last event, keeps the scale and the drag
    target, and remembers the new mouse position. *)
Theorem pan_translates (p : Canvas.Props) (st : Canvas.State)
    (e : Canvas.MouseEvent) :
  Canvas.viewMode p = View2D -> Canvas.isPanning st = true ->
  exists st',
    Canvas.handleMouseMove p st e = Canvas.Panned st'
    /\ Canvas.lastMousePos st' = (Canvas.clientX e, Canvas.clientY e)
    /\ Canvas.dragTarget st' = Canvas.dragTarget st
    /\ Canvas.isPanning st' = true
    /\ scale (Canvas.getMetrics p st') = scale (Canvas.getMetrics p st)
    /\ forall meters,
         getX (Canvas.getMetrics p st') meters
         == getX (Canvas.getMetrics p st) meters
            + (Canvas.clientX e - fst (Canvas.lastMousePos st))
         /\ getY (Canvas.getMetrics p st') meters
            == getY (Canvas.getMetrics p st) meters
               + (Canvas.clientY e - snd (Canvas.lastMousePos st)).
Proof.
  intros Hv Hp. unfold Canvas.handleMouseMove. rewrite Hv, Hp.
  eexists. split; [reflexivity|].
  split; [reflexivity|]. split; [reflexivity|]. split; [reflexivity|].
  split; [reflexivity|].
  intro meters. unfold getX, getY, toPx. cbn. split; ring.
Qed.

Lemma pan_translates_witness :
  let p := IndustrialApp.canvasProps one_default_rack in
  let st := Canvas.handleMouseDown p Canvas.initial
              (Canvas.mkMouse 10 10 10 10 0 true) in
  exists st',
    Canvas.handleMouseMove p st (Canvas.mkMouse 25 4 25 4 0 true)
    = Canvas.Panned st'
    /\ getX (Canvas.getMetrics p st') 0 == getX (Canvas.getMetrics p st) 0 + 15.
Proof.
  intros p st.
  destruct (pan_translates p st (Canvas.mkMouse 25 4 25 4 0 true))
    as [st' [H1 [_ [_ [_ [_ H6]]]]]]; try reflexivity.
  exists st'. split; [exact H1|].
  destruct (H6 0) as [Hx _]. rewrite Hx. cbn. reflexivity.
Defined.

(** X10.  Releasing the mouse (or leaving the canvas) ends drag and pan:
    afterwards the drag target is gone, panning is off, zoom and pan are
    kept, and the next mouse move neither calls the move callback nor pans. *)
Theorem mouse_up_cancels (p : Canvas.Props) (st : Canvas.State)
    (e : Canvas.MouseEvent) :
  let st' := Canvas.handleMouseUp st in
  Canvas.dragTarget st' = None
  /\ Canvas.isPanning st' = false
  /\ Canvas.transform st' = Canvas.transform st
  /\ (Canvas.handleMouseMove p st' e = Canvas.Untouched
      \/ exists st'', Canvas.handleMouseMove p st' e = Canvas.Hovered st''
                      /\ Canvas.dragTarget st'' = None
                      /\ Canvas.transform st'' = Canvas.transform st).
Proof.
  cbn zeta. repeat (split; [reflexivity|]).
  unfold Canvas.handleMouseMove, Canvas.handleMouseUp. cbn.
  destruct (Canvas.viewMode p); [|left; reflexivity].
  destruct (negb (Canvas.isInteractive p)); [left; reflexivity|].
  right. eexists. repeat split.
Qed.

Lemma find_by_id_exists {T : Type} (l : list (Placed T)) (obj : Placed T)
    (id0 : string) :
  In obj l -> id obj = id0 ->
  exists o, find (fun r => String.eqb (id r) id0) l = Some o.
Proof.
  intros Hin Hid.
  destruct (find (fun r => String.eqb (id r) id0) l) as [o|] eqn:Hf;
    [exists o; reflexivity|].
  pose proof (find_none _ _ Hf obj Hin) as Hn. cbn in Hn.
  rewrite Hid, String.eqb_refl in Hn. discriminate.
Qed.

(** X11.  The move callback is called exactly from the interactive 2D
    view, when no pan is on, the callback was given, a drag is on and an
    object of the collection carries the dragged identifier: a call implies
    all of this, and all of this implies a call, with the dragged
    identifier, whatever the scale. *)
Theorem callback_only_when_dragging (p : Canvas.Props) (st : Canvas.State)
    (e : Canvas.MouseEvent) :
  (forall id0 newX newY,
     Canvas.reported (Canvas.handleMouseMove p st e)
     = Some (id0, newX, newY) ->
     Canvas.viewMode p = View2D
     /\ Canvas.isInteractive p = true
     /\ Canvas.isPanning st = false
     /\ Canvas.onRackMove p = true
     /\ (exists target,
           Canvas.dragTarget st = Some target /\ dragId target = id0)
     /\ (exists obj, In obj (getObjects (Canvas.data p)) /\ id obj = id0))
  /\ (forall target obj,
        Canvas.viewMode p = View2D -> Canvas.isInteractive p = true ->
        Canvas.isPanning st = false -> Canvas.onRackMove p = true ->
        Canvas.dragTarget st = Some target ->
        In obj (getObjects (Canvas.data p)) -> id obj = dragId target ->
        exists newX newY,
          Canvas.reported (Canvas.handleMouseMove p st e)
          = Some (dragId target, newX, newY)).
Proof.
  split.
  - intros id0 newX newY H.
    destruct (drag_report_spec p st e id0 newX newY H)
      as [Hv [Hi [Hp [Hcb [target [obj [Ht [Hid [Hf _]]]]]]]]].
    repeat (split; [assumption|]).
    split; [exists target; split; [exact Ht | symmetry; exact Hid]|].
    apply find_some in Hf. destruct Hf as [Hin Heq].
    apply String.eqb_eq in Heq. exists obj. split; assumption.
  - intros target obj Hv Hi Hp Hcb Ht Hin Hid.
    destruct (find_by_id_exists _ obj (dragId target) Hin Hid) as [o Hf].
    unfold Canvas.handleMouseMove. rewrite Hv, Hp, Hi, Ht, Hcb. cbn [negb].
    unfold Canvas.toMeters, JS.div.
    destruct (Qeq_bool (scale (Canvas.getMetrics p st)) 0);
      rewrite Hf; destruct (mode_of (Canvas.data p));
      cbn [Canvas.reported]; eexists; eexists; reflexivity.
Qed.

Lemma callback_only_when_dragging_witness :
  exists newX newY,
    Canvas.reported
      (Canvas.handleMouseMove zero_scale_props clamp_state
         (Canvas.mkMouse 0 0 100 300 0 false))
    = Some ("r1"%string, newX, newY)
    /\ Canvas.viewMode zero_scale_props = View2D
    /\ Canvas.isInteractive zero_scale_props = true
    /\ Canvas.isPanning clamp_state = false
    /\ Canvas.onRackMove zero_scale_props = true
    /\ (exists target, Canvas.dragTarget clamp_state = Some target
                       /\ dragId target = "r1"%string)
    /\ (exists obj, In obj (getObjects (Canvas.data zero_scale_props))
                    /\ id obj = "r1"%string).
Proof.
  eexists; eexists. split; [vm_compute; reflexivity|].
  eapply (proj1 (callback_only_when_dragging zero_scale_props clamp_state
                   (Canvas.mkMouse 0 0 100 300 0 false))).
  vm_compute. reflexivity.
Defined.

(** X12.  Sports drag: whenever a drag update of the sports variant calls
    the move callback, each reported coordinate is a number unless the scale
    is zero and, on that axis, the raw pixel position (the pointer less the
    grab offset) is the origin of the drawing; then it is [NaN].  A
    reported number is at least -50; [newX] is at most [field.width + 50] and [newY] at most
    [field.length + 50] (the field being at least -100 wide and long); and
    it is a multiple of 0.5 or is that upper bound.  The object's own size
    plays no part. *)
Theorem sports_drag_bounds (p : Canvas.Props) (st : Canvas.State)
    (e : Canvas.MouseEvent) (d : SportsProjectData) (id0 : string)
    (newX newY : JS.Num) :
  Canvas.data p = SportsData d ->
  Canvas.reported (Canvas.handleMouseMove p st e) = Some (id0, newX, newY) ->
  let m := Canvas.getMetrics p st in
  clamped_report newX (-50) (sWidth d + 50)
  /\ clamped_report newY (-50) (sLength d + 50)
  /\ exists target,
       Canvas.dragTarget st = Some target
       /\ (newX = JS.NaN
           <-> scale m == 0
               /\ Canvas.mouseX e - offsetX target - originX m == 0)
       /\ (newY = JS.NaN
           <-> scale m == 0
               /\ Canvas.mouseY e - offsetY target - originY m == 0).
Proof.
  intros Hd H m.
  destruct (drag_report_spec p st e id0 newX newY H)
    as [_ [_ [_ [_ [target [obj [Ht [_ [_ [Cx [Cy [Nx Ny]]]]]]]]]]]].
  unfold drag_lo, drag_hiX, drag_hiY in Cx, Cy. rewrite Hd in Cx, Cy.
  cbn [mode_of dataWidth dataLength] in Cx, Cy.
  split; [exact Cx|]. split; [exact Cy|].
  exists target. split; [exact Ht|]. split; assumption.
Qed.

(** A post dragged 70 m to the left of a 40 m field stops 50 m out. *)
Lemma sports_drag_bounds_witness :
  exists newX newY,
    Canvas.reported
      (Canvas.handleMouseMove sports_props sports_state
         (Canvas.mkMouse 0 0 (60 - 70 * 20) 260 0 false))
    = Some ("p1"%string, JS.Fin newX, JS.Fin newY)
    /\ newX == -50
    /\ clamped_report (JS.Fin newX) (-50) (40 + 50)
    /\ clamped_report (JS.Fin newY) (-50) (20 + 50).
Proof.
  eexists; eexists. split; [vm_compute; reflexivity|].
  split; [reflexivity|].
  destruct (sports_drag_bounds sports_props sports_state
              (Canvas.mkMouse 0 0 (60 - 70 * 20) 260 0 false)
              (mkSports 40 20
                 [ mkPlaced "p1" POST 0 10 (1 # 2) (1 # 2) 6 0 "P1";
                   mkPlaced "c1" COVERING 10 5 8 4 (1 # 5) 3 "C1" ] "")
              "p1"%string _ _ eq_refl eq_refl) as [Cx [Cy _]].
  split; assumption.
Defined.

Lemma view_scale_bounds_witness :
  let st := Canvas.view_step clamp_props Canvas.initial (Canvas.Wheel (-100)) in
  tScale (Canvas.transform st) == 1.1
  /\ 0.5 <= tScale (Canvas.transform
                      (Canvas.view_step clamp_props st Canvas.ZoomIn)) <= 10.
Proof.
  intro st. split; [reflexivity|].
  apply view_scale_bounds. split; discriminate.
Defined.

(** X13.  From the initial view, whatever the user does with mouse, wheel
    and zoom buttons, the zoom stays within [0.5, 10]. *)
Theorem zoom_always_bounded (p : Canvas.Props) (acts : list Canvas.ViewAction) :
  0.5 <= tScale (Canvas.transform
                   (fold_left (Canvas.view_step p) acts Canvas.initial)) <= 10.
Proof.
  assert (H0 : 0.5 <= tScale (Canvas.transform Canvas.initial) <= 10)
    by (split; discriminate).
  revert H0. generalize Canvas.initial.
  induction acts as [|a acts IH]; intros st H; cbn [fold_left].
  - exact H.
  - apply IH. apply view_scale_bounds. exact H.
Qed.

Lemma Qfloor_unique (q : Q) (k : Z) :
  inject_Z k <= q -> q < inject_Z k + 1 -> Qfloor q = k.
Proof.
  intros Hlo Hhi.
  pose proof (Qfloor_le q) as L1. pose proof (Qlt_floor q) as L2.
  rewrite inject_Z_plus in L2. change (inject_Z 1) with 1 in L2.
  assert (A : inject_Z (Qfloor q) < inject_Z (k + 1)).
  { rewrite inject_Z_plus. change (inject_Z 1) with 1. lra. }
  assert (B : inject_Z k < inject_Z (Qfloor q + 1)).
  { rewrite inject_Z_plus. change (inject_Z 1) with 1. lra. }
  rewrite <- Zlt_Qlt in A, B. lia.
Qed.

Lemma snap_compat (a b : Q) : a == b -> snap a == snap b.
Proof.
  intro E. unfold snap, JS.Math_round.
  assert (F : Qfloor (a / Canvas.SNAP_INCREMENT + (1 # 2))
              = Qfloor (b / Canvas.SNAP_INCREMENT + (1 # 2)))
    by (apply Qfloor_comp; rewrite E; reflexivity).
  rewrite F. reflexivity.
Qed.

(** A position already on the grid is its own snap. *)
Lemma snap_on_grid (q : Q) : on_half_grid q -> snap q == q.
Proof.
  intros [k Hk]. unfold snap, JS.Math_round.
  assert (E : q / Canvas.SNAP_INCREMENT + (1 # 2) == inject_Z k + (1 # 2)).
  { rewrite Hk. unfold Canvas.SNAP_INCREMENT. field. }
  rewrite (Qfloor_comp _ _ E), (Qfloor_unique _ k); [|lra|lra].
  symmetry. exact Hk.
Qed.

Lemma find_by_id_NoDup (l : list CanvasObject) (o : CanvasObject) :
  NoDup (map id l) -> In o l ->
  find (fun r => String.eqb (id r) (id o)) l = Some o.
Proof.
  induction l as [|a l IH]; intros Hnd Hin; [contradiction|].
  cbn in Hnd. inversion Hnd as [|? ? Hnotin Hnd']; subst.
  cbn [find]. destruct Hin as [-> | Hin].
  - rewrite String.eqb_refl. reflexivity.
  - destruct (String.eqb (id a) (id o)) eqn:E.
    + apply String.eqb_eq in E. exfalso. apply Hnotin. rewrite E.
      apply in_map. exact Hin.
    + apply IH; assumption.
Qed.

(** X14.  A click does not make the object jump: in the interactive
    industrial 2D view at a non-zero scale, with distinct identifiers, when a
    primary-button press hits an object, a mouse move at the very same place
    reports that object at the snap of its present position, clamped to the
    site; an object that is on the 0.5 m grid and inside the site is reported
    exactly where it is. *)
Theorem click_then_move_stays (p : Canvas.Props) (st : Canvas.State)
    (e : Canvas.MouseEvent) (d : ProjectData) (obj : CanvasObject) :
  Canvas.data p = IndustrialData d ->
  Canvas.viewMode p = View2D -> Canvas.isInteractive p = true ->
  Canvas.onRackMove p = true -> Canvas.isPanning st = false ->
  Canvas.button e <> 1%Z -> Canvas.button e <> 2%Z -> Canvas.altKey e = false ->
  ~ scale (Canvas.getMetrics p st) == 0 ->
  NoDup (map id (getObjects (Canvas.data p))) ->
  find (Canvas.hit (Canvas.getMetrics p st) (Canvas.mouseX e) (Canvas.mouseY e))
       (rev (getObjects (Canvas.data p))) = Some obj ->
  exists newX newY,
    Canvas.handleMouseMove p (Canvas.handleMouseDown p st e) e
    = Canvas.Dragged (Some (id obj, newX, newY))
    /\ newX == JS.Math_max 0 (JS.Math_min (snap (x obj)) (pWidth d - width obj))
    /\ newY == JS.Math_max 0 (JS.Math_min (snap (y obj)) (pLength d - depth obj))
    /\ (on_half_grid (x obj) -> 0 <= x obj <= pWidth d - width obj ->
        newX == x obj)
    /\ (on_half_grid (y obj) -> 0 <= y obj <= pLength d - depth obj ->
        newY == y obj).
Proof.
  intros Hd Hv Hi Hcb Hp Hb1 Hb2 Ha Hs Hnd Hf.
  assert (Hin : In obj (getObjects (Canvas.data p))).
  { apply find_some in Hf. destruct Hf as [Hin _].
    apply in_rev in Hin. exact Hin. }
  pose proof (find_by_id_NoDup _ _ Hnd Hin) as Hfind.
  apply Z.eqb_neq in Hb1. apply Z.eqb_neq in Hb2.
  assert (Hdown : Canvas.handleMouseDown p st e
                  = Canvas.mkState
                      (Some (mkDrag (id obj)
                               (Canvas.mouseX e
                                - (originX (Canvas.getMetrics p st)
                                   + x obj * scale (Canvas.getMetrics p st)))
                               (Canvas.mouseY e
                                - (originY (Canvas.getMetrics p st)
                                   + y obj * scale (Canvas.getMetrics p st)))))
                      (Canvas.hoveredBlockId st) (Canvas.transform st)
                      (Canvas.isPanning st) (Canvas.lastMousePos st)).
  { unfold Canvas.handleMouseDown. rewrite Hv, Hi, Ha, Hb1, Hb2. cbn [orb negb].
    rewrite Hf. reflexivity. }
  rewrite Hdown.
  match goal with
  | |- context [Canvas.handleMouseMove p ?s e] => set (st1 := s)
  end.
  assert (Hm : Canvas.getMetrics p st1 = Canvas.getMetrics p st)
    by reflexivity.
  assert (Hp1 : Canvas.isPanning st1 = false) by exact Hp.
  unfold Canvas.handleMouseMove.
  rewrite Hv, Hi, Hcb, Hp1, Hm. set (m := Canvas.getMetrics p st) in *.
  subst st1. cbn [Canvas.dragTarget negb].
  cbn [dragId offsetX offsetY].
  unfold Canvas.toMeters, JS.div.
  replace (Qeq_bool (scale m) 0) with false
    by (symmetry; apply Qeq_bool_false; exact Hs).
  rewrite Hfind, Hd. cbn [mode_of dataWidth dataLength].
  eexists; eexists. split; [reflexivity|].
  assert (Ex : (Canvas.mouseX e - (Canvas.mouseX e - (originX m + x obj * scale m))
                - originX m) / scale m == x obj) by (field; exact Hs).
  assert (Ey : (Canvas.mouseY e - (Canvas.mouseY e - (originY m + y obj * scale m))
                - originY m) / scale m == y obj) by (field; exact Hs).
  pose proof (snap_compat _ _ Ex) as Sx. pose proof (snap_compat _ _ Ey) as Sy.
  unfold snap in Sx, Sy at 1. unfold JS.Math_max, JS.Math_min.
  split; [rewrite Sx; reflexivity|]. split; [rewrite Sy; reflexivity|].
  split.
  - intros Hg [Hlo Hhi]. rewrite Sx, (snap_on_grid _ Hg).
    rewrite (proj2 (Q.min_l_iff _ _)) by exact Hhi.
    apply Q.max_r. exact Hlo.
  - intros Hg [Hlo Hhi]. rewrite Sy, (snap_on_grid _ Hg).
    rewrite (proj2 (Q.min_l_iff _ _)) by exact Hhi.
    apply Q.max_r. exact Hlo.
Qed.

Lemma click_then_move_stays_witness :
  let p := IndustrialApp.canvasProps one_default_rack in
  let e := Canvas.mkMouse 230 130 230 130 0 false in
  exists newX newY,
    Canvas.handleMouseMove p (Canvas.handleMouseDown p Canvas.initial e) e
    = Canvas.Dragged (Some ("r1"%string, newX, newY))
    /\ newX == 1 /\ newY == 1.
Proof.
  intros p e.
  destruct (click_then_move_stays p Canvas.initial e
              (IndustrialApp.data one_default_rack)
              (mkPlaced "r1" (OfIndustrial RACK) 1 1 1.2 1.0 2.0 0 "B1"))
    as [newX [newY [H1 [_ [_ [H4 H5]]]]]];
    [ reflexivity | vm_compute; reflexivity | vm_compute; reflexivity
    | reflexivity | reflexivity | discriminate | discriminate | reflexivity
    | vm_compute; discriminate | | vm_compute; reflexivity | ].
  - repeat constructor. intros [].
  - exists newX, newY. split; [exact H1|]. split.
    + apply H4; [exists 2%Z; reflexivity | split; discriminate].
    + apply H5; [exists 2%Z; reflexivity | split; discriminate].
Defined.

(** ** Nearest neighbours, continued *)

Lemma visit_other_sides (obj other : CanvasObject) (n : Nearest) :
  (closestRight (visit_other obj n other), distRight (visit_other obj n other))
  = pick (cand_right obj) (gap_right obj) (closestRight n, distRight n) other
  /\ (closestLeft (visit_other obj n other), distLeft (visit_other obj n other))
     = pick (cand_left obj) (gap_left obj) (closestLeft n, distLeft n) other
  /\ (closestBottom (visit_other obj n other),
      distBottom (visit_other obj n other))
     = pick (cand_bottom obj) (gap_bottom obj)
            (closestBottom n, distBottom n) other
  /\ (closestTop (visit_other obj n other), distTop (visit_other obj n other))
     = pick (cand_top obj) (gap_top obj) (closestTop n, distTop n) other.
Proof.
  destruct n as [cl cr ct cb dl dr dt db].
  unfold visit_other, pick, cand_right, cand_left, cand_bottom, cand_top,
    gap_right, gap_left, gap_bottom, gap_top,
    set_right, set_left, set_bottom, set_top.
  cbn [closestLeft closestRight closestTop closestBottom
       distLeft distRight distTop distBottom fst snd].
  destruct (JS.Qlt_bool 0 (vertOverlap obj other));
    destruct (JS.Qlt_bool 0 (horzOverlap obj other));
    destruct (Qle_bool (x obj + width obj) (x other));
    destruct (Qle_bool (x other + width other) (x obj));
    destruct (Qle_bool (y obj + depth obj) (y other));
    destruct (Qle_bool (y other + depth other) (y obj));
    cbn [andb];
    try destruct (lt_dist (x other - (x obj + width obj)) dr);
    cbn [closestLeft closestRight closestTop closestBottom
         distLeft distRight distTop distBottom fst snd];
    try destruct (lt_dist (x obj - (x other + width other)) dl);
    cbn [closestLeft closestRight closestTop closestBottom
         distLeft distRight distTop distBottom fst snd];
    try destruct (lt_dist (y other - (y obj + depth obj)) db);
    cbn [closestLeft closestRight closestTop closestBottom
         distLeft distRight distTop distBottom fst snd];
    try destruct (lt_dist (y obj - (y other + depth other)) dt);
    cbn [closestLeft closestRight closestTop closestBottom
         distLeft distRight distTop distBottom fst snd];
    repeat split; reflexivity.
Qed.

Lemma nearest_sides (obj : CanvasObject) (others : list CanvasObject) :
  forall n,
    let r := fold_left (visit_other obj) others n in
    (closestRight r, distRight r)
    = fold_left (pick (cand_right obj) (gap_right obj)) others
                (closestRight n, distRight n)
    /\ (closestLeft r, distLeft r)
       = fold_left (pick (cand_left obj) (gap_left obj)) others
                   (closestLeft n, distLeft n)
    /\ (closestBottom r, distBottom r)
       = fold_left (pick (cand_bottom obj) (gap_bottom obj)) others
                   (closestBottom n, distBottom n)
    /\ (closestTop r, distTop r)
       = fold_left (pick (cand_top obj) (gap_top obj)) others
                   (closestTop n, distTop n).
Proof.
  induction others as [|o others IH]; intro n; cbn zeta; cbn [fold_left].
  - repeat split; reflexivity.
  - destruct (visit_other_sides obj o n) as [A [B [C D]]].
    destruct (IH (visit_other obj n o)) as [A' [B' [C' D']]].
    cbv zeta in *. rewrite <- A, <- B, <- C, <- D. repeat split; assumption.
Qed.

Lemma pick_minimum (cand : CanvasObject -> bool) (gap : CanvasObject -> Q)
    (others : list CanvasObject) :
  match fold_left (pick cand gap) others (None, None) with
  | (None, d) => d = None /\ forall o, In o others -> cand o = false
  | (Some c, d) =>
      In c others /\ cand c = true /\ d = Some (gap c)
      /\ forall o, In o others -> cand o = true -> gap c <= gap o
  end.
Proof.
  induction others as [|o others IH] using rev_ind.
  - cbn. split; [reflexivity | intros o []].
  - rewrite fold_left_app. cbn [fold_left].
    destruct (fold_left (pick cand gap) others (None, None)) as [[c|] d].
    + destruct IH as [Hin [Hc [Hd Hmin]]]. subst d.
      unfold pick. cbn [snd lt_dist].
      destruct (cand o) eqn:Eo; cbn [andb].
      * destruct (JS.Qlt_bool (gap o) (gap c)) eqn:El.
        -- apply Qlt_bool_true in El.
           split; [apply in_or_app; right; left; reflexivity|].
           split; [exact Eo|]. split; [reflexivity|].
           intros o' Ho' Hc'. apply in_app_or in Ho'.
           destruct Ho' as [Ho' | [<- | []]]; [|apply Qle_refl].
           specialize (Hmin o' Ho' Hc'). lra.
        -- apply Qlt_bool_false in El.
           split; [apply in_or_app; left; exact Hin|].
           split; [exact Hc|]. split; [reflexivity|].
           intros o' Ho' Hc'. apply in_app_or in Ho'.
           destruct Ho' as [Ho' | [<- | []]];
             [apply Hmin; assumption | exact El].
      * split; [apply in_or_app; left; exact Hin|].
        split; [exact Hc|]. split; [reflexivity|].
        intros o' Ho' Hc'. apply in_app_or in Ho'.
        destruct Ho' as [Ho' | [<- | []]];
          [apply Hmin; assumption | congruence].
    + destruct IH as [Hd Hnone]. subst d.
      unfold pick. cbn [snd lt_dist].
      destruct (cand o) eqn:Eo; cbn [andb].
      * split; [apply in_or_app; right; left; reflexivity|].
        split; [exact Eo|]. split; [reflexivity|].
        intros o' Ho' Hc'. apply in_app_or in Ho'.
        destruct Ho' as [Ho' | [<- | []]]; [|apply Qle_refl].
        rewrite (Hnone o' Ho') in Hc'. discriminate.
      * split; [reflexivity|].
        intros o' Ho'. apply in_app_or in Ho'.
        destruct Ho' as [Ho' | [<- | []]]; [apply Hnone; exact Ho' | exact Eo].
Qed.

Lemma nearest_on_side_of_pick (objects : list CanvasObject)
    (obj : CanvasObject) (cand : CanvasObject -> bool)
    (gap : CanvasObject -> Q) (closest : option CanvasObject)
    (dist : option Q) :
  (forall o, cand o = true -> 0 <= gap o) ->
  (closest, dist)
  = fold_left (pick cand gap) (others_of objects obj) (None, None) ->
  nearest_on_side objects obj cand gap closest dist.
Proof.
  intros Hpos E. pose proof (pick_minimum cand gap (others_of objects obj)) as H.
  rewrite <- E in H. unfold nearest_on_side.
  assert (Hoth : forall o, In o (others_of objects obj)
                           <-> In o objects /\ id o <> id obj).
  { intro o. unfold others_of. rewrite filter_In, negb_true_iff.
    rewrite String.eqb_neq. tauto. }
  destruct closest as [c|].
  - destruct H as [Hin [Hc [Hd Hmin]]]. apply Hoth in Hin.
    destruct Hin as [Hin Hid].
    repeat (split; [assumption|]). split; [apply Hpos; exact Hc|].
    intros o Ho Hido Hco. apply Hmin; [apply Hoth; split; assumption | exact Hco].
  - destruct H as [Hd Hnone]. split; [exact Hd|].
    intros o Ho Hido. apply Hnone. apply Hoth. split; assumption.
Qed.

Lemma nearest_sides_ok (objects : list CanvasObject) (obj : CanvasObject) :
  let n := nearestNeighbors objects obj in
  nearest_on_side objects obj (cand_right obj) (gap_right obj)
                  (closestRight n) (distRight n)
  /\ nearest_on_side objects obj (cand_left obj) (gap_left obj)
                     (closestLeft n) (distLeft n)
  /\ nearest_on_side objects obj (cand_bottom obj) (gap_bottom obj)
                     (closestBottom n) (distBottom n)
  /\ nearest_on_side objects obj (cand_top obj) (gap_top obj)
                     (closestTop n) (distTop n).
Proof.
  intro n. unfold n, nearestNeighbors. fold (others_of objects obj).
  destruct (nearest_sides obj (others_of objects obj) nearest_init)
    as [A [B [C D]]].
  cbv zeta in *. cbn [nearest_init closestRight closestLeft closestBottom
                      closestTop distRight distLeft distBottom distTop] in *.
  repeat split; (apply nearest_on_side_of_pick; [|assumption]);
    intros o Ho;
    unfold cand_right, cand_left, cand_bottom, cand_top in Ho;
    apply andb_true_iff in Ho; destruct Ho as [_ Ho];
    apply Qle_bool_iff in Ho;
    unfold gap_right, gap_left, gap_bottom, gap_top; lra.
Qed.

(** X15.  The neighbour search records, on each of the four sides, the
    nearest object that counts on that side: it is another object of the
    scene (a different identifier), it overlaps the dragged object in the
    other axis (within the epsilon) and lies wholly beyond the facing edge,
    its gap is the recorded distance and is not negative, and no other such
    object has a smaller gap; when no object counts on a side, nothing is
    recorded there. *)
Theorem nearest_is_closest (objects : list CanvasObject) (obj : CanvasObject) :
  let n := nearestNeighbors objects obj in
  nearest_on_side objects obj (cand_right obj) (gap_right obj)
                  (closestRight n) (distRight n)
  /\ nearest_on_side objects obj (cand_left obj) (gap_left obj)
                     (closestLeft n) (distLeft n)
  /\ nearest_on_side objects obj (cand_bottom obj) (gap_bottom obj)
                     (closestBottom n) (distBottom n)
  /\ nearest_on_side objects obj (cand_top obj) (gap_top obj)
                     (closestTop n) (distTop n).
Proof.
  exact (nearest_sides_ok objects obj).
Qed.

(** ** Lighting trace *)

Lemma count_arcs_app (l1 l2 : list Call) :
  count_arcs (l1 ++ l2) = (count_arcs l1 + count_arcs l2)%nat.
Proof. unfold count_arcs. rewrite filter_app, length_app. reflexivity. Qed.

Lemma count_lines_app (l1 l2 : list Call) :
  count_lines (l1 ++ l2) = (count_lines l1 + count_lines l2)%nat.
Proof. unfold count_lines. rewrite filter_app, length_app. reflexivity. Qed.

Lemma count_arcs_flat_map {A : Type} (f : A -> list Call) (c : nat)
    (l : list A) :
  (forall a, count_arcs (f a) = c) ->
  count_arcs (flat_map f l) = (List.length l * c)%nat.
Proof.
  intro H. induction l as [|a l IH]; [reflexivity|].
  cbn [flat_map List.length]. rewrite count_arcs_app, H, IH. lia.
Qed.

Lemma count_lines_flat_map_zero {A : Type} (f : A -> list Call) (l : list A) :
  (forall a, count_lines (f a) = 0%nat) ->
  count_lines (flat_map f l) = 0%nat.
Proof.
  intro H. induction l as [|a l IH]; [reflexivity|].
  cbn [flat_map]. rewrite count_lines_app, H, IH. reflexivity.
Qed.

Lemma count_lines_profiles (f : Q -> list Call) (keep : Q -> bool)
    (l : list Q) :
  (forall a, count_lines (f a) = if keep a then 1%nat else 0%nat) ->
  count_lines (flat_map f l) = List.length (filter keep l).
Proof.
  intro H. induction l as [|a l IH]; [reflexivity|].
  cbn [flat_map filter]. rewrite count_lines_app, H, IH.
  destruct (keep a); reflexivity.
Qed.

Lemma strokes_of_app (l1 l2 : list Call) :
  strokes_of (l1 ++ l2) = strokes_of l1 ++ strokes_of l2.
Proof. apply filter_app. Qed.

Lemma arcs_of_app (l1 l2 : list Call) :
  arcs_of (l1 ++ l2) = arcs_of l1 ++ arcs_of l2.
Proof. apply filter_app. Qed.

Lemma filter_flat_map {A B : Type} (f : B -> bool) (g : A -> list B)
    (l : list A) :
  filter f (flat_map g l) = flat_map (fun a => filter f (g a)) l.
Proof.
  induction l as [|a l IH]; [reflexivity|].
  cbn [flat_map]. rewrite filter_app, IH. reflexivity.
Qed.

Lemma flat_map_pointwise {A B : Type} (g h : A -> list B) (l : list A) :
  (forall a, g a = h a) -> flat_map g l = flat_map h l.
Proof.
  intro H. induction l as [|a l IH]; [reflexivity|].
  cbn [flat_map]. rewrite H, IH. reflexivity.
Qed.

Lemma flat_map_nothing {A B : Type} (g : A -> list B) (l : list A) :
  (forall a, g a = []) -> flat_map g l = [].
Proof.
  intro H. induction l as [|a l IH]; [reflexivity|].
  cbn [flat_map]. rewrite H, IH. reflexivity.
Qed.

(** The path commands and the dots of the lighting layer, position by
    position. *)
Lemma lighting_trace_shape (d : ProjectData) (m : Metrics) :
  isActive (lighting d) = true ->
  let calls := lighting_calls (IndustrialData d) m in
  let ps := Current.sceneProfilePositions d in
  strokes_of calls
  = flat_map (fun pos => if Qle_bool pos (Current.axisLimit d)
                         then profile_line d m pos else []) ps
  /\ arcs_of calls
     = flat_map (fun pos =>
                   map (fixture_dot d m pos)
                       (seq 0 (Z.to_nat
                                 (Qceiling (fixturesPerProfile (lighting d))))))
                ps.
Proof.
  intros Ha calls ps. unfold calls, lighting_calls. rewrite Ha. fold ps.
  set (fpp := fixturesPerProfile (lighting d)).
  set (lines := flat_map _ ps).
  set (fixtures := flat_map _ ps).
  assert (S1 : strokes_of lines
               = flat_map (fun pos => if Qle_bool pos (Current.axisLimit d)
                                      then profile_line d m pos else []) ps).
  { unfold lines, strokes_of. rewrite filter_flat_map.
    apply flat_map_pointwise. intro pos. unfold JS.Qlt_bool, profile_line.
    destruct (Qle_bool pos (Current.axisLimit d)); cbn [negb];
      [destruct (Current.isLongitudinal (lighting d))|]; reflexivity. }
  assert (A1 : arcs_of lines = []).
  { unfold lines, arcs_of. rewrite filter_flat_map.
    apply flat_map_nothing. intro pos.
    destruct (JS.Qlt_bool (Current.axisLimit d) pos); [reflexivity|].
    destruct (Current.isLongitudinal (lighting d)); reflexivity. }
  assert (S2 : strokes_of fixtures = []).
  { unfold fixtures, strokes_of. rewrite filter_flat_map.
    apply flat_map_nothing. intro pos. rewrite filter_flat_map.
    apply flat_map_nothing. intro i.
    destruct (Current.isLongitudinal (lighting d)); reflexivity. }
  assert (A2 : arcs_of fixtures
               = flat_map (fun pos =>
                             map (fixture_dot d m pos)
                                 (seq 0 (Z.to_nat (Qceiling fpp)))) ps).
  { unfold fixtures, arcs_of. rewrite filter_flat_map.
    apply flat_map_pointwise. intro pos.
    rewrite for_loop_from_zero, filter_flat_map.
    generalize (seq 0 (Z.to_nat (Qceiling fpp))). intro ks.
    induction ks as [|k ks IH]; [reflexivity|].
    cbn [map flat_map]. rewrite IH. unfold fixture_dot, fixture_distance.
    fold fpp. destruct (Current.isLongitudinal (lighting d)); reflexivity. }
  rewrite !strokes_of_app, !arcs_of_app, S1, A1.
  change (strokes_of [beginPath]) with (@nil Call).
  change (strokes_of [stroke]) with (@nil Call).
  change (arcs_of [beginPath]) with (@nil Call).
  change (arcs_of [stroke]) with (@nil Call).
  cbn [app]. 
  destruct (JS.Qlt_bool 0 fpp) eqn:Ef; cbn [andb].
  - destruct (List.length ps =? 0)%nat eqn:El; cbn [negb].
    + apply Nat.eqb_eq in El. apply length_zero_iff_nil in El.
      rewrite El. split; reflexivity.
    + rewrite S2, A2, app_nil_r. split; reflexivity.
  - rewrite app_nil_r. split; [reflexivity|].
    apply Qlt_bool_false in Ef.
    assert (Hn : Z.to_nat (Qceiling fpp) = 0%nat).
    { assert (Hc : (Qceiling fpp <= 0)%Z).
      { change 0%Z with (Qceiling 0). apply Qceiling_resp_le. exact Ef. }
      lia. }
    rewrite Hn. symmetry. apply flat_map_nothing. reflexivity.
Qed.

Lemma lighting_trace_counts (d : ProjectData) (m : Metrics) :
  isActive (lighting d) = true ->
  let calls := lighting_calls (IndustrialData d) m in
  let ps := Current.sceneProfilePositions d in
  count_lines calls
  = List.length (filter (fun pos => Qle_bool pos (Current.axisLimit d)) ps)
  /\ (0 < fixturesPerProfile (lighting d) ->
      count_arcs calls
      = (List.length ps
         * Z.to_nat (Qceiling (fixturesPerProfile (lighting d))))%nat)
  /\ (fixturesPerProfile (lighting d) <= 0 -> count_arcs calls = 0%nat).
Proof.
  intros Ha calls ps. unfold calls, lighting_calls. rewrite Ha. fold ps.
  set (fpp := fixturesPerProfile (lighting d)).
  set (lines := flat_map _ ps).
  set (fixtures := flat_map _ ps).
  assert (Hlines_arcs : count_arcs lines = 0%nat).
  { unfold lines. rewrite (count_arcs_flat_map _ 0%nat); [lia|].
    intro pos. cbv beta.
    destruct (JS.Qlt_bool (Current.axisLimit d) pos); [reflexivity|].
    destruct (Current.isLongitudinal (lighting d)); reflexivity. }
  assert (Hlines : count_lines lines
                   = List.length
                       (filter (fun pos => Qle_bool pos (Current.axisLimit d)) ps)).
  { unfold lines. apply count_lines_profiles. intro pos.
    cbv beta. unfold JS.Qlt_bool.
    destruct (Qle_bool pos (Current.axisLimit d)); cbn [negb];
      [destruct (Current.isLongitudinal (lighting d))|]; reflexivity. }
  assert (Hfix_each : forall pos,
             count_arcs
               (flat_map
                  (fun i : Z =>
                     if Current.isLongitudinal (lighting d)
                     then drawFixture m pos
                            (if Qeq_bool fpp 1
                             then (if Current.isLongitudinal (lighting d)
                                   then pLength d else pWidth d) / 2
                             else 1 + inject_Z i
                                      * (if JS.Qlt_bool 1 fpp
                                         then ((if Current.isLongitudinal (lighting d)
                                                then pLength d else pWidth d)
                                               - 1 * 2) / (fpp - 1)
                                         else 0))
                     else drawFixture m
                            (if Qeq_bool fpp 1
                             then (if Current.isLongitudinal (lighting d)
                                   then pLength d else pWidth d) / 2
                             else 1 + inject_Z i
                                      * (if JS.Qlt_bool 1 fpp
                                         then ((if Current.isLongitudinal (lighting d)
                                                then pLength d else pWidth d)
                                               - 1 * 2) / (fpp - 1)
                                         else 0))
                            pos)
                  (JS.for_loop 0 1 fpp))
             = Z.to_nat (Qceiling fpp)).
  { intro pos. rewrite (count_arcs_flat_map _ 1%nat).
    - rewrite for_loop_from_zero, length_map, length_seq. lia.
    - intro i. destruct (Current.isLongitudinal (lighting d)); reflexivity. }
  assert (Hfix_lines : count_lines fixtures = 0%nat).
  { unfold fixtures. apply count_lines_flat_map_zero. intro pos.
    apply count_lines_flat_map_zero. intro i.
    destruct (Current.isLongitudinal (lighting d)); reflexivity. }
  assert (Hfix : count_arcs fixtures
                 = (List.length ps * Z.to_nat (Qceiling fpp))%nat).
  { unfold fixtures. apply count_arcs_flat_map. exact Hfix_each. }
  rewrite !count_lines_app, !count_arcs_app, Hlines, Hlines_arcs.
  split; [|split].
  - destruct (JS.Qlt_bool 0 fpp && negb (List.length ps =? 0)%nat);
      [rewrite Hfix_lines|]; cbn; lia.
  - intro Hpos.
    replace (JS.Qlt_bool 0 fpp) with true
      by (symmetry; apply Qlt_bool_true; exact Hpos).
    cbn [andb]. destruct (List.length ps =? 0)%nat eqn:E; cbn [negb].
    + apply Nat.eqb_eq in E. rewrite E. reflexivity.
    + rewrite Hfix. cbn. lia.
  - intro Hneg.
    replace (JS.Qlt_bool 0 fpp) with false
      by (symmetry; apply Qlt_bool_false; exact Hneg).
    reflexivity.
Qed.

(** X16.  Lines and fixtures of the lighting layer (industrial, lighting
    active), position by position.  The path commands of the layer are, for
    each profile position in order, one segment from wall to wall at that
    position, unless the position exceeds [axisLimit], which gets none.  Its
    dots are, for each profile position in order, skipped or not,
    [ceil(fixturesPerProfile)] dots on that position (none when
    [fixturesPerProfile <= 0]), the [i]-th at [profileLength / 2] along the
    profile when [fixturesPerProfile] is 1, and otherwise at
    [1 + i * (profileLength - 2) / (fixturesPerProfile - 1)], the step being
    0 when [fixturesPerProfile < 1].  Hence one line per position that does
    not exceed [axisLimit] and [ceil(fixturesPerProfile)] dots per
    position. *)
Theorem lighting_lines_and_fixtures (d : ProjectData) (m : Metrics) :
  isActive (lighting d) = true ->
  let calls := lighting_calls (IndustrialData d) m in
  let ps := Current.sceneProfilePositions d in
  strokes_of calls
  = flat_map (fun pos => if Qle_bool pos (Current.axisLimit d)
                         then profile_line d m pos else []) ps
  /\ arcs_of calls
     = flat_map (fun pos =>
                   map (fixture_dot d m pos)
                       (seq 0 (Z.to_nat
                                 (Qceiling (fixturesPerProfile (lighting d))))))
                ps
  /\ count_lines calls
     = List.length (filter (fun pos => Qle_bool pos (Current.axisLimit d)) ps)
  /\ (0 < fixturesPerProfile (lighting d) ->
      count_arcs calls
      = (List.length ps
         * Z.to_nat (Qceiling (fixturesPerProfile (lighting d))))%nat)
  /\ (fixturesPerProfile (lighting d) <= 0 -> count_arcs calls = 0%nat).
Proof.
  intros Ha calls ps.
  destruct (lighting_trace_shape d m Ha) as [S A].
  destruct (lighting_trace_counts d m Ha) as [C1 [C2 C3]].
  repeat (split; [assumption|]). exact C3.
Qed.

Lemma lighting_lines_and_fixtures_witness :
  let m := sceneMetrics (IndustrialData overhanging_profiles) 900 700
                        (mkTransform 1 0 0) in
  let calls := lighting_calls (IndustrialData overhanging_profiles) m in
  List.length (Current.sceneProfilePositions overhanging_profiles) = 7%nat
  /\ count_lines calls = 6%nat
  /\ count_arcs calls = 21%nat.
Proof.
  intros m calls. subst calls.
  destruct (lighting_lines_and_fixtures overhanging_profiles m eq_refl)
    as [_ [_ [H1 [H2 _]]]].
  split; [vm_compute; reflexivity|]. split.
  - rewrite H1. vm_compute. reflexivity.
  - rewrite H2; [vm_compute; reflexivity | reflexivity].
Defined.

(** ** Drawing order *)

Lemma insert_by_perm {A : Type} (key : A -> Q) (a : A) (l : list A) :
  Permutation.Permutation (insert_by key a l) (a :: l).
Proof.
  induction l as [|b l IH]; cbn [insert_by].
  - apply Permutation.Permutation_refl.
  - destruct (JS.Qlt_bool (key a) (key b)).
    + apply Permutation.Permutation_refl.
    + eapply Permutation.perm_trans.
      * apply Permutation.perm_skip. exact IH.
      * apply Permutation.perm_swap.
Qed.

Lemma insert_by_sorted {A : Type} (key : A -> Q) (a : A) (l : list A) :
  Sorted.StronglySorted (fun u v => key u <= key v) l ->
  Sorted.StronglySorted (fun u v => key u <= key v) (insert_by key a l).
Proof.
  intro H. induction H as [|b l Hs IH Hb]; cbn [insert_by].
  - constructor; constructor.
  - destruct (JS.Qlt_bool (key a) (key b)) eqn:E.
    + apply Qlt_bool_true in E. constructor.
      * constructor; assumption.
      * constructor; [lra|].
        eapply Forall_impl; [|exact Hb]. intros c Hc. cbn in Hc. lra.
    + apply Qlt_bool_false in E. constructor; [exact IH|].
      eapply Permutation.Permutation_Forall.
      * apply Permutation.Permutation_sym. apply insert_by_perm.
      * constructor; assumption.
Qed.

Lemma sort_by_spec {A : Type} (key : A -> Q) (l : list A) :
  Permutation.Permutation (sort_by key l) l
  /\ Sorted.StronglySorted (fun u v => key u <= key v) (sort_by key l).
Proof.
  unfold sort_by.
  assert (G : forall acc,
             Sorted.StronglySorted (fun u v => key u <= key v) acc ->
             Permutation.Permutation
               (fold_left (fun acc a => insert_by key a acc) l acc) (acc ++ l)
             /\ Sorted.StronglySorted (fun u v => key u <= key v)
                  (fold_left (fun acc a => insert_by key a acc) l acc)).
  { induction l as [|a l IH]; intros acc Hacc; cbn [fold_left].
    - rewrite app_nil_r. split; [apply Permutation.Permutation_refl | exact Hacc].
    - destruct (IH (insert_by key a acc) (insert_by_sorted key a acc Hacc))
        as [P S].
      split; [|exact S].
      eapply Permutation.perm_trans; [exact P|].
      eapply Permutation.perm_trans.
      + apply Permutation.Permutation_app_tail. apply insert_by_perm.
      + cbn. apply Permutation.Permutation_middle. }
  destruct (G [] (Sorted.SSorted_nil _)) as [P S]. split; assumption.
Qed.

(** Equal keys keep their order: what comes out for one key is what went
    in for that key, in the same order. *)
Lemma insert_by_stable {A : Type} (key : A -> Q) (k : Q) (a : A) (l : list A) :
  Sorted.StronglySorted (fun u v => key u <= key v) l ->
  filter (fun u => Qeq_bool (key u) k) (insert_by key a l)
  = filter (fun u => Qeq_bool (key u) k) (l ++ [a]).
Proof.
  intro H. induction H as [|b l Hs IH Hb]; cbn [insert_by]; [reflexivity|].
  destruct (JS.Qlt_bool (key a) (key b)) eqn:E.
  - apply Qlt_bool_true in E.
    rewrite filter_app. cbn [filter].
    destruct (Qeq_bool (key a) k) eqn:Ea; [|rewrite app_nil_r; reflexivity].
    apply Qeq_bool_iff in Ea.
    assert (Hb0 : Qeq_bool (key b) k = false)
      by (apply Qeq_bool_false; intro Eb; lra).
    rewrite Hb0.
    assert (Hl : filter (fun u => Qeq_bool (key u) k) l = []).
    { clear - Hb E Ea. induction l as [|c l IHl]; [reflexivity|].
      inversion Hb; subst. cbn [filter].
      replace (Qeq_bool (key c) k) with false
        by (symmetry; apply Qeq_bool_false; intro Ec; cbn in *; lra).
      apply IHl. assumption. }
    rewrite Hl. reflexivity.
  - cbn [filter app]. rewrite IH. reflexivity.
Qed.

Lemma sort_by_stable {A : Type} (key : A -> Q) (k : Q) (l : list A) :
  filter (fun u => Qeq_bool (key u) k) (sort_by key l)
  = filter (fun u => Qeq_bool (key u) k) l.
Proof.
  unfold sort_by.
  assert (G : forall acc,
             Sorted.StronglySorted (fun u v => key u <= key v) acc ->
             filter (fun u => Qeq_bool (key u) k)
                    (fold_left (fun acc a => insert_by key a acc) l acc)
             = filter (fun u => Qeq_bool (key u) k) (acc ++ l)).
  { induction l as [|a l IH]; intros acc Hacc; cbn [fold_left].
    - rewrite app_nil_r. reflexivity.
    - rewrite (IH _ (insert_by_sorted key a acc Hacc)).
      change (acc ++ a :: l) with (acc ++ [a] ++ l).
      rewrite !filter_app, (insert_by_stable key k a acc Hacc), filter_app.
      rewrite <- app_assoc. reflexivity. }
  apply (G [] (Sorted.SSorted_nil _)).
Qed.

(** X17.  Drawing order: the 2D render draws every placed object exactly
    once, in ascending order of elevation (a missing elevation counting as
    0), objects of equal elevation in the order of the collection; the 3D
    render does the same with the key [x + y + elevation]. *)
Theorem drawing_order (textWidth : Text -> Q) (data : CanvasData)
    (dragTarget : option DragTarget) (m : Metrics) :
  (exists order,
     objects_calls textWidth data dragTarget m
     = flat_map (object_calls textWidth data dragTarget m (getObjects data))
                order
     /\ Permutation.Permutation order (getObjects data)
     /\ Sorted.StronglySorted
          (fun a b => JS.or_default (elevation a) 0
                      <= JS.or_default (elevation b) 0) order
     /\ forall k,
          filter (fun o => Qeq_bool (JS.or_default (elevation o) 0) k) order
          = filter (fun o => Qeq_bool (JS.or_default (elevation o) 0) k)
                   (getObjects data))
  /\ (Permutation.Permutation (Scene3D.sortedObjects data) (getObjects data)
      /\ Sorted.StronglySorted
           (fun a b => Scene3D.depthKey a <= Scene3D.depthKey b)
           (Scene3D.sortedObjects data)
      /\ forall k,
           filter (fun o => Qeq_bool (Scene3D.depthKey o) k)
                  (Scene3D.sortedObjects data)
           = filter (fun o => Qeq_bool (Scene3D.depthKey o) k)
                    (getObjects data)).
Proof.
  split.
  - exists (sort_by (fun o => JS.or_default (elevation o) 0) (getObjects data)).
    split; [reflexivity|].
    destruct (sort_by_spec (fun o : CanvasObject => JS.or_default (elevation o) 0)
                (getObjects data)) as [P S].
    split; [exact P|]. split; [exact S|].
    intro k. apply (sort_by_stable
                      (fun o : CanvasObject => JS.or_default (elevation o) 0)).
  - unfold Scene3D.sortedObjects.
    destruct (sort_by_spec Scene3D.depthKey (getObjects data)) as [P S].
    split; [exact P|]. split; [exact S|].
    intro k. apply sort_by_stable.
Qed.

(** ** The isometric fit *)

Lemma visit_point_first (p : Scene3D.Pt) :
  bounds_cover (Scene3D.visit_point Scene3D.bounds_init p) [p].
Proof.
  exists (Scene3D.px p), (Scene3D.px p), (Scene3D.py p), (Scene3D.py p).
  cbn. repeat split; try reflexivity.
  constructor; [|constructor]. repeat split; apply Qle_refl.
Qed.

Lemma visit_point_next (b : Scene3D.Bounds) (p : Scene3D.Pt)
    (pts : list Scene3D.Pt) :
  bounds_cover b pts -> bounds_cover (Scene3D.visit_point b p) (p :: pts).
Proof.
  intros [mnx [mxx [mny [mxy [E1 [E2 [E3 [E4 HF]]]]]]]].
  destruct b as [a1 a2 a3 a4]. cbn in E1, E2, E3, E4. subst.
  unfold Scene3D.visit_point, bounds_cover.
  cbn [Scene3D.minX Scene3D.maxX Scene3D.minY Scene3D.maxY lt_dist
       Scene3D.gt_bound].
  destruct (JS.Qlt_bool (Scene3D.px p) mnx) eqn:B1;
    cbn [Scene3D.minX Scene3D.maxX Scene3D.minY Scene3D.maxY
         Scene3D.gt_bound lt_dist];
    destruct (JS.Qlt_bool mxx (Scene3D.px p)) eqn:B2;
    cbn [Scene3D.minX Scene3D.maxX Scene3D.minY Scene3D.maxY
         Scene3D.gt_bound lt_dist];
    destruct (JS.Qlt_bool (Scene3D.py p) mny) eqn:B3;
    cbn [Scene3D.minX Scene3D.maxX Scene3D.minY Scene3D.maxY
         Scene3D.gt_bound lt_dist];
    destruct (JS.Qlt_bool mxy (Scene3D.py p)) eqn:B4;
    cbn [Scene3D.minX Scene3D.maxX Scene3D.minY Scene3D.maxY];
    try apply Qlt_bool_true in B1; try apply Qlt_bool_false in B1;
    try apply Qlt_bool_true in B2; try apply Qlt_bool_false in B2;
    try apply Qlt_bool_true in B3; try apply Qlt_bool_false in B3;
    try apply Qlt_bool_true in B4; try apply Qlt_bool_false in B4;
    (do 4 eexists; repeat (split; [reflexivity|]);
     constructor;
     [ repeat split; lra
     | eapply Forall_impl; [|exact HF];
       intros q [[Q1 Q2] [Q3 Q4]]; cbn; repeat split; lra ]).
Qed.

Lemma fold_visit_cover (rest seen : list Scene3D.Pt) (b : Scene3D.Bounds) :
  bounds_cover b seen ->
  bounds_cover (fold_left Scene3D.visit_point rest b) (rev rest ++ seen).
Proof.
  revert seen b. induction rest as [|p rest IH]; intros seen b H; cbn.
  - exact H.
  - rewrite <- app_assoc. cbn. apply IH. apply visit_point_next. exact H.
Qed.

Lemma corners_covered (w l h : Q) :
  exists mnx mxx mny mxy,
    let b := fold_left Scene3D.visit_point (Scene3D.corners w l h)
                       Scene3D.bounds_init in
    Scene3D.minX b = Some mnx /\ Scene3D.maxX b = Some mxx
    /\ Scene3D.minY b = Some mny /\ Scene3D.maxY b = Some mxy
    /\ Forall (fun p => mnx <= Scene3D.px p <= mxx
                        /\ mny <= Scene3D.py p <= mxy)
              (Scene3D.corners w l h).
Proof.
  unfold Scene3D.corners. cbn [fold_left].
  pose proof (fold_visit_cover
                [ Scene3D.projectIso w 0 0; Scene3D.projectIso w l 0;
                  Scene3D.projectIso 0 l 0; Scene3D.projectIso 0 0 h;
                  Scene3D.projectIso w 0 h; Scene3D.projectIso w l h;
                  Scene3D.projectIso 0 l h ]
                [ Scene3D.projectIso 0 0 0 ] _
                (visit_point_first (Scene3D.projectIso 0 0 0))) as H.
  cbn [fold_left] in H.
  destruct H as [mnx [mxx [mny [mxy [E1 [E2 [E3 [E4 HF]]]]]]]].
  exists mnx, mxx, mny, mxy. cbv zeta.
  repeat (split; [assumption|]).
  rewrite Forall_forall in *. intros p Hp. apply HF.
  cbn [rev app]. cbn in Hp. cbn. tauto.
Qed.

Lemma scaled_within (d B s S A : Q) :
  0 < B -> 0 <= s <= S -> S * B == A -> - (B / 2) <= d <= B / 2 ->
  - (A / 2) <= d * s <= A / 2.
Proof.
  intros HB [Hs0 HsS] E [Hd1 Hd2].
  assert (HB2 : 0 < B / 2) by (apply Qlt_shift_div_l; lra).
  assert (U1 : d * s <= B / 2 * s) by (apply Qmult_le_compat_r; assumption).
  assert (U2 : B / 2 * s <= B / 2 * S) by (apply Qmult_le_l; assumption).
  assert (U3 : - (B / 2) * s <= d * s) by (apply Qmult_le_compat_r; assumption).
  assert (E2 : B / 2 * S == A / 2) by (rewrite <- E; field).
  assert (E3 : - (B / 2) * s == - (B / 2 * s)) by ring.
  rewrite E3 in U3. rewrite E2 in U2. split; lra.
Qed.

Lemma siteW_pos (data : CanvasData) :
  0 <= dataWidth data -> 0 < Scene3D.siteW data.
Proof.
  intro H. unfold Scene3D.siteW, JS.or_default.
  destruct (Qeq_bool (dataWidth data) 0) eqn:E; [reflexivity|].
  apply Qeq_bool_false in E. lra.
Qed.

Lemma siteL_pos (data : CanvasData) :
  0 <= dataLength data -> 0 < Scene3D.siteL data.
Proof.
  intro H. unfold Scene3D.siteL, JS.or_default.
  destruct (Qeq_bool (dataLength data) 0) eqn:E; [reflexivity|].
  apply Qeq_bool_false in E. lra.
Qed.

Lemma renderH_floor (data : CanvasData) :
  5 <= Scene3D.renderH data
  /\ Scene3D.siteH data <= Scene3D.renderH data
  /\ Scene3D.maxObjH (getObjects data) <= Scene3D.renderH data.
Proof.
  unfold Scene3D.renderH, JS.Math_max.
  pose proof (Q.le_max_r (Qmax (Scene3D.siteH data)
                               (Scene3D.maxObjH (getObjects data))) 5).
  pose proof (Q.le_max_l (Qmax (Scene3D.siteH data)
                               (Scene3D.maxObjH (getObjects data))) 5).
  pose proof (Q.le_max_l (Scene3D.siteH data)
                         (Scene3D.maxObjH (getObjects data))).
  pose proof (Q.le_max_r (Scene3D.siteH data)
                         (Scene3D.maxObjH (getObjects data))).
  repeat split; lra.
Qed.

Lemma or_default_zero (q : Q) : JS.or_default q 0 == q.
Proof.
  unfold JS.or_default. destruct (Qeq_bool q 0) eqn:E; [|reflexivity].
  apply Qeq_bool_iff in E. symmetry. exact E.
Qed.

Lemma maxObjH_fold (objects : list CanvasObject) :
  forall acc,
    let r := fold_left
               (fun maxObjH o =>
                  let oh := JS.or_default (elevation o) 0
                            + JS.or_default (height o) 0 in
                  if JS.Qlt_bool maxObjH oh then oh else maxObjH)
               objects acc in
    acc <= r
    /\ forall o, In o objects -> elevation o + height o <= r.
Proof.
  induction objects as [|a objects IH]; intro acc; cbn zeta; cbn [fold_left].
  - split; [apply Qle_refl | intros o []].
  - pose proof (or_default_zero (elevation a)) as Ee.
    pose proof (or_default_zero (height a)) as Eh.
    destruct (JS.Qlt_bool acc _) eqn:E.
    + apply Qlt_bool_true in E.
      destruct (IH (JS.or_default (elevation a) 0 + JS.or_default (height a) 0))
        as [H1 H2]. cbv zeta in H1, H2.
      split; [lra|]. intros o [<- | Ho]; [lra | apply H2; exact Ho].
    + apply Qlt_bool_false in E.
      destruct (IH acc) as [H1 H2]. cbv zeta in H1, H2.
      split; [exact H1|]. intros o [<- | Ho]; [lra | apply H2; exact Ho].
Qed.

Lemma view_fits (data : CanvasData) (width height : Q) :
  0 <= dataWidth data -> 0 <= dataLength data ->
  120 < width -> 120 < height ->
  exists v,
    Scene3D.view data width height = Some v
    /\ 0 < Scene3D.scale v
    /\ Scene3D.canvasCenterX v = width / 2
    /\ Scene3D.canvasCenterY v = height / 2
    /\ forall x y z,
         0 <= x <= Scene3D.siteW data -> 0 <= y <= Scene3D.siteL data ->
         0 <= z <= Scene3D.renderH data ->
         in_padded_view width height (Scene3D.toScreen v x y z).
Proof.
  intros Hw Hl Hpw Hph.
  pose proof (siteW_pos data Hw) as Hw'. pose proof (siteL_pos data Hl) as Hl'.
  destruct (renderH_floor data) as [H5 _].
  unfold Scene3D.view.
  set (w := Scene3D.siteW data) in *. set (l := Scene3D.siteL data) in *.
  set (h := Scene3D.renderH data) in *.
  destruct (corners_covered w l h) as [mnx [mxx [mny [mxy [E1 [E2 [E3 [E4 HF]]]]]]]].
  cbv zeta in E1, E2, E3, E4. rewrite E1, E2, E3, E4.
  rewrite Forall_forall in HF.
  assert (C1 : In (Scene3D.projectIso 0 l 0) (Scene3D.corners w l h))
    by (cbn; tauto).
  assert (C2 : In (Scene3D.projectIso w 0 0) (Scene3D.corners w l h))
    by (cbn; tauto).
  assert (C3 : In (Scene3D.projectIso 0 0 h) (Scene3D.corners w l h))
    by (cbn; tauto).
  assert (C4 : In (Scene3D.projectIso w l 0) (Scene3D.corners w l h))
    by (cbn; tauto).
  apply HF in C1, C2, C3, C4. cbn in C1, C2, C3, C4.
  assert (BW : 0 < mxx - mnx) by lra.
  assert (BH : 0 < mxy - mny) by lra.
  unfold JS.div.
  replace (Qeq_bool (mxx - mnx) 0) with false
    by (symmetry; apply Qeq_bool_false; lra).
  replace (Qeq_bool (mxy - mny) 0) with false
    by (symmetry; apply Qeq_bool_false; lra).
  eexists. split; [reflexivity|].
  cbn [Scene3D.scale Scene3D.canvasCenterX Scene3D.canvasCenterY].
  set (sx := (width - 60 * 2) / (mxx - mnx)).
  set (sy := (height - 60 * 2) / (mxy - mny)).
  assert (Hsx : 0 < sx) by (apply Qlt_shift_div_l; lra).
  assert (Hsy : 0 < sy) by (apply Qlt_shift_div_l; lra).
  assert (Esx : sx * (mxx - mnx) == width - 60 * 2) by (unfold sx; field; lra).
  assert (Esy : sy * (mxy - mny) == height - 60 * 2) by (unfold sy; field; lra).
  assert (Hs : 0 < JS.Math_min sx sy).
  { unfold JS.Math_min.
    destruct (Q.min_spec sx sy) as [[_ E] | [_ E]]; rewrite E; assumption. }
  pose proof (Q.le_min_l sx sy) as Lx. pose proof (Q.le_min_r sx sy) as Ly.
  fold (JS.Math_min sx sy) in Lx, Ly.
  split; [exact Hs|]. split; [reflexivity|]. split; [reflexivity|].
  intros x0 y0 z0 [Hx1 Hx2] [Hy1 Hy2] [Hz1 Hz2].
  unfold in_padded_view, Scene3D.toScreen.
  cbn [Scene3D.px Scene3D.py Scene3D.scale Scene3D.canvasCenterX
       Scene3D.canvasCenterY Scene3D.bboxCenterX Scene3D.bboxCenterY
       Scene3D.projectIso].
  set (s := JS.Math_min sx sy) in *.
  assert (Dx : - ((mxx - mnx) / 2)
               <= (x0 - y0) * 0.866 - (mnx + (mxx - mnx) / 2)
               <= (mxx - mnx) / 2).
  { assert (E : (mxx - mnx) / 2 == (1 # 2) * mxx - (1 # 2) * mnx) by field.
    rewrite E. split; lra. }
  assert (Dy : - ((mxy - mny) / 2)
               <= (x0 + y0) * 0.5 - z0 - (mny + (mxy - mny) / 2)
               <= (mxy - mny) / 2).
  { assert (E : (mxy - mny) / 2 == (1 # 2) * mxy - (1 # 2) * mny) by field.
    rewrite E. split; lra. }
  pose proof (scaled_within _ _ s sx _ BW (conj (Qlt_le_weak _ _ Hs) Lx) Esx Dx)
    as [Px1 Px2].
  pose proof (scaled_within _ _ s sy _ BH (conj (Qlt_le_weak _ _ Hs) Ly) Esy Dy)
    as [Py1 Py2].
  assert (Ew : (width - 60 * 2) / 2 == width / 2 - 60) by field.
  assert (Eh : (height - 60 * 2) / 2 == height / 2 - 60) by field.
  assert (Ew2 : width / 2 == (1 # 2) * width) by field.
  assert (Eh2 : height / 2 == (1 # 2) * height) by field.
  rewrite Ew in Px1, Px2. rewrite Eh in Py1, Py2.
  rewrite Ew2 in *. rewrite Eh2 in *.
  repeat split; lra.
Qed.

Lemma object_box (data : CanvasData) (o : CanvasObject) :
  In o (getObjects data) -> inside_site data o ->
  let el := JS.or_default (elevation o) 0 in
  (0 <= x o <= Scene3D.siteW data
   /\ 0 <= x o + width o <= Scene3D.siteW data)
  /\ (0 <= y o <= Scene3D.siteL data
      /\ 0 <= y o + depth o <= Scene3D.siteL data)
  /\ (0 <= 0 <= Scene3D.renderH data
      /\ 0 <= el <= Scene3D.renderH data
      /\ 0 <= el + height o <= Scene3D.renderH data).
Proof.
  intros Hin [X1 [X2 [X3 [Y1 [Y2 [Y3 [Z1 Z2]]]]]]] el.
  destruct (renderH_floor data) as [H5 [_ Hmax]].
  pose proof (proj2 (maxObjH_fold (getObjects data) 0) o Hin) as Ho.
  cbv zeta in Ho. fold (Scene3D.maxObjH (getObjects data)) in Ho.
  pose proof (or_default_zero (elevation o)) as Ee. fold el in Ee.
  repeat split; lra.
Qed.

(** X18.  The isometric fit: on a site whose width and length are not
    negative, in a viewport wider and higher than 120 pixels, the 3D view is
    defined with a positive scale, and every point of the bounding volume
    (the floor, up to the larger of the ceiling height, the tallest object
    and 5 m) is projected inside the viewport less its 60-pixel padding; so
    are the eight vertices of every object that stands inside the site. *)
Theorem isometric_fit (data : CanvasData) (width height : Q) :
  0 <= dataWidth data -> 0 <= dataLength data ->
  120 < width -> 120 < height ->
  exists v,
    Scene3D.view data width height = Some v
    /\ 0 < Scene3D.scale v
    /\ (forall x y z,
          0 <= x <= Scene3D.siteW data -> 0 <= y <= Scene3D.siteL data ->
          0 <= z <= Scene3D.renderH data ->
          in_padded_view width height (Scene3D.toScreen v x y z))
    /\ (forall o,
          In o (getObjects data) -> inside_site data o ->
          Forall (in_padded_view width height) (Scene3D.object_vertices v o)).
Proof.
  intros Hw Hl Hpw Hph.
  destruct (view_fits data width height Hw Hl Hpw Hph)
    as [v [Ev [Hs [_ [_ Hbox]]]]].
  exists v. split; [exact Ev|]. split; [exact Hs|]. split; [exact Hbox|].
  intros o Hin Hsite.
  destruct (object_box data o Hin Hsite)
    as [[Hx1 Hx2] [[Hy1 Hy2] [Hz0 [Hz1 Hz2]]]].
  unfold Scene3D.object_vertices.
  repeat constructor; apply Hbox; assumption.
Qed.

Lemma isometric_fit_witness :
  exists v,
    Scene3D.view (IndustrialData hall) 900 700 = Some v
    /\ in_padded_view 900 700 (Scene3D.toScreen v 40 20 0)
    /\ in_padded_view 900 700 (Scene3D.toScreen v 2 3 9).
Proof.
  destruct (isometric_fit (IndustrialData hall) 900 700)
    as [v [Ev [_ [Hbox _]]]];
    [ vm_compute; discriminate | vm_compute; discriminate
    | reflexivity | reflexivity | ].
  exists v. split; [exact Ev|].
  split; apply Hbox; vm_compute; split; discriminate.
Defined.

Lemma path_points_app (a b : list Scene3D.Call3D) :
  path_points (a ++ b) = path_points a ++ path_points b.
Proof. unfold path_points. apply flat_map_app. Qed.

Lemma in_view_eta (width height : Q) (a : Scene3D.Pt) :
  in_padded_view width height a ->
  in_padded_view width height (Scene3D.mkPt (Scene3D.px a) (Scene3D.py a)).
Proof. destruct a. exact (fun H => H). Qed.

Lemma Forall_app_intro {A : Type} (P : A -> Prop) (l1 l2 : list A) :
  Forall P l1 -> Forall P l2 -> Forall P (l1 ++ l2).
Proof. intros H1 H2. apply Forall_app. split; assumption. Qed.

Lemma quad_in_view (width height : Q) (a b c d : Scene3D.Pt) :
  in_padded_view width height a -> in_padded_view width height b ->
  in_padded_view width height c -> in_padded_view width height d ->
  Forall (in_padded_view width height) (path_points (Scene3D.quad a b c d)).
Proof.
  intros Ha Hb Hc Hd. cbn.
  repeat (apply Forall_cons; [apply in_view_eta; assumption|]).
  apply Forall_nil.
Qed.

(** X19.  Nothing of the 3D drawing leaves the padded viewport: on a site
    whose width, length and ceiling height are not negative, in a viewport
    wider and higher than 120 pixels, when every object stands inside the
    site, the render is defined and every point it moves to or draws a line
    to (floor, shadows, faces, ceiling outline, pillars) lies inside the
    viewport less its 60-pixel padding. *)
Theorem isometric_paths_fit (data : CanvasData) (width height : Q)
    (transparentBg : bool) :
  0 <= dataWidth data -> 0 <= dataLength data -> 0 <= Scene3D.siteH data ->
  120 < width -> 120 < height ->
  (forall o, In o (getObjects data) -> inside_site data o) ->
  exists calls,
    Scene3D.drawScene3D data width height transparentBg = Some calls
    /\ Forall (in_padded_view width height) (path_points calls).
Proof.
  intros Hw Hl Hh Hpw Hph Hall.
  destruct (view_fits data width height Hw Hl Hpw Hph)
    as [v [Ev [Hs [_ [_ Hbox]]]]].
  pose proof (siteW_pos data Hw) as Hw'. pose proof (siteL_pos data Hl) as Hl'.
  destruct (renderH_floor data) as [H5 [Hceil _]].
  unfold Scene3D.drawScene3D. rewrite Ev.
  eexists. split; [reflexivity|].
  assert (B0 : forall x y z,
             (x == 0 \/ x == Scene3D.siteW data) ->
             (y == 0 \/ y == Scene3D.siteL data) ->
             (z == 0 \/ z == Scene3D.siteH data) ->
             in_padded_view width height (Scene3D.toScreen v x y z)).
  { intros x0 y0 z0 Hx Hy Hz. apply Hbox.
    - destruct Hx as [E | E]; rewrite E; split; lra.
    - destruct Hy as [E | E]; rewrite E; split; lra.
    - destruct Hz as [E | E]; rewrite E; split; lra. }
  assert (L : forall a, a == 0 \/ a == a) by (intro; right; reflexivity).
  assert (Z : forall a, 0 == 0 \/ 0 == a) by (intro; left; reflexivity).
  rewrite !path_points_app. repeat apply Forall_app_intro;
    try apply Forall_nil;
    try (apply Forall_cons;
         [apply in_view_eta; apply B0; auto | apply Forall_nil]).
  - destruct transparentBg; apply Forall_nil.
  - assert (Hobjs : forall l,
               (forall o, In o l -> In o (getObjects data)) ->
               Forall (in_padded_view width height)
                      (path_points (flat_map (Scene3D.object_calls v) l))).
    { induction l as [|o l IHl]; intro Hl0; [apply Forall_nil|].
      cbn [flat_map]. rewrite path_points_app. apply Forall_app_intro.
      - assert (Hin : In o (getObjects data)) by (apply Hl0; left; reflexivity).
        destruct (object_box data o Hin (Hall o Hin))
          as [[Hx1 Hx2] [[Hy1 Hy2] [Hz0 [Hz1 Hz2]]]].
        unfold Scene3D.object_calls.
        destruct (JS.Qlt_bool 0 (JS.or_default (elevation o) 0));
          rewrite !path_points_app; repeat apply Forall_app_intro;
          try apply Forall_nil;
          try (apply Forall_cons;
               [apply in_view_eta; apply Hbox; assumption | apply Forall_nil]).
      - apply IHl. intros o' Ho'. apply Hl0. right. exact Ho'. }
    apply Hobjs. intros o Ho.
    unfold Scene3D.sortedObjects in Ho.
    eapply Permutation.Permutation_in;
      [apply (proj1 (sort_by_spec Scene3D.depthKey (getObjects data))) | exact Ho].
  - destruct (mode_of data); [|apply Forall_nil].
    rewrite !path_points_app. repeat apply Forall_app_intro;
      try apply Forall_nil;
      try (apply Forall_cons;
           [apply in_view_eta; apply B0; auto | apply Forall_nil]).
Qed.

Lemma isometric_paths_fit_witness :
  exists calls,
    Scene3D.drawScene3D (IndustrialData hall) 900 700 false = Some calls
    /\ Forall (in_padded_view 900 700) (path_points calls).
Proof.
  apply (isometric_paths_fit (IndustrialData hall) 900 700 false);
    try discriminate; try reflexivity.
  intros o [<- | [<- | []]]; unfold inside_site; cbn;
    repeat split; discriminate.
Defined.

(** ** The wizard, continued *)

(** X20.  The wizard never leaves its five steps: in every reachable state
    [1 <= currentStep <= 5]. *)
Theorem step_in_range (s : IndustrialApp.State) :
  IndustrialApp.reachable s ->
  (1 <= IndustrialApp.currentStep s <= IndustrialApp.totalSteps)%nat.
Proof.
  intro H. induction H as [|s a _ IH].
  - vm_compute. lia.
  - destruct a; cbn [IndustrialApp.step]; try exact IH.
    + unfold IndustrialApp.nextStep.
      set (s1 := if (IndustrialApp.currentStep s =? 1)%nat
                    && JS.Qlt_bool (pWidth (IndustrialApp.data s))
                                   (pLength (IndustrialApp.data s))
                 then IndustrialApp.set_data s
                        (IndustrialApp.set_dims (IndustrialApp.data s)
                           (pLength (IndustrialApp.data s))
                           (pWidth (IndustrialApp.data s)))
                 else s).
      assert (E1 : IndustrialApp.currentStep s1 = IndustrialApp.currentStep s)
        by (unfold s1;
            destruct ((IndustrialApp.currentStep s =? 1)%nat
                      && JS.Qlt_bool (pWidth (IndustrialApp.data s))
                                     (pLength (IndustrialApp.data s)));
            reflexivity).
      destruct (IndustrialApp.currentStep s1 <? IndustrialApp.totalSteps)%nat
        eqn:E; cbn [IndustrialApp.currentStep]; rewrite E1 in *;
        [apply Nat.ltb_lt in E; lia | exact IH].
    + unfold IndustrialApp.prevStep.
      destruct (1 <? IndustrialApp.currentStep s)%nat eqn:E;
        cbn [IndustrialApp.currentStep]; try exact IH.
      apply Nat.ltb_lt in E. lia.
    + vm_compute. lia.
    + unfold IndustrialApp.handleAddObject.
      destruct (_ || _); [exact IH|].
      destruct (IndustrialApp.inputMode s); exact IH.
    + unfold IndustrialApp.handleSwapDims.
      destruct (IndustrialApp.inputMode s); exact IH.
    + unfold IndustrialApp.setField.
      destruct f; try exact IH; destruct (IndustrialApp.inputMode s); exact IH.
Qed.

Lemma step_in_range_witness :
  (1 <= IndustrialApp.currentStep
          (IndustrialApp.run IndustrialApp.initial
             [ IndustrialApp.PrevStep; IndustrialApp.NextStep;
               IndustrialApp.NextStep; IndustrialApp.NextStep;
               IndustrialApp.NextStep; IndustrialApp.NextStep;
               IndustrialApp.NextStep ])
   <= IndustrialApp.totalSteps)%nat.
Proof.
  apply step_in_range. apply run_reachable. constructor.
Defined.

(** X21.  Objects can be dragged on step 3 only: with the props the wizard
    passes to its canvas, a mouse move that reports a move, at a zero scale
    too, or a mouse press that starts a drag, happens on step 3; and on step
    1, where the canvas shows the 3D view, press, move and wheel leave the
    view state as it is. *)
Theorem drag_on_step_three_only (s : IndustrialApp.State)
    (st : Canvas.State) (e : Canvas.MouseEvent) :
  let p := IndustrialApp.canvasProps s in
  (forall call, Canvas.handleMouseMove p st e = Canvas.Dragged call ->
                IndustrialApp.currentStep s = 3%nat)
  /\ (Canvas.dragTarget (Canvas.handleMouseDown p st e) <> Canvas.dragTarget st ->
      IndustrialApp.currentStep s = 3%nat)
  /\ (IndustrialApp.currentStep s = 1%nat ->
      Canvas.handleMouseDown p st e = st
      /\ Canvas.handleMouseMove p st e = Canvas.Untouched
      /\ forall deltaY, Canvas.handleWheel p st deltaY = st)
  /\ (forall call, Canvas.handleMouseMove p st e = Canvas.DragNotFinite call ->
                   IndustrialApp.currentStep s = 3%nat).
Proof.
  intro p. unfold p, IndustrialApp.canvasProps,
             Canvas.handleMouseMove, Canvas.handleMouseDown, Canvas.handleWheel.
  cbn [Canvas.viewMode Canvas.isInteractive Canvas.onRackMove Canvas.data].
  split; [|split; [|split]]; cycle 3.
  - intros call H.
    destruct (IndustrialApp.currentStep s =? 1)%nat; [discriminate|].
    destruct (IndustrialApp.currentStep s =? 3)%nat eqn:E3;
      [apply Nat.eqb_eq; exact E3|].
    destruct (if (IndustrialApp.currentStep s =? 5)%nat
              then IndustrialApp.summaryViewMode s else View2D);
      [|discriminate].
    destruct (Canvas.isPanning st); discriminate.
  - intros call H.
    destruct (IndustrialApp.currentStep s =? 1)%nat; [discriminate|].
    destruct (IndustrialApp.currentStep s =? 3)%nat eqn:E3;
      [apply Nat.eqb_eq; exact E3|].
    destruct (if (IndustrialApp.currentStep s =? 5)%nat
              then IndustrialApp.summaryViewMode s else View2D);
      [|discriminate].
    destruct (Canvas.isPanning st); discriminate.
  - intro H.
    destruct (IndustrialApp.currentStep s =? 1)%nat; [contradiction|].
    destruct (IndustrialApp.currentStep s =? 3)%nat eqn:E3;
      [apply Nat.eqb_eq; exact E3|].
    exfalso. apply H.
    destruct (if (IndustrialApp.currentStep s =? 5)%nat
              then IndustrialApp.summaryViewMode s else View2D);
      [|reflexivity].
    destruct (_ || _); reflexivity.
  - intro H1. rewrite H1. cbn. repeat split; reflexivity.
Qed.

Lemma drag_on_step_three_only_witness :
  let p := IndustrialApp.canvasProps one_default_rack in
  let st := Canvas.handleMouseDown p Canvas.initial
              (Canvas.mkMouse 218 118 218 118 0 false) in
  (exists call,
     Canvas.handleMouseMove p st (Canvas.mkMouse 682 118 682 118 0 false)
     = Canvas.Dragged call)
  /\ IndustrialApp.currentStep one_default_rack = 3%nat.
Proof.
  intros p st.
  assert (H : exists call,
             Canvas.handleMouseMove p st (Canvas.mkMouse 682 118 682 118 0 false)
             = Canvas.Dragged call)
    by (eexists; vm_compute; reflexivity).
  split; [exact H|]. destruct H as [call Hc].
  exact (proj1 (drag_on_step_three_only one_default_rack st
                  (Canvas.mkMouse 682 118 682 118 0 false)) call Hc).
Defined.

Lemma find_retag {A B : Type} (f : A -> B) (i : string) (l : list (Placed A)) :
  find (fun r => String.eqb (id r) i) (map (retag f) l)
  = option_map (retag f) (find (fun r => String.eqb (id r) i) l).
Proof.
  induction l as [|a l IH]; [reflexivity|].
  cbn [map find]. cbn [retag id].
  destruct (String.eqb (id a) i); [reflexivity | exact IH].
Qed.

Lemma same_id_same_object {T : Type} (l : list (Placed T)) (a b : Placed T) :
  NoDup (map id l) -> In a l -> In b l -> id a = id b -> a = b.
Proof.
  induction l as [|c l IH]; intros Hnd Ha Hb E; [contradiction|].
  cbn in Hnd. inversion Hnd as [|? ? Hnot Hnd']; subst.
  destruct Ha as [-> | Ha]; destruct Hb as [-> | Hb].
  - reflexivity.
  - exfalso. apply Hnot. rewrite E. apply in_map. exact Hb.
  - exfalso. apply Hnot. rewrite <- E. apply in_map. exact Ha.
  - apply IH; assumption.
Qed.

(** X22.  A drag update keeps the object on the floor: on the wizard's
    canvas, with distinct identifiers, once the reported move has been
    applied by [handleRackMove], the collection holds an object with the
    dragged identifier, and every such object has [x >= 0], [y >= 0], and,
    when it is not wider (deeper) than the site, [x + width <= site.width]
    ([y + depth <= site.length]); this at any scale at which two numbers
    are reported. *)
Theorem drag_keeps_object_inside (s : IndustrialApp.State)
    (st : Canvas.State) (e : Canvas.MouseEvent) (id0 : string) (newX newY : Q) :
  NoDup (map id (racks_of s)) ->
  Canvas.reported (Canvas.handleMouseMove (IndustrialApp.canvasProps s) st e)
  = Some (id0, JS.Fin newX, JS.Fin newY) ->
  let s' := IndustrialApp.handleRackMove id0 newX newY s in
  let d := IndustrialApp.data s' in
  (exists r, In r (racks_of s') /\ id r = id0)
  /\ forall r, In r (racks_of s') -> id r = id0 ->
       0 <= x r /\ 0 <= y r
       /\ (width r <= pWidth d -> x r + width r <= pWidth d)
       /\ (depth r <= pLength d -> y r + depth r <= pLength d).
Proof.
  intros Hnd H s' d.
  destruct (drag_report_spec _ st e id0 (JS.Fin newX) (JS.Fin newY) H)
    as [_ [_ [_ [_ [target [obj [_ [_ [Hf [Cx [Cy _]]]]]]]]]]].
  unfold IndustrialApp.canvasProps in Hf, Cx, Cy.
  unfold drag_lo, drag_hiX, drag_hiY in Cx, Cy.
  cbn [Canvas.data getObjects mode_of dataWidth dataLength clamped_report]
    in Hf, Cx, Cy.
  rewrite find_retag in Hf.
  destruct (find _ _) as [r0|] eqn:Hf0; [|discriminate Hf].
  cbn [option_map] in Hf. injection Hf as Hobj. subst obj.
  cbn [retag width depth] in Cx, Cy.
  apply find_some in Hf0. destruct Hf0 as [Hin0 Hid0].
  apply String.eqb_eq in Hid0.
  destruct Cx as [Cx1 [Cx2 _]]. destruct Cy as [Cy1 [Cy2 _]].
  assert (Hracks : racks_of s'
                   = map (fun r : RackBlock =>
                            if String.eqb (id r) id0
                            then mkPlaced (id r) (type r) newX newY (width r)
                                          (depth r) (height r) (elevation r)
                                          (label r)
                            else r)
                         (racks_of s)) by reflexivity.
  assert (Hd : pWidth d = pWidth (IndustrialApp.data s)
               /\ pLength d = pLength (IndustrialApp.data s))
    by (split; reflexivity).
  destruct Hd as [Hdw Hdl]. rewrite Hdw, Hdl, Hracks.
  split.
  - exists (mkPlaced (id r0) (type r0) newX newY (width r0) (depth r0)
                     (height r0) (elevation r0) (label r0)).
    split; [|exact Hid0].
    apply in_map_iff. exists r0. split; [|exact Hin0].
    rewrite Hid0, String.eqb_refl. reflexivity.
  - intros r Hr Hidr. apply in_map_iff in Hr. destruct Hr as [q [Eq Hq]].
    destruct (String.eqb (id q) id0) eqn:E.
    + apply String.eqb_eq in E.
      assert (q = r0)
        by (apply (same_id_same_object (racks_of s)); try assumption; congruence).
      subst q. subst r. cbn [x y width depth].
      split; [exact Cx1|]. split; [exact Cy1|].
      split; intro Hfit; [assert (newX <= pWidth (IndustrialApp.data s) - width r0)
                            by (apply Cx2; lra)
                         |assert (newY <= pLength (IndustrialApp.data s) - depth r0)
                            by (apply Cy2; lra)]; lra.
    + subst r. apply String.eqb_neq in E. contradiction.
Qed.

Lemma drag_keeps_object_inside_witness :
  let p := IndustrialApp.canvasProps one_default_rack in
  let st := Canvas.handleMouseDown p Canvas.initial
              (Canvas.mkMouse 218 118 218 118 0 false) in
  exists newX newY,
    Canvas.handleMouseMove p st (Canvas.mkMouse 682 118 682 118 0 false)
    = Canvas.Dragged (Some ("r1"%string, newX, newY))
    /\ exists r,
         racks_of (IndustrialApp.handleRackMove "r1" newX newY one_default_rack)
         = [r]
         /\ 0 <= x r /\ x r + width r <= 10.
Proof.
  intros p st. eexists; eexists. split; [vm_compute; reflexivity|].
  eexists. split; [reflexivity|].
  match goal with
  | |- 0 <= x ?r /\ _ =>
      destruct (drag_keeps_object_inside one_default_rack st
                  (Canvas.mkMouse 682 118 682 118 0 false) "r1"%string
                  (x r) (y r)) as [_ H]
  end.
  - repeat constructor. intros [].
  - vm_compute. reflexivity.
  - match goal with
    | |- 0 <= x ?r /\ _ =>
        destruct (H r (or_introl eq_refl) eq_refl) as [H1 [_ [H3 _]]]
    end.
    split; [exact H1|]. apply H3. discriminate.
Defined.

(** X23.  Delete: [removeRack id] removes every object carrying [id] and
    nothing else, keeping the others in order; doing it twice changes the
    collection no further, and an absent [id] leaves the collection as it
    is.  The storage stays active exactly when the collection held more than
    one object before the call, whether or not anything was removed. *)
Theorem remove_rack_spec (id0 : string) (s : IndustrialApp.State) :
  let s' := IndustrialApp.removeRack id0 s in
  (forall r, In r (racks_of s') <-> In r (racks_of s) /\ id r <> id0)
  /\ racks_of s'
     = filter (fun r : RackBlock => negb (String.eqb (id r) id0)) (racks_of s)
  /\ racks_of (IndustrialApp.removeRack id0 s') = racks_of s'
  /\ ((forall r, In r (racks_of s) -> id r <> id0) -> racks_of s' = racks_of s)
  /\ storageActive (storage (IndustrialApp.data s'))
     = (1 <? List.length (racks_of s))%nat
  /\ (List.length (racks_of s') <= List.length (racks_of s))%nat.
Proof.
  intro s'. unfold s', racks_of, IndustrialApp.removeRack.
  cbn [IndustrialApp.data IndustrialApp.set_data IndustrialApp.set_racks
       storage racks storageActive].
  set (rs := racks (storage (IndustrialApp.data s))).
  set (keep := fun r : RackBlock => negb (String.eqb (id r) id0)).
  split; [|split; [|split; [|split; [|split]]]].
  - intro r. unfold keep. rewrite filter_In, negb_true_iff, String.eqb_neq. tauto.
  - reflexivity.
  - induction rs as [|a rs IH]; [reflexivity|].
    cbn [filter]. destruct (keep a) eqn:E; [|exact IH].
    cbn [filter]. rewrite E, IH. reflexivity.
  - intro Hnone. induction rs as [|a rs IH]; [reflexivity|].
    cbn [filter]. unfold keep at 1.
    assert (Ha : id a <> id0) by (apply Hnone; left; reflexivity).
    apply String.eqb_neq in Ha. rewrite Ha. cbn [negb]. f_equal.
    apply IH. intros r Hr. apply Hnone. right. exact Hr.
  - reflexivity.
  - apply filter_length_le.
Qed.

Lemma remove_rack_spec_witness :
  let s := IndustrialApp.run one_default_rack [IndustrialApp.AddObject "r2"] in
  List.length (racks_of s) = 2%nat
  /\ racks_of (IndustrialApp.removeRack "zz" s) = racks_of s
  /\ List.length (racks_of (IndustrialApp.removeRack "r1" s)) = 1%nat.
Proof.
  intro s. split; [reflexivity|]. split; [|reflexivity].
  apply (proj1 (proj2 (proj2 (proj2 (remove_rack_spec "zz" s))))).
  intros r [<- | [<- | []]]; discriminate.
Defined.

Lemma state_eq (a b : IndustrialApp.State) :
  IndustrialApp.currentStep a = IndustrialApp.currentStep b ->
  IndustrialApp.data a = IndustrialApp.data b ->
  IndustrialApp.summaryViewMode a = IndustrialApp.summaryViewMode b ->
  IndustrialApp.inputMode a = IndustrialApp.inputMode b ->
  IndustrialApp.newRackDims a = IndustrialApp.newRackDims b ->
  IndustrialApp.newMezzDims a = IndustrialApp.newMezzDims b ->
  a = b.
Proof.
  destruct a, b. cbn. intros; subst. reflexivity.
Qed.

(** X24.  Moves compose: a second move of the same identifier overrides
    the first; moves of different identifiers can be applied in either
    order; and a move and a relabel, of any identifiers, can be applied in
    either order. *)
Theorem moves_compose (s : IndustrialApp.State) (i j : string)
    (x1 y1 x2 y2 : Q) (l : string) :
  IndustrialApp.handleRackMove i x2 y2 (IndustrialApp.handleRackMove i x1 y1 s)
  = IndustrialApp.handleRackMove i x2 y2 s
  /\ (i <> j ->
      IndustrialApp.handleRackMove i x1 y1 (IndustrialApp.handleRackMove j x2 y2 s)
      = IndustrialApp.handleRackMove j x2 y2
          (IndustrialApp.handleRackMove i x1 y1 s))
  /\ IndustrialApp.updateRackLabel i l (IndustrialApp.handleRackMove j x1 y1 s)
     = IndustrialApp.handleRackMove j x1 y1 (IndustrialApp.updateRackLabel i l s).
Proof.
  split; [|split].
  - apply state_eq; try reflexivity.
    unfold IndustrialApp.handleRackMove. cbn. unfold IndustrialApp.set_racks.
    cbn. f_equal. f_equal. rewrite map_map. apply map_ext. intro r.
    destruct (String.eqb (id r) i) eqn:E; cbn [id]; rewrite E; reflexivity.
  - intro Hij. apply state_eq; try reflexivity.
    unfold IndustrialApp.handleRackMove. cbn. unfold IndustrialApp.set_racks.
    cbn. f_equal. f_equal. rewrite !map_map. apply map_ext. intro r.
    destruct (String.eqb (id r) i) eqn:Ei;
      destruct (String.eqb (id r) j) eqn:Ej; cbn [id];
      rewrite ?Ei, ?Ej; try reflexivity.
    apply String.eqb_eq in Ei. apply String.eqb_eq in Ej. congruence.
  - apply state_eq; try reflexivity.
    unfold IndustrialApp.handleRackMove, IndustrialApp.updateRackLabel.
    cbn. unfold IndustrialApp.set_racks. cbn. f_equal. f_equal.
    rewrite !map_map. apply map_ext. intro r.
    destruct (String.eqb (id r) i) eqn:Ei;
      destruct (String.eqb (id r) j) eqn:Ej; cbn [id];
      rewrite ?Ei, ?Ej; reflexivity.
Qed.

Lemma moves_compose_witness :
  let s := IndustrialApp.run one_default_rack [IndustrialApp.AddObject "r2"] in
  IndustrialApp.handleRackMove "r1" 3 4 (IndustrialApp.handleRackMove "r2" 5 6 s)
  = IndustrialApp.handleRackMove "r2" 5 6 (IndustrialApp.handleRackMove "r1" 3 4 s).
Proof.
  intro s.
  apply (proj1 (proj2 (moves_compose s "r1" "r2" 3 4 5 6 ""))).
  discriminate.
Defined.



(** X26.  Leaving step 1 orders the site: after [nextStep] from step 1 the
    width is the larger of the two dimensions (they are swapped when the
    length was larger), the step is 2, and the collection, the lighting and
    the ceiling height are unchanged. *)
Theorem next_step_orders_site (s : IndustrialApp.State) :
  IndustrialApp.currentStep s = 1%nat ->
  let s' := IndustrialApp.nextStep s in
  let d := IndustrialApp.data s in
  let d' := IndustrialApp.data s' in
  pLength d' <= pWidth d'
  /\ ((pWidth d' = pWidth d /\ pLength d' = pLength d)
      \/ (pWidth d' = pLength d /\ pLength d' = pWidth d))
  /\ pWidth d' == Qmax (pWidth d) (pLength d)
  /\ pLength d' == Qmin (pWidth d) (pLength d)
  /\ IndustrialApp.currentStep s' = 2%nat
  /\ racks_of s' = racks_of s
  /\ lighting d' = lighting d
  /\ ceilingHeight d' = ceilingHeight d.
Proof.
  intros H1. cbv zeta. unfold IndustrialApp.nextStep, racks_of.
  rewrite H1. cbn [Nat.eqb andb].
  destruct (JS.Qlt_bool (pWidth (IndustrialApp.data s))
                        (pLength (IndustrialApp.data s))) eqn:E;
    cbn [IndustrialApp.currentStep IndustrialApp.set_data]; rewrite ?H1; cbn.
  - apply Qlt_bool_true in E.
    split; [lra|]. split; [right; split; reflexivity|].
    split; [symmetry; apply Q.max_r; lra|].
    split; [symmetry; apply Q.min_l; lra|].
    repeat split; reflexivity.
  - apply Qlt_bool_false in E.
    split; [exact E|]. split; [left; split; reflexivity|].
    split; [symmetry; apply Q.max_l; exact E|].
    split; [symmetry; apply Q.min_r; exact E|].
    repeat split; reflexivity.
Qed.

Lemma next_step_orders_site_witness :
  let s := IndustrialApp.run IndustrialApp.initial
             [ IndustrialApp.SetField (IndustrialApp.FWidth 20);
               IndustrialApp.SetField (IndustrialApp.FLength 45) ] in
  pWidth (IndustrialApp.data (IndustrialApp.nextStep s)) == 45
  /\ pLength (IndustrialApp.data (IndustrialApp.nextStep s)) == 20.
Proof.
  intro s.
  destruct (next_step_orders_site s eq_refl) as [_ [_ [H3 [H4 _]]]].
  cbv zeta in H3, H4. rewrite H3, H4. split; reflexivity.
Defined.

(** ** The legacy canvas against the current one *)

Lemma Qle_bool_compat (a b a' b' : Q) :
  a == a' -> b == b' -> Qle_bool a b = Qle_bool a' b'.
Proof.
  intros Ha Hb. destruct (Qle_bool a' b') eqn:E.
  - apply Qle_bool_iff. apply Qle_bool_iff in E. rewrite Ha, Hb. exact E.
  - apply Qle_bool_false. apply Qle_bool_false in E. rewrite Ha, Hb. exact E.
Qed.

Lemma legacy_hit_same (m : Metrics) (mx my : Q) (r : RackBlock) :
  Canvas.hit m mx my (retag OfIndustrial r) = LegacyCanvas.hit m mx my r.
Proof.
  unfold Canvas.hit, LegacyCanvas.hit, Canvas.HIT_PADDING. cbn [retag x y width depth].
  f_equal; [f_equal; [f_equal|]|]; apply Qle_bool_compat;
    try reflexivity; ring.
Qed.

Lemma find_hit_retag (m : Metrics) (mx my : Q) (l : list RackBlock) :
  find (Canvas.hit m mx my) (map (retag OfIndustrial) l)
  = option_map (retag OfIndustrial) (find (LegacyCanvas.hit m mx my) l).
Proof.
  induction l as [|a l IH]; [reflexivity|].
  cbn [map find]. rewrite legacy_hit_same.
  destruct (LegacyCanvas.hit m mx my a); [reflexivity | exact IH].
Qed.

(** At one and the same located pointer, the two controllers agree on
    everything but the hover. *)
Lemma legacy_same_event (p : LegacyCanvas.Props) (st : Canvas.State)
    (e : Canvas.MouseEvent) :
  LegacyCanvas.getMetrics p st = Canvas.getMetrics (current_props p) st
  /\ (forall o,
        (forall st', o <> Canvas.Hovered st') ->
        (LegacyCanvas.handleMouseMove p st e = o
         <-> Canvas.handleMouseMove (current_props p) st e = o))
  /\ ((Canvas.altKey e = true ->
       Canvas.button e = 0%Z \/ Canvas.button e = 1%Z \/ Canvas.button e = 2%Z) ->
      LegacyCanvas.handleMouseDown p st e
      = Canvas.handleMouseDown (current_props p) st e)
  /\ LegacyCanvas.handleMouseUp st = Canvas.handleMouseUp st.
Proof.
  assert (Hm : LegacyCanvas.getMetrics p st
               = Canvas.getMetrics (current_props p) st) by reflexivity.
  assert (Hs : LegacyCanvas.scaleSign p st
               = Canvas.scaleSign (current_props p) st) by reflexivity.
  split; [exact Hm|]. split; [|split; [|reflexivity]].
  - intros o Ho.
    unfold LegacyCanvas.handleMouseMove, Canvas.handleMouseMove.
    rewrite Hm, Hs. cbn [current_props Canvas.viewMode Canvas.isInteractive
                         Canvas.onRackMove Canvas.data getObjects mode_of
                         dataWidth dataLength].
    destruct (LegacyCanvas.viewMode p); [|tauto].
    destruct (Canvas.isPanning st) eqn:Ep.
    { unfold LegacyCanvas.handlePanMove. rewrite Ep. tauto. }
    destruct (negb (LegacyCanvas.isInteractive p)); [tauto|].
    destruct (Canvas.dragTarget st) as [target|];
      [destruct (LegacyCanvas.onRackMove p)|].
    + unfold Canvas.toMeters, Canvas.SNAP_INCREMENT.
      destruct (JS.div _ _); [destruct (JS.div _ _)|];
        rewrite find_retag;
        (destruct (find _ _); cbn [option_map retag width depth]; tauto).
    + split; intro H; exfalso; eapply Ho; symmetry; exact H.
    + split; intro H; exfalso; eapply Ho; symmetry; exact H.
  - intro Halt.
    unfold LegacyCanvas.handleMouseDown, Canvas.handleMouseDown.
    rewrite Hm. cbn [current_props Canvas.viewMode Canvas.isInteractive
                     Canvas.data getObjects].
    destruct (LegacyCanvas.viewMode p); [|reflexivity].
    unfold LegacyCanvas.startPan.
    destruct (Canvas.button e =? 1)%Z eqn:B1; [reflexivity|].
    destruct (Canvas.button e =? 2)%Z eqn:B2; [reflexivity|].
    cbn [orb].
    destruct (Canvas.altKey e) eqn:Ea.
    + destruct (Halt eq_refl) as [B | [B | B]]; rewrite B in *;
        try discriminate. reflexivity.
    + destruct (negb (LegacyCanvas.isInteractive p)); [reflexivity|].
      rewrite <- map_rev, find_hit_retag.
      destruct (find _ _); reflexivity.
Qed.

(** The handlers tell no difference between two pointers located at
    coordinates that are equal as numbers. *)
Lemma Qeq_bool_compat (a a' b : Q) : a == a' -> Qeq_bool a b = Qeq_bool a' b.
Proof.
  intro E. destruct (Qeq_bool a' b) eqn:H.
  - apply Qeq_bool_iff. apply Qeq_bool_iff in H. rewrite E. exact H.
  - apply Qeq_bool_false. apply Qeq_bool_false in H. rewrite E. exact H.
Qed.

Lemma div_by_zero_compat (a a' : Q) (negzero : bool) :
  a == a' -> JS.div_by_zero a negzero = JS.div_by_zero a' negzero.
Proof.
  intro E. unfold JS.div_by_zero, JS.Qlt_bool.
  rewrite (Qeq_bool_compat a a' 0 E).
  rewrite (Qle_bool_compat 0 a 0 a' (Qeq_refl 0) E). reflexivity.
Qed.

Lemma hit_compat (m : Metrics) (mx my mx' my' : Q) (o : CanvasObject) :
  mx == mx' -> my == my' -> Canvas.hit m mx my o = Canvas.hit m mx' my' o.
Proof.
  intros Ex Ey. unfold Canvas.hit. cbv zeta.
  f_equal; [f_equal; [f_equal|]|]; apply Qle_bool_compat;
    try reflexivity; assumption.
Qed.

Lemma find_hit_compat (m : Metrics) (mx my mx' my' : Q)
    (l : list CanvasObject) :
  mx == mx' -> my == my' ->
  find (Canvas.hit m mx my) l = find (Canvas.hit m mx' my') l.
Proof.
  intros Ex Ey. induction l as [|o l IH]; [reflexivity|].
  cbn [find]. rewrite (hit_compat m mx my mx' my' o Ex Ey), IH. reflexivity.
Qed.

Lemma move_respects_pointer (p : Canvas.Props) (st : Canvas.State)
    (cx cy mx my mx' my' : Q) (b : Z) (a : bool) :
  mx == mx' -> my == my' ->
  Canvas.handleMouseMove p st (Canvas.mkMouse cx cy mx my b a)
  = Canvas.handleMouseMove p st (Canvas.mkMouse cx cy mx' my' b a).
Proof.
  intros Ex Ey. unfold Canvas.handleMouseMove.
  cbn [Canvas.clientX Canvas.clientY Canvas.mouseX Canvas.mouseY].
  destruct (Canvas.viewMode p); [|reflexivity].
  destruct (Canvas.isPanning st); [reflexivity|].
  destruct (negb (Canvas.isInteractive p)); [reflexivity|].
  set (m := Canvas.getMetrics p st). clearbody m.
  rewrite (find_hit_compat m mx my mx' my' _ Ex Ey).
  destruct (Canvas.dragTarget st) as [target|]; [|reflexivity].
  destruct (Canvas.onRackMove p); [|reflexivity].
  unfold Canvas.toMeters, JS.div.
  destruct (Qeq_bool (scale m) 0).
  - rewrite (div_by_zero_compat (mx - offsetX target - originX m)
               (mx' - offsetX target - originX m))
      by (rewrite Ex; reflexivity).
    rewrite (div_by_zero_compat (my - offsetY target - originY m)
               (my' - offsetY target - originY m))
      by (rewrite Ey; reflexivity).
    reflexivity.
  - assert (Rx : JS.Math_round
                   ((mx - offsetX target - originX m) / scale m
                    / Canvas.SNAP_INCREMENT)
                 = JS.Math_round
                     ((mx' - offsetX target - originX m) / scale m
                      / Canvas.SNAP_INCREMENT))
      by (unfold JS.Math_round; apply Qfloor_comp; rewrite Ex; reflexivity).
    assert (Ry : JS.Math_round
                   ((my - offsetY target - originY m) / scale m
                    / Canvas.SNAP_INCREMENT)
                 = JS.Math_round
                     ((my' - offsetY target - originY m) / scale m
                      / Canvas.SNAP_INCREMENT))
      by (unfold JS.Math_round; apply Qfloor_comp; rewrite Ey; reflexivity).
    cbv zeta. rewrite Rx, Ry. reflexivity.
Qed.

Lemma same_grab_refl (s : Canvas.State) : same_grab s s.
Proof.
  unfold same_grab. repeat (split; [reflexivity|]).
  destruct (Canvas.dragTarget s); [|exact I].
  repeat split; reflexivity.
Qed.

Lemma press_respects_pointer (p : Canvas.Props) (st : Canvas.State)
    (cx cy mx my mx' my' : Q) (b : Z) (a : bool) :
  mx == mx' -> my == my' ->
  same_grab (Canvas.handleMouseDown p st (Canvas.mkMouse cx cy mx my b a))
            (Canvas.handleMouseDown p st (Canvas.mkMouse cx cy mx' my' b a)).
Proof.
  intros Ex Ey. unfold Canvas.handleMouseDown.
  cbn [Canvas.clientX Canvas.clientY Canvas.mouseX Canvas.mouseY
       Canvas.button Canvas.altKey].
  destruct (Canvas.viewMode p); [|apply same_grab_refl].
  destruct ((b =? 1)%Z || (b =? 2)%Z || a); [apply same_grab_refl|].
  destruct (negb (Canvas.isInteractive p)); [apply same_grab_refl|].
  set (m := Canvas.getMetrics p st). clearbody m.
  rewrite (find_hit_compat m mx my mx' my' _ Ex Ey).
  destruct (find _ _) as [obj|]; [|apply same_grab_refl].
  unfold same_grab. cbn [Canvas.hoveredBlockId Canvas.transform
                         Canvas.isPanning Canvas.lastMousePos
                         Canvas.dragTarget dragId offsetX offsetY].
  repeat (split; [reflexivity|]).
  split; [rewrite Ex | rewrite Ey]; reflexivity.
Qed.

(** X27.  The legacy and the current interaction controller on a canvas
    displayed at its own size (its bounding rectangle as wide and as high
    as the canvas): for the same industrial project, viewport, state and
    DOM event they locate the pointer at the same canvas point (the legacy
    one by [clientX - rect.left], the current one with its correction for
    CSS scaling) and compute the same metrics; a mouse move that pans,
    reports a drag, at a zero scale too, or does nothing has the same
    outcome in both; a mouse press that does not carry Alt with a button
    other than 0, 1 or 2 grabs the same object at the same offsets and
    leaves the rest of the state the same; a release is the same.  On a
    canvas displayed at half its size they differ: the same press grabs a
    rack in the current canvas and nothing in the legacy one. *)
Theorem legacy_controller_agrees :
  (forall (p : LegacyCanvas.Props) (st : Canvas.State) (rect : Dom.Rect)
          (ev : Dom.PointerEvent),
     Dom.width rect == LegacyCanvas.canvasWidth p ->
     Dom.height rect == LegacyCanvas.canvasHeight p ->
     ~ Dom.width rect == 0 -> ~ Dom.height rect == 0 ->
     let legacy := LegacyCanvas.event_of rect ev in
     exists e,
       Canvas.event_of (current_props p) rect ev = Some e
       /\ Canvas.mouseX e == Canvas.mouseX legacy
       /\ Canvas.mouseY e == Canvas.mouseY legacy
       /\ LegacyCanvas.getMetrics p st = Canvas.getMetrics (current_props p) st
       /\ (forall o,
             (forall st', o <> Canvas.Hovered st') ->
             (LegacyCanvas.handleMouseMove p st legacy = o
              <-> Canvas.handleMouseMove (current_props p) st e = o))
       /\ ((Dom.altKey ev = true ->
            Dom.button ev = 0%Z \/ Dom.button ev = 1%Z \/ Dom.button ev = 2%Z) ->
           same_grab (LegacyCanvas.handleMouseDown p st legacy)
                     (Canvas.handleMouseDown (current_props p) st e))
       /\ LegacyCanvas.handleMouseUp st = Canvas.handleMouseUp st)
  /\ (exists e,
        Canvas.event_of (current_props overlapping_props) half_size_rect
          press_at_40 = Some e
        /\ Canvas.dragTarget
             (LegacyCanvas.handleMouseDown overlapping_props Canvas.initial
                (LegacyCanvas.event_of half_size_rect press_at_40)) = None
        /\ option_map dragId
             (Canvas.dragTarget
                (Canvas.handleMouseDown (current_props overlapping_props)
                   Canvas.initial e)) = Some "r2"%string).
Proof.
  split.
  - intros p st rect ev Hw Hh Hnw Hnh legacy.
    unfold Canvas.event_of, Canvas.getCanvasCoordinates, JS.div.
    cbn [current_props Canvas.canvasWidth Canvas.canvasHeight].
    replace (Qeq_bool (Dom.width rect) 0) with false
      by (symmetry; apply Qeq_bool_false; exact Hnw).
    replace (Qeq_bool (Dom.height rect) 0) with false
      by (symmetry; apply Qeq_bool_false; exact Hnh).
    eexists. split; [reflexivity|].
    unfold legacy, LegacyCanvas.event_of.
    cbn [Canvas.mouseX Canvas.mouseY].
    assert (Ex : (Dom.clientX ev - Dom.left rect)
                 * (LegacyCanvas.canvasWidth p / Dom.width rect)
                 == Dom.clientX ev - Dom.left rect)
      by (rewrite <- Hw; field; exact Hnw).
    assert (Ey : (Dom.clientY ev - Dom.top rect)
                 * (LegacyCanvas.canvasHeight p / Dom.height rect)
                 == Dom.clientY ev - Dom.top rect)
      by (rewrite <- Hh; field; exact Hnh).
    split; [exact Ex|]. split; [exact Ey|].
    destruct (legacy_same_event p st
                (Canvas.mkMouse (Dom.clientX ev) (Dom.clientY ev)
                   (Dom.clientX ev - Dom.left rect)
                   (Dom.clientY ev - Dom.top rect)
                   (Dom.button ev) (Dom.altKey ev)))
      as [Hm [Hmove [Hpress Hup]]].
    split; [exact Hm|]. split; [|split; [|exact Hup]].
    + intros o Ho.
      rewrite (move_respects_pointer (current_props p) st _ _ _ _ _ _ _ _
                 Ex Ey).
      apply Hmove. exact Ho.
    + intro Halt. rewrite (Hpress Halt).
      apply press_respects_pointer; symmetry; assumption.
  - eexists. split; [vm_compute; reflexivity|].
    split; vm_compute; reflexivity.
Qed.

Lemma legacy_controller_agrees_witness :
  let rect := Dom.mkRect 10 20 220 220 in
  let ev := Dom.mkPointer 160 90 0 false in
  let st := Canvas.mkState (Some (mkDrag "r1" 0 0)) None (mkTransform 1 0 0)
                           false (0, 0) in
  exists e newX newY,
    Canvas.event_of (current_props overlapping_props) rect ev = Some e
    /\ LegacyCanvas.handleMouseMove overlapping_props st
         (LegacyCanvas.event_of rect ev)
       = Canvas.Dragged (Some ("r1"%string, newX, newY))
    /\ Canvas.handleMouseMove (current_props overlapping_props) st e
       = Canvas.Dragged (Some ("r1"%string, newX, newY))
    /\ newX == 8.
Proof.
  intros rect ev st.
  destruct (proj1 legacy_controller_agrees overlapping_props st rect ev)
    as [e [He [_ [_ [_ [Hmove _]]]]]];
    [ reflexivity | reflexivity | discriminate | discriminate | ].
  exists e. eexists; eexists. split; [exact He|].
  split; [vm_compute; reflexivity|]. split; [|reflexivity].
  apply Hmove.
  - intros st' H. discriminate H.
  - vm_compute. reflexivity.
Defined.

Lemma find_app_split {A : Type} (f : A -> bool) (l1 l2 : list A) :
  find f (l1 ++ l2)
  = match find f l1 with Some a => Some a | None => find f l2 end.
Proof.
  induction l1 as [|u l1 IH]; [reflexivity|].
  cbn [app find]. destruct (f u); [reflexivity | exact IH].
Qed.

Lemma find_rev_unique {A : Type} (f : A -> bool) (l : list A) :
  (forall a b, In a l -> In b l -> f a = true -> f b = true -> a = b) ->
  find f (rev l) = find f l.
Proof.
  induction l as [|c l IH]; intro Hu; [reflexivity|].
  assert (Hu' : forall a b, In a l -> In b l -> f a = true -> f b = true -> a = b).
  { intros a b Ha Hb. apply Hu; right; assumption. }
  specialize (IH Hu').
  cbn [rev]. rewrite find_app_split, IH. cbn [find].
  destruct (find f l) as [a|] eqn:Ef; destruct (f c) eqn:Ec; try reflexivity.
  apply find_some in Ef. destruct Ef as [Hin Hfa].
  f_equal. apply Hu; [right; exact Hin | left; reflexivity | exact Hfa | exact Ec].
Qed.

(** X28.  Legacy hover against legacy click: in the interactive 2D view,
    with no drag and no pan, a mouse move marks as hovered the first rack of
    the collection under the pointer, while a primary-button press at the
    same place starts to drag the last one; the two agree when at most one
    rack lies under the pointer, and differ for two racks that overlap under
    it (the current canvas marks the last one in both cases). *)
Theorem legacy_hover_is_first_hit :
  (forall (p : LegacyCanvas.Props) (st : Canvas.State) (e : Canvas.MouseEvent),
     LegacyCanvas.viewMode p = View2D -> LegacyCanvas.isInteractive p = true ->
     Canvas.isPanning st = false -> Canvas.dragTarget st = None ->
     Canvas.button e <> 1%Z -> Canvas.button e <> 2%Z ->
     Canvas.altKey e = false ->
     let under := LegacyCanvas.hit (LegacyCanvas.getMetrics p st)
                                   (Canvas.mouseX e) (Canvas.mouseY e) in
     let rs := racks (storage (LegacyCanvas.data p)) in
     exists st',
       LegacyCanvas.handleMouseMove p st e = Canvas.Hovered st'
       /\ Canvas.hoveredBlockId st' = option_map id (find under rs)
       /\ option_map dragId
            (Canvas.dragTarget (LegacyCanvas.handleMouseDown p st e))
          = option_map id (find under (rev rs))
       /\ ((forall a b, In a rs -> In b rs ->
                        under a = true -> under b = true -> a = b) ->
           Canvas.hoveredBlockId st'
           = option_map dragId
               (Canvas.dragTarget (LegacyCanvas.handleMouseDown p st e))))
  /\ (exists st' st'',
        LegacyCanvas.handleMouseMove overlapping_props Canvas.initial over_both
        = Canvas.Hovered st'
        /\ Canvas.hoveredBlockId st' = Some "r1"%string
        /\ option_map dragId
             (Canvas.dragTarget
                (LegacyCanvas.handleMouseDown overlapping_props Canvas.initial
                   over_both))
           = Some "r2"%string
        /\ Canvas.handleMouseMove (current_props overlapping_props)
             Canvas.initial over_both = Canvas.Hovered st''
        /\ Canvas.hoveredBlockId st'' = Some "r2"%string).
Proof.
  split.
  - intros p st e Hv Hi Hp Hd Hb1 Hb2 Ha under rs.
    apply Z.eqb_neq in Hb1. apply Z.eqb_neq in Hb2.
    unfold LegacyCanvas.handleMouseMove, LegacyCanvas.handleMouseDown.
    rewrite Hv, Hi, Hp, Hd, Ha, Hb1, Hb2. cbn [orb negb].
    fold under. fold rs.
    eexists. split; [reflexivity|].
    cbn [Canvas.hoveredBlockId].
    match goal with
    | |- ?A /\ ?B /\ _ => assert (Hover : A); [|assert (Hclick : B)]
    end.
    { destruct (find under rs); reflexivity. }
    { destruct (find under (rev rs)); cbn;
        [reflexivity | rewrite Hd; reflexivity]. }
    split; [exact Hover|]. split; [exact Hclick|].
    intro Hu. rewrite Hover, Hclick, (find_rev_unique under rs Hu). reflexivity.
  - eexists; eexists. repeat split; vm_compute; reflexivity.
Qed.

Lemma legacy_hover_is_first_hit_witness :
  exists st',
    LegacyCanvas.handleMouseMove overlapping_props Canvas.initial
      (Canvas.mkMouse 75 75 75 75 0 false) = Canvas.Hovered st'
    /\ Canvas.hoveredBlockId st' = Some "r1"%string
    /\ Canvas.hoveredBlockId st'
       = option_map dragId
           (Canvas.dragTarget
              (LegacyCanvas.handleMouseDown overlapping_props Canvas.initial
                 (Canvas.mkMouse 75 75 75 75 0 false))).
Proof.
  destruct (proj1 legacy_hover_is_first_hit overlapping_props Canvas.initial
              (Canvas.mkMouse 75 75 75 75 0 false))
    as [st' [H1 [H2 [_ H4]]]]; try reflexivity; try discriminate.
  exists st'. split; [exact H1|]. split.
  - rewrite H2. vm_compute. reflexivity.
  - apply H4. intros a b Ha Hb Hfa Hfb.
    destruct Ha as [<- | [<- | []]]; destruct Hb as [<- | [<- | []]];
      try reflexivity; vm_compute in Hfa, Hfb; discriminate.
Defined.

(** ** The legacy neighbour search *)

Lemma legacy_visit_pick (rack other : RackBlock) (c : LegacyCanvas.Closest) :
  (LegacyCanvas.closestNeighbor (LegacyCanvas.visit_other rack c other),
   LegacyCanvas.closestGap (LegacyCanvas.visit_other rack c other))
  = if legacy_cand rack other
       && lt_dist (legacy_gap rack other) (LegacyCanvas.closestGap c)
    then (Some other, Some (legacy_gap rack other))
    else (LegacyCanvas.closestNeighbor c, LegacyCanvas.closestGap c).
Proof.
  unfold LegacyCanvas.visit_other, legacy_cand, legacy_gap.
  destruct (String.eqb (id other) (id rack)); [reflexivity|]. cbn [negb andb].
  destruct (JS.Qlt_bool (JS.Math_max (y rack) (y other)) _);
    [destruct (JS.Qlt_bool (x rack) (x other))
    |destruct (JS.Qlt_bool (JS.Math_max (x rack) (x other)) _);
     [destruct (JS.Qlt_bool (y rack) (y other))|]];
    cbn [orb andb];
    try (destruct (Qle_bool 0 _); cbn [andb]; [|reflexivity];
         destruct (lt_dist _ _); reflexivity).
  reflexivity.
Qed.

Lemma legacy_closest_minimum (rack : RackBlock) (rs : list RackBlock) :
  match LegacyCanvas.closestNeighbor (LegacyCanvas.closestOf rs rack),
        LegacyCanvas.closestGap (LegacyCanvas.closestOf rs rack) with
  | None, g => g = None /\ forall o, In o rs -> legacy_cand rack o = false
  | Some n, g =>
      In n rs /\ legacy_cand rack n = true /\ g = Some (legacy_gap rack n)
      /\ forall o, In o rs -> legacy_cand rack o = true ->
                   legacy_gap rack n <= legacy_gap rack o
  end.
Proof.
  unfold LegacyCanvas.closestOf.
  induction rs as [|o rs IH] using rev_ind.
  - cbn. split; [reflexivity | intros o []].
  - rewrite fold_left_app. cbn [fold_left].
    set (c := fold_left (LegacyCanvas.visit_other rack) rs
                        LegacyCanvas.closest_init) in *.
    pose proof (legacy_visit_pick rack o c) as Hp.
    destruct (LegacyCanvas.closestNeighbor c) as [n|] eqn:En.
    + destruct IH as [Hin [Hc [Hd Hmin]]]. rewrite Hd in Hp.
      cbn [lt_dist] in Hp.
      destruct (legacy_cand rack o) eqn:Eo; cbn [andb] in Hp.
      * destruct (JS.Qlt_bool (legacy_gap rack o) (legacy_gap rack n)) eqn:El;
          injection Hp as Hp1 Hp2; rewrite Hp1, Hp2.
        -- apply Qlt_bool_true in El.
           split; [apply in_or_app; right; left; reflexivity|].
           split; [exact Eo|]. split; [reflexivity|].
           intros o' Ho' Hc'. apply in_app_or in Ho'.
           destruct Ho' as [Ho' | [<- | []]]; [|apply Qle_refl].
           specialize (Hmin o' Ho' Hc'). lra.
        -- apply Qlt_bool_false in El.
           split; [apply in_or_app; left; exact Hin|].
           split; [exact Hc|]. split; [first [reflexivity | exact Hd]|].
           intros o' Ho' Hc'. apply in_app_or in Ho'.
           destruct Ho' as [Ho' | [<- | []]];
             [apply Hmin; assumption | exact El].
      * injection Hp as Hp1 Hp2. rewrite Hp1, Hp2.
        split; [apply in_or_app; left; exact Hin|].
        split; [exact Hc|]. split; [first [reflexivity | exact Hd]|].
        intros o' Ho' Hc'. apply in_app_or in Ho'.
        destruct Ho' as [Ho' | [<- | []]];
          [apply Hmin; assumption | congruence].
    + destruct IH as [Hd Hnone]. rewrite Hd in Hp. cbn [lt_dist] in Hp.
      destruct (legacy_cand rack o) eqn:Eo; cbn [andb] in Hp;
        injection Hp as Hp1 Hp2; rewrite Hp1, Hp2.
      * split; [apply in_or_app; right; left; reflexivity|].
        split; [exact Eo|]. split; [reflexivity|].
        intros o' Ho' Hc'. apply in_app_or in Ho'.
        destruct Ho' as [Ho' | [<- | []]]; [|apply Qle_refl].
        rewrite (Hnone o' Ho') in Hc'. discriminate.
      * split; [first [reflexivity | exact Hd]|].
        intros o' Ho'. apply in_app_or in Ho'.
        destruct Ho' as [Ho' | [<- | []]]; [apply Hnone; exact Ho' | exact Eo].
Qed.

Lemma overlap_positive (a b : Q) : b < a -> 0 < JS.Math_max 0 (a - b + EPSILON).
Proof.
  intro H. unfold JS.Math_max.
  pose proof (Q.le_max_r 0 (a - b + EPSILON)) as L.
  assert (0 < EPSILON) by reflexivity.
  lra.
Qed.

Lemma legacy_cand_side (rack n : RackBlock) :
  legacy_cand rack n = true ->
  let R := retag OfIndustrial rack in
  let O := retag OfIndustrial n in
  (cand_right R O = true /\ gap_right R O = legacy_gap rack n)
  \/ (cand_left R O = true /\ gap_left R O = legacy_gap rack n)
  \/ (cand_bottom R O = true /\ gap_bottom R O = legacy_gap rack n)
  \/ (cand_top R O = true /\ gap_top R O = legacy_gap rack n).
Proof.
  intros H R O. unfold legacy_cand in H.
  apply andb_true_iff in H. destruct H as [H Hgap].
  apply andb_true_iff in H. destruct H as [_ Hal].
  apply Qle_bool_iff in Hgap.
  unfold legacy_gap in *.
  unfold cand_right, cand_left, cand_bottom, cand_top,
    gap_right, gap_left, gap_bottom, gap_top, vertOverlap, horzOverlap, R, O.
  cbn [retag x y width depth].
  remember (JS.Qlt_bool (JS.Math_max (y rack) (y n))
              (JS.Math_min (y rack + depth rack) (y n + depth n)))
    as A eqn:Ey in *.
  symmetry in Ey. destruct A.
  - apply Qlt_bool_true in Ey. apply overlap_positive in Ey.
    apply Qlt_bool_true in Ey.
    remember (JS.Qlt_bool (x rack) (x n)) as B eqn:Ex in *. destruct B.
    + left. split; [|reflexivity]. rewrite Ey. cbn [andb].
      apply Qle_bool_iff. lra.
    + right. left. split; [|reflexivity]. rewrite Ey. cbn [andb].
      apply Qle_bool_iff. lra.
  - cbn [orb] in Hal. apply Qlt_bool_true in Hal. apply overlap_positive in Hal.
    apply Qlt_bool_true in Hal.
    remember (JS.Qlt_bool (y rack) (y n)) as B eqn:Ex in *. destruct B.
    + right. right. left. split; [|reflexivity]. rewrite Hal. cbn [andb].
      apply Qle_bool_iff. lra.
    + right. right. right. split; [|reflexivity]. rewrite Hal. cbn [andb].
      apply Qle_bool_iff. lra.
Qed.

Lemma side_sees (objects : list CanvasObject) (obj O : CanvasObject)
    (cand : CanvasObject -> bool) (gap : CanvasObject -> Q)
    (closest : option CanvasObject) (dist : option Q) :
  nearest_on_side objects obj cand gap closest dist ->
  In O objects -> id O <> id obj -> cand O = true ->
  exists d, dist = Some d /\ d <= gap O.
Proof.
  unfold nearest_on_side. intros H Hin Hid Hc.
  destruct closest as [c|].
  - destruct H as [_ [_ [_ [Hd [_ Hmin]]]]].
    exists (gap c). split; [exact Hd | apply Hmin; assumption].
  - destruct H as [_ Hnone]. rewrite (Hnone O Hin Hid) in Hc. discriminate.
Qed.

(** X29.  The legacy search keeps one neighbour for the dragged rack: a
    rack, among those with another identifier that strictly overlap it in
    one axis (the Y axis is looked at first) at a gap that is not negative,
    whose gap is smallest; its gap is the recorded one.  The
    current four-sided search sees that neighbour too: on one of its sides
    it records a distance that is not larger. *)
Theorem legacy_neighbour_seen (rs : list RackBlock) (rack : RackBlock) :
  let c := LegacyCanvas.closestOf rs rack in
  match LegacyCanvas.closestNeighbor c with
  | None =>
      LegacyCanvas.closestGap c = None
      /\ forall o, In o rs -> legacy_cand rack o = false
  | Some n =>
      In n rs /\ id n <> id rack /\ legacy_cand rack n = true
      /\ LegacyCanvas.closestGap c = Some (legacy_gap rack n)
      /\ 0 <= legacy_gap rack n
      /\ (forall o, In o rs -> legacy_cand rack o = true ->
                    legacy_gap rack n <= legacy_gap rack o)
      /\ let N := nearestNeighbors (map (retag OfIndustrial) rs)
                                   (retag OfIndustrial rack) in
         exists d,
           (distRight N = Some d \/ distLeft N = Some d
            \/ distBottom N = Some d \/ distTop N = Some d)
           /\ d <= legacy_gap rack n
  end.
Proof.
  intro c. pose proof (legacy_closest_minimum rack rs) as H. fold c in H.
  destruct (LegacyCanvas.closestNeighbor c) as [n|]; [|exact H].
  destruct H as [Hin [Hc [Hd Hmin]]].
  assert (Hid : id n <> id rack).
  { unfold legacy_cand in Hc. apply andb_true_iff in Hc. destruct Hc as [Hc _].
    apply andb_true_iff in Hc. destruct Hc as [Hc _].
    apply negb_true_iff in Hc. apply String.eqb_neq. exact Hc. }
  assert (Hg : 0 <= legacy_gap rack n).
  { unfold legacy_cand in Hc. apply andb_true_iff in Hc. destruct Hc as [_ Hc].
    apply Qle_bool_iff. exact Hc. }
  repeat (split; [assumption|]).
  cbv zeta.
  set (R := retag OfIndustrial rack). set (O := retag OfIndustrial n).
  assert (HinO : In O (map (retag OfIndustrial) rs)) by (apply in_map; exact Hin).
  assert (HidO : id O <> id R) by exact Hid.
  destruct (nearest_sides_ok (map (retag OfIndustrial) rs) R)
    as [SR [SL [SB ST]]]. cbv zeta in SR, SL, SB, ST.
  destruct (legacy_cand_side rack n Hc) as [[C E] | [[C E] | [[C E] | [C E]]]];
    cbv zeta in C, E; fold R O in C, E; rewrite <- E.
  - destruct (side_sees _ _ O _ _ _ _ SR HinO HidO C) as [d [Hd1 Hd2]].
    exists d. split; [left; exact Hd1 | exact Hd2].
  - destruct (side_sees _ _ O _ _ _ _ SL HinO HidO C) as [d [Hd1 Hd2]].
    exists d. split; [right; left; exact Hd1 | exact Hd2].
  - destruct (side_sees _ _ O _ _ _ _ SB HinO HidO C) as [d [Hd1 Hd2]].
    exists d. split; [right; right; left; exact Hd1 | exact Hd2].
  - destruct (side_sees _ _ O _ _ _ _ ST HinO HidO C) as [d [Hd1 Hd2]].
    exists d. split; [right; right; right; exact Hd1 | exact Hd2].
Qed.

Lemma legacy_neighbour_seen_witness :
  exists n,
    LegacyCanvas.closestNeighbor (LegacyCanvas.closestOf row_of_racks row_first)
    = Some n
    /\ id n = "C"%string
    /\ legacy_gap row_first n == 1
    /\ (forall o, In o row_of_racks -> legacy_cand row_first o = true ->
                  legacy_gap row_first n <= legacy_gap row_first o)
    /\ exists d,
         (distRight (nearestNeighbors (map (retag OfIndustrial) row_of_racks)
                                      (retag OfIndustrial row_first)) = Some d
          \/ distLeft (nearestNeighbors (map (retag OfIndustrial) row_of_racks)
                                        (retag OfIndustrial row_first)) = Some d
          \/ distBottom (nearestNeighbors (map (retag OfIndustrial) row_of_racks)
                                          (retag OfIndustrial row_first)) = Some d
          \/ distTop (nearestNeighbors (map (retag OfIndustrial) row_of_racks)
                                       (retag OfIndustrial row_first)) = Some d)
         /\ d <= legacy_gap row_first n.
Proof.
  assert (E : LegacyCanvas.closestNeighbor
                (LegacyCanvas.closestOf row_of_racks row_first)
              = Some (mkPlaced "C" RACK 3 (1 # 2) 1 1 2 0 "B3"))
    by (vm_compute; reflexivity).
  pose proof (legacy_neighbour_seen row_of_racks row_first) as H.
  cbv zeta in H. rewrite E in H.
  destruct H as [_ [_ [_ [_ [_ [Hmin Hsee]]]]]].
  eexists. split; [exact E|]. split; [reflexivity|].
  split; [reflexivity|]. split; [exact Hmin | exact Hsee].
Defined.

(** ** Objects on the 2D floor *)

Lemma base_scale_facts (data : CanvasData) (width height : Q) (t : Transform) :
  0 < dataWidth data -> 0 < dataLength data ->
  120 < width -> 120 < height -> 0 < tScale t ->
  let m := sceneMetrics data width height t in
  0 < scale m
  /\ (tScale t == 1 ->
      drawWidth m <= width - 120 /\ drawLength m <= height - 120).
Proof.
  intros Hw Hl Hpw Hph Hs m.
  assert (Hw0 : ~ dataWidth data == 0) by lra.
  assert (Hl0 : ~ dataLength data == 0) by lra.
  unfold m, sceneMetrics. cbn [scale drawWidth drawLength].
  rewrite (or_default_nonzero _ 1 Hw0), (or_default_nonzero _ 1 Hl0).
  unfold JS.Math_min, padding.
  set (w := dataWidth data) in *. set (l := dataLength data) in *.
  set (a := (width - 60 * 2) / w). set (b := (height - 60 * 2) / l).
  assert (Ha : 0 < a) by (apply Qlt_shift_div_l; lra).
  assert (Hb : 0 < b) by (apply Qlt_shift_div_l; lra).
  assert (Ea : width - 60 * 2 == a * w) by (apply div_pos_sign; exact Hw).
  assert (Eb : height - 60 * 2 == b * l) by (apply div_pos_sign; exact Hl).
  pose proof (Q.le_min_l a b) as Hla. pose proof (Q.le_min_r a b) as Hlb.
  assert (Hmin : 0 < Qmin a b).
  { destruct (Q.min_spec a b) as [[_ E] | [_ E]]; rewrite E; assumption. }
  split; [apply Qmult_lt_0_compat; assumption|].
  intro E1. rewrite E1, Qmult_1_r.
  assert (W1 : w * Qmin a b <= w * a) by (apply Qmult_le_l; assumption).
  assert (L1 : l * Qmin a b <= l * b) by (apply Qmult_le_l; assumption).
  assert (Cw : w * a == a * w) by ring. assert (Cl : l * b == b * l) by ring.
  split; lra.
Qed.

(** X30.  Objects are drawn on the floor: on a site with positive width
    and length, in a viewport wider and higher than 120 pixels, at any
    positive zoom and any pan, the pixel rectangle [(pxX, pxY, pxW, pxH)]
    the render computes for an object whose footprint lies inside the site
    lies inside the rectangle drawn for the floor; at zoom 1 without pan it
    lies inside the viewport less its 60-pixel padding. *)
Theorem object_drawn_on_floor (data : CanvasData) (pixelWidth pixelHeight : Q)
    (t : Transform) (o : CanvasObject) :
  0 < dataWidth data -> 0 < dataLength data ->
  120 < pixelWidth -> 120 < pixelHeight -> 0 < tScale t ->
  0 <= x o -> 0 <= width o -> x o + width o <= dataWidth data ->
  0 <= y o -> 0 <= depth o -> y o + depth o <= dataLength data ->
  let m := sceneMetrics data pixelWidth pixelHeight t in
  let pxX := getX m (x o) in
  let pxY := getY m (y o) in
  let pxW := toPx m (width o) in
  let pxH := toPx m (depth o) in
  (originX m <= pxX /\ pxX + pxW <= originX m + drawWidth m
   /\ originY m <= pxY /\ pxY + pxH <= originY m + drawLength m
   /\ 0 <= pxW /\ 0 <= pxH)
  /\ (tScale t == 1 -> tX t == 0 -> tY t == 0 ->
      60 <= pxX /\ pxX + pxW <= pixelWidth - 60
      /\ 60 <= pxY /\ pxY + pxH <= pixelHeight - 60).
Proof.
  intros Hw Hl Hpw Hph Hs X1 X2 X3 Y1 Y2 Y3 m pxX pxY pxW pxH.
  destruct (base_scale_facts data pixelWidth pixelHeight t Hw Hl Hpw Hph Hs)
    as [Hsc Hfit]. fold m in Hsc, Hfit.
  assert (Ew : drawWidth m == dataWidth data * scale m) by reflexivity.
  assert (El : drawLength m == dataLength data * scale m) by reflexivity.
  assert (Hs0 : 0 <= scale m) by lra.
  assert (A1 : 0 <= x o * scale m) by (apply Qmult_le_0_compat; assumption).
  assert (A2 : 0 <= width o * scale m) by (apply Qmult_le_0_compat; assumption).
  assert (A3 : (x o + width o) * scale m <= dataWidth data * scale m)
    by (apply Qmult_le_compat_r; assumption).
  assert (B1 : 0 <= y o * scale m) by (apply Qmult_le_0_compat; assumption).
  assert (B2 : 0 <= depth o * scale m) by (apply Qmult_le_0_compat; assumption).
  assert (B3 : (y o + depth o) * scale m <= dataLength data * scale m)
    by (apply Qmult_le_compat_r; assumption).
  assert (A3' : (x o + width o) * scale m
                == x o * scale m + width o * scale m) by ring.
  assert (B3' : (y o + depth o) * scale m
                == y o * scale m + depth o * scale m) by ring.
  assert (Inside : originX m <= pxX /\ pxX + pxW <= originX m + drawWidth m
                   /\ originY m <= pxY /\ pxY + pxH <= originY m + drawLength m
                   /\ 0 <= pxW /\ 0 <= pxH).
  { unfold pxX, pxY, pxW, pxH, getX, getY, toPx. rewrite Ew, El.
    repeat split; lra. }
  split; [exact Inside|].
  intros E1 Ex Ey. destruct (Hfit E1) as [Fw Fl].
  destruct Inside as [I1 [I2 [I3 [I4 _]]]].
  assert (Ox : originX m == (pixelWidth - drawWidth m) / 2 + tX t) by reflexivity.
  assert (Oy : originY m == (pixelHeight - drawLength m) / 2 + tY t) by reflexivity.
  assert (Hx : (pixelWidth - drawWidth m) / 2
               == (1 # 2) * pixelWidth - (1 # 2) * drawWidth m) by field.
  assert (Hy : (pixelHeight - drawLength m) / 2
               == (1 # 2) * pixelHeight - (1 # 2) * drawLength m) by field.
  rewrite Hx, Ex in Ox. rewrite Hy, Ey in Oy.
  repeat split; lra.
Qed.

Lemma object_drawn_on_floor_witness :
  let m := sceneMetrics (IndustrialData hall) 900 700 (mkTransform 1 0 0) in
  60 <= getX m 30 /\ getX m 30 + toPx m 5 <= 900 - 60
  /\ 60 <= getY m 10 /\ getY m 10 + toPx m 5 <= 700 - 60.
Proof.
  intro m.
  destruct (object_drawn_on_floor (IndustrialData hall) 900 700
              (mkTransform 1 0 0)
              (mkPlaced "m1" (OfIndustrial MEZZANINE) 30 10 5 5 (1 # 5) 3 "M1"))
    as [_ H]; try reflexivity; try discriminate.
  apply H; reflexivity.
Defined.
